(** * MetricFrame: disaggregated metrics, streaming accumulation and aggregation

    A shallow embedding of [fairlearn/metrics/_metric_frame.py].

    Python objects are an inductive type [pyval]; exceptions are values of
    [exn]; the methods of [MetricFrame] are state transformers over a record
    holding the attributes of the object.  An exception leaves the attributes
    as they were at the point of the [raise], exactly as in Python, so every
    method returns the (possibly modified) frame together with its outcome. *)

From Stdlib Require Import String Ascii ZArith QArith Qabs Bool Arith Lia List DecimalString.
Import ListNotations.
Local Close Scope Q_scope.
Local Open Scope nat_scope.
Local Open Scope string_scope.
Local Open Scope list_scope.
Set Warnings "-register-all".

(** ** Exceptions *)

Inductive exn : Type :=
| ValueError (msg : string)
| TypeError (msg : string)
| KeyError (msg : string)
| IndexError (msg : string)
| AssertionError (msg : string)
| AttributeError (msg : string)
| ZeroDivisionError (msg : string)
| Exception (msg : string).

(** The error monad of code that does not touch the frame. *)
Definition res (A : Type) : Type := (exn + A)%type.

Definition rbind {A B} (c : res A) (k : A -> res B) : res B :=
  match c with
  | inl e => inl e
  | inr a => k a
  end.

Declare Scope res_scope.
Delimit Scope res_scope with res.
Notation "'try' x <- c ; k" := (rbind c (fun x => k))
  (at level 10, x pattern, c at level 100, k at level 200) : res_scope.
Local Open Scope res_scope.

Fixpoint mapM {A B} (f : A -> res B) (l : list A) : res (list B) :=
  match l with
  | [] => inr []
  | a :: l' => try b <- f a; try bs <- mapM f l'; inr (b :: bs)
  end.

(** ** Module constants of [_metric_frame.py] *)

Definition _SUBGROUP_COUNT_WARNING_THRESHOLD : nat := 20.
Definition _FEATURE_LIST_NONSCALAR := "Feature lists must be of scalar types".
Definition _FEATURE_DF_COLUMN_BAD_NAME := "DataFrame column names must be strings.".
Definition _DUPLICATE_FEATURE_NAME (name : string) :=
  ("Detected duplicate feature name: '" ++ name ++ "'")%string.
Definition _TOO_MANY_FEATURE_DIMS := "Feature array has too many dimensions".
Definition _SAMPLE_PARAM_KEYS_NOT_IN_FUNC_DICT :=
  "Keys in 'sample_params' do not match those in 'metric'".
Definition _BAD_INIT_ERROR := "Non streaming metrics require data to process.
 Set streaming=True for streaming metrics".
Definition _NON_EMPTY_INIT_ERR := "Streaming metrics must be initialized with empty lists.".
Definition _EMPTY_BATCHES_ERR := "No data to process, please add batches with `add_data`.".
Definition _CF_BAD_STATE_ERR :=
  "MetricFrame expected `control_features=None` because it was initialized as such.".
Definition _NOT_STREAMING_ERR := "This MetricFrame does not support adding data.".
Definition _DIFFERENT_TYPES_ERR := "Can't concatenate arrays of different types.".
Definition _CANT_CONCATENATE_ERR := "Can't concatenate".
Definition _SP_ALREADY_SET_ERR :=
  "MetricFrame was initialized with `sample_params` already set.".
Definition _SP_EXPECTED_ERR := "MetricFrame expected `sample_params` to be supplied.".

(** ** Python values *)

(** Values for which [numpy.isscalar] answers [True]; they are also the labels
    a feature column takes and the keys of dictionaries. *)
Inductive scalar : Type :=
| SInt (z : Z)
| SStr (s : string).

(** The objects that reach a [MetricFrame].  An [ndarray] is a shape and its
    elements in row-major order; a [Series] has a name (or [None]); a
    [DataFrame] is its columns, each a column label and the values; a [dict]
    is its items in insertion order. *)
Inductive pyval : Type :=
| PNone
| PScalar (x : scalar)
| PList (l : list pyval)
| PArray (shape : list nat) (data : list pyval)
| PSeries (name : option scalar) (values : list pyval)
| PDataFrame (columns : list (option scalar * list pyval))
| PDict (items : list (scalar * pyval)).

Definition PI (z : Z) : pyval := PScalar (SInt z).
Definition PS (s : string) : pyval := PScalar (SStr s).

Definition scalar_eqb (a b : scalar) : bool :=
  match a, b with
  | SInt x, SInt y => Z.eqb x y
  | SStr x, SStr y => String.eqb x y
  | _, _ => false
  end.

(** Python's order on labels of one kind; integers are placed before strings
    to make the order total (a column mixing the two is coerced by numpy before
    it reaches the encoder). *)
Definition scalar_leb (a b : scalar) : bool :=
  match a, b with
  | SInt x, SInt y => Z.leb x y
  | SInt _, SStr _ => true
  | SStr _, SInt _ => false
  | SStr x, SStr y => String.leb x y
  end.

(** [type(x)], as far as [_concat_batches] and [_process_features] look at it. *)
Inductive pytype : Type :=
| TNoneType | TInt | TStr | TList | TNdarray | TSeries | TDataFrame | TDict.

Definition type_of (v : pyval) : pytype :=
  match v with
  | PNone => TNoneType
  | PScalar (SInt _) => TInt
  | PScalar (SStr _) => TStr
  | PList _ => TList
  | PArray _ _ => TNdarray
  | PSeries _ _ => TSeries
  | PDataFrame _ => TDataFrame
  | PDict _ => TDict
  end.

Definition pytype_eqb (a b : pytype) : bool :=
  match a, b with
  | TNoneType, TNoneType | TInt, TInt | TStr, TStr | TList, TList
  | TNdarray, TNdarray | TSeries, TSeries | TDataFrame, TDataFrame
  | TDict, TDict => true
  | _, _ => false
  end.

Definition is_none (v : pyval) : bool :=
  match v with PNone => true | _ => false end.

(** [numpy.isscalar]. *)
Definition isscalar (v : pyval) : bool :=
  match v with PScalar _ => true | _ => false end.

(** ** numpy *)

Fixpoint shape_eqb (a b : list nat) : bool :=
  match a, b with
  | [], [] => true
  | x :: a', y :: b' => Nat.eqb x y && shape_eqb a' b'
  | _, _ => false
  end.

Abbreviation ndarray := (list nat * list pyval)%type.

Definition PArr (a : ndarray) : pyval := PArray (fst a) (snd a).

Definition df_nrows (cols : list (option scalar * list pyval)) : nat :=
  match cols with
  | [] => 0
  | (_, c) :: _ => length c
  end.

(** Row [i] of a table given by its columns. *)
Definition df_row (cols : list (option scalar * list pyval)) (i : nat) : list pyval :=
  map (fun c => nth i (snd c) PNone) cols.

(** [numpy.asarray]: a sequence of equally shaped items gains a leading
    dimension; a ragged sequence becomes a one-dimensional array of objects;
    anything that is not a sequence is a zero-dimensional array.  The items
    are stored as they are, which numpy does for labels of one kind that fit
    its types ([labels_numpy_keeps] below); it turns integers outside the
    64-bit range into floats or objects, and the integers of a list that
    mixes them with strings into strings. *)
Fixpoint asarray (v : pyval) : ndarray :=
  match v with
  | PArray sh d => (sh, d)
  | PList l =>
      let subs := map asarray l in
      match subs with
      | [] => ([0], [])
      | (s0, _) :: _ =>
          if forallb (fun sd => shape_eqb (fst sd) s0) subs
          then (length l :: s0, concat (map snd subs))
          else ([length l], l)
      end
  | PSeries _ vals => ([length vals], vals)
  | PDataFrame cols =>
      ([df_nrows cols; length cols], flat_map (df_row cols) (seq 0 (df_nrows cols)))
  | _ => ([], [v])
  end.

(** [numpy.squeeze]: drop the dimensions of length one. *)
Definition squeeze (a : ndarray) : ndarray :=
  (filter (fun n => negb (Nat.eqb n 1)) (fst a), snd a).

(** [numpy.atleast_1d]. *)
Definition atleast_1d (a : ndarray) : ndarray :=
  match fst a with
  | [] => ([1], snd a)
  | _ => a
  end.

(** Number of elements of one row (one index along the first axis). *)
Definition row_size (sh : list nat) : nat := fold_right Nat.mul 1 (tl sh).

Fixpoint chunks {A} (k n : nat) (d : list A) : list (list A) :=
  match n with
  | O => []
  | S n' => firstn k d :: chunks k n' (skipn k d)
  end.

(** The rows of an array along its first axis. *)
Definition array_rows (sh : list nat) (d : list pyval) : list (list pyval) :=
  chunks (row_size sh) (hd 0 sh) d.

(** [values[mask]] on lists: the entries at which the mask is [True]. *)
Fixpoint select {A} (mask : list bool) (l : list A) : list A :=
  match mask, l with
  | b :: mask', x :: l' => if b then x :: select mask' l' else select mask' l'
  | _, _ => []
  end.

(** [arr[mask]] with a one-dimensional boolean mask: the selected rows. *)
Definition array_select (mask : list bool) (v : pyval) : pyval :=
  match v with
  | PArray sh d =>
      let rows := select mask (array_rows sh d) in
      PArray (length rows :: tl sh) (concat rows)
  | _ => v
  end.

(** [arr[:, i]] of a two-dimensional array. *)
Definition array_column (sh : list nat) (d : list pyval) (i : nat) : list pyval :=
  map (fun r => nth i r PNone) (array_rows sh d).

(** [numpy.concatenate] along the first axis: every array needs at least one
    dimension and the dimensions after the first have to agree. *)
Definition np_concatenate (arrs : list ndarray) : res ndarray :=
  match arrs with
  | [] => inl (ValueError "need at least one array to concatenate")
  | (sh0, _) :: _ =>
      if existsb (fun a => match fst a with [] => true | _ => false end) arrs
      then inl (ValueError "zero-dimensional arrays cannot be concatenated")
      else if forallb (fun a => shape_eqb (tl (fst a)) (tl sh0)) arrs
      then inr (fold_right Nat.add 0 (map (fun a => hd 0 (fst a)) arrs) :: tl sh0,
                concat (map snd arrs))
      else inl (ValueError "all the input array dimensions except for the concatenation axis must match exactly")
  end.

(** ** Python's [len] and sklearn's [check_consistent_length] *)

Definition py_len (v : pyval) : res nat :=
  match v with
  | PNone => inl (TypeError "object of type 'NoneType' has no len()")
  | PScalar (SInt _) => inl (TypeError "object of type 'int' has no len()")
  | PScalar (SStr s) => inr (String.length s)
  | PList l => inr (length l)
  | PArray [] _ => inl (TypeError "len() of unsized object")
  | PArray (n :: _) _ => inr n
  | PSeries _ vals => inr (length vals)
  | PDataFrame cols => inr (df_nrows cols)
  | PDict items => inr (length items)
  end.

(** [sklearn.utils.validation._num_samples]: the first dimension, or [len]. *)
Definition _num_samples (v : pyval) : res nat :=
  match py_len v with
  | inl _ => inl (TypeError "Expected sequence or array-like")
  | inr n => inr n
  end.

Definition _INCONSISTENT_LENGTH :=
  "Found input variables with inconsistent numbers of samples".

Definition all_equal_nat (l : list nat) : bool :=
  match l with
  | [] => true
  | x :: l' => forallb (Nat.eqb x) l'
  end.

(** [check_consistent_length]: arguments that are [None] are skipped,
    the others have to report one and the same number of samples. *)
Definition check_consistent_length (arrays : list pyval) : res unit :=
  try lengths <- mapM _num_samples (filter (fun v => negb (is_none v)) arrays);
  if all_equal_nat lengths then inr tt else inl (ValueError _INCONSISTENT_LENGTH).

(** ** Python containers *)

(** [d[k]] and [k in d] on the items of a dict. *)
Fixpoint dict_get {V} (k : scalar) (d : list (scalar * V)) : option V :=
  match d with
  | [] => None
  | (k', v) :: d' => if scalar_eqb k k' then Some v else dict_get k d'
  end.

(** [d[k] = v] on a dict keyed by strings: an existing key keeps its place, a
    new key goes last. *)
Fixpoint dict_set {V} (k : string) (v : V) (d : list (string * V)) : list (string * V) :=
  match d with
  | [] => [(k, v)]
  | (k', v') :: d' =>
      if String.eqb k k' then (k, v) :: d' else (k', v') :: dict_set k v d'
  end.

Fixpoint str_get {V} (k : string) (d : list (string * V)) : option V :=
  match d with
  | [] => None
  | (k', v) :: d' => if String.eqb k k' then Some v else str_get k d'
  end.

(** [lst.append(x)]; objects other than lists have no such method.  A list is
    a value here: the lists a streaming frame appends to are taken as objects
    of their own, shared with no other attribute and no caller. *)
Definition py_append (lst x : pyval) : res pyval :=
  match lst with
  | PList l => inr (PList (l ++ [x]))
  | _ => inl (AttributeError "object has no attribute 'append'")
  end.

(** Truth value of the objects a control-feature buffer can be. *)
Definition py_truthy (v : pyval) : bool :=
  match v with
  | PNone => false
  | PScalar (SInt z) => negb (Z.eqb z 0)
  | PScalar (SStr s) => negb (String.eqb s "")
  | PList l => negb (Nat.eqb (length l) 0)
  | PDict d => negb (Nat.eqb (length d) 0)
  | _ => true
  end.

(** ** Sorting labels and index keys *)

(** A row label of a result table: one class per index level. *)
Abbreviation key := (list scalar).

Fixpoint key_eqb (a b : key) : bool :=
  match a, b with
  | [], [] => true
  | x :: a', y :: b' => scalar_eqb x y && key_eqb a' b'
  | _, _ => false
  end.

(** Tuples compare lexicographically. *)
Fixpoint key_leb (a b : key) : bool :=
  match a, b with
  | [], _ => true
  | _ :: _, [] => false
  | x :: a', y :: b' =>
      if scalar_eqb x y then key_leb a' b' else scalar_leb x y
  end.

Section SortUniq.
Context {A : Type} (leb eqb : A -> A -> bool).

Fixpoint insert_uniq (x : A) (l : list A) : list A :=
  match l with
  | [] => [x]
  | y :: l' =>
      if eqb x y then l
      else if leb x y then x :: l
      else y :: insert_uniq x l'
  end.

(** The distinct elements in increasing order ([numpy.unique]). *)
Definition sort_uniq (l : list A) : list A := fold_right insert_uniq [] l.

(** The distinct elements in order of first appearance. *)
Fixpoint first_seen (l : list A) : list A :=
  match l with
  | [] => []
  | x :: l' => x :: filter (fun y => negb (eqb x y)) (first_seen l')
  end.
End SortUniq.

(** ** Collaborators outside [_metric_frame.py] *)

(** Modelled from the spec: [_convert_to_ndarray_and_squeeze] of
    [fairlearn/metrics/_input_manipulations.py], which is not part of the
    sources at hand.  The flattener "returns a single one-dimensional numeric
    representation, squeezing any trailing singleton dimension"; a single value
    stays an array of length one. *)
Definition _convert_to_ndarray_and_squeeze (target : pyval) : pyval :=
  PArr (atleast_1d (squeeze (asarray target))).

(** Modelled from the spec: [GroupFeature] of
    [fairlearn/metrics/_group_feature.py], which is not part of the sources at
    hand.  A feature has a name, the ordered set of distinct values of its
    column (its classes) and a boolean selection mask for each class. *)
Record GroupFeature : Type := {
  gf_name : string;
  gf_classes : list scalar;
  gf_values : list scalar
}.

(** Modelled from the spec: the values of a feature column are labels (the
    encoder of [GroupFeature], absent from the sources at hand, needs values
    it can order). *)
Definition as_label (v : pyval) : res scalar :=
  match v with
  | PScalar x => inr x
  | _ => inl (TypeError "feature values must be labels")
  end.

(** Modelled from the spec: the message of [_group_feature.py] for an
    explicit name that is not a string. *)
Definition _SERIES_NAME_NOT_STRING := "Series name must be a string.".

Definition string_of_nat (n : nat) : string :=
  DecimalString.NilZero.string_of_uint (Nat.to_uint n).

(** Modelled from the spec: the constructor
    [GroupFeature(base_name, feature_vector, index, name)] of the absent
    [_group_feature.py].  The name is the one given, else the string name of
    a Series, else [base_name] followed by the index; a name that is not a
    string is rejected; the classes are the distinct values in increasing
    order. *)
Definition GroupFeature_init (base_name : string) (feature_vector : pyval)
    (index : nat) (name : option string) : res GroupFeature :=
  try vals <- mapM as_label (snd (asarray feature_vector));
  try nm <- match name, feature_vector with
            | Some n, _ => inr n
            | None, PSeries (Some (SStr n)) _ => inr n
            | None, PSeries (Some (SInt _)) _ => inl (ValueError _SERIES_NAME_NOT_STRING)
            | None, _ => inr (base_name ++ string_of_nat index)%string
            end;
  inr {| gf_name := nm;
         gf_classes := sort_uniq scalar_leb scalar_eqb vals;
         gf_values := vals |}.

(** Modelled from the spec: [GroupFeature.get_mask_for_class], the boolean
    selection mask of one class of the feature. *)
Definition get_mask_for_class (f : GroupFeature) (target_class : scalar) : list bool :=
  map (scalar_eqb target_class) (gf_values f).

(** A metric function: a Python callable [fn(y_true, y_pred, **sample_params)]
    with its [__name__].  Metric functions are opaque to the frame; they are
    taken as total functions into the rationals.  The values are Python
    numbers, or numpy scalars such as [numpy.float64] when
    [fn_returns_numpy] holds: the two kinds differ in what a division by zero
    does. *)
Record callable : Type := {
  fn_name : string;
  fn_call : pyval -> pyval -> list (scalar * pyval) -> Q;
  fn_returns_numpy : bool
}.

(** One invocation of a metric function: the name of the container that made
    it, the mask it was made for ([None] for the whole dataset) and the
    arguments the function received. *)
Record call : Type := {
  call_name : string;
  call_mask : option (list bool);
  call_y_true : pyval;
  call_y_pred : pyval;
  call_params : list (scalar * pyval)
}.

(** Modelled from the spec: [FunctionContainer] of
    [fairlearn/metrics/_function_container.py], which is not part of the
    sources at hand.  It binds one metric function, its name and its per-sample
    parameters (arrays of the dataset length); [evaluate_all] calls the
    function on the whole dataset, [evaluate] on the masked subset, the
    parameters sliced with the same mask. *)
Record FunctionContainer : Type := {
  func_ : callable;
  name_ : string;
  sample_params_ : list (scalar * pyval)
}.

(** Modelled from the spec: the message [_SAMPLE_PARAMS_NOT_DICT] that
    [_metric_frame.py] imports from the absent [_function_container.py]. *)
Definition _SAMPLE_PARAMS_NOT_DICT := "Sample parameters must be a dictionary".

(** Modelled from the spec: the constructor
    [FunctionContainer(func, name, sample_params)]; parameters that are not
    a mapping are rejected, the arrays of a mapping are kept as ndarrays. *)
Definition FunctionContainer_init (func : callable) (name : option string)
    (sample_params : pyval) : res FunctionContainer :=
  try sp <- match sample_params with
            | PNone => inr []
            | PDict items =>
                inr (map (fun kv => (fst kv, PArr (asarray (snd kv))))
                         (filter (fun kv => negb (is_none (snd kv))) items))
            | _ => inl (ValueError _SAMPLE_PARAMS_NOT_DICT)
            end;
  inr {| func_ := func;
         name_ := match name with Some n => n | None => fn_name func end;
         sample_params_ := sp |}.

(** Modelled from the spec: [FunctionContainer.evaluate_all], the metric on
    the whole dataset with the bound parameters; the second component records
    the call. *)
Definition evaluate_all (fc : FunctionContainer) (y_true y_pred : pyval) : Q * call :=
  (fn_call (func_ fc) y_true y_pred (sample_params_ fc),
   {| call_name := name_ fc; call_mask := None; call_y_true := y_true;
      call_y_pred := y_pred; call_params := sample_params_ fc |}).

(** Modelled from the spec: [FunctionContainer.evaluate], the metric on the
    masked subset of [y_true], [y_pred] and every bound parameter array, the
    same mask for all of them. *)
Definition evaluate (fc : FunctionContainer) (y_true y_pred : pyval)
    (mask : list bool) : Q * call :=
  let params := map (fun kv => (fst kv, array_select mask (snd kv))) (sample_params_ fc) in
  (fn_call (func_ fc) (array_select mask y_true) (array_select mask y_pred) params,
   {| call_name := name_ fc; call_mask := Some mask;
      call_y_true := array_select mask y_true;
      call_y_pred := array_select mask y_pred; call_params := params |}).

(** ** Result tables (the part of pandas the frame uses) *)

(** A cell of a metric table: a value, or absent ([NaN]). *)
Abbreviation cell := (option Q).

(** A cell of a ratio table: float division can also produce an infinity. *)
Inductive fcell : Type :=
| FNaN
| FNum (q : Q)
| FInf (negative : bool).

Section Tables.
Context {C : Type}.

(** A [pandas.Series]: the names of the index levels, the row labels and the
    values. *)
Record Series : Type := {
  s_names : list (option string);
  s_index : list key;
  s_values : list C
}.

(** A [pandas.DataFrame]: the names of the index levels, the row labels and
    the columns, each with the values of all rows. *)
Record DataFrame : Type := {
  df_names : list (option string);
  df_index : list key;
  df_columns : list (string * list C)
}.

(** What a read of the frame returns: a bare value, a Series or a DataFrame. *)
Inductive pdobj : Type :=
| PdScalar (c : C)
| PdSeries (s : Series)
| PdFrame (d : DataFrame).

(** [df.iloc[:, 0]]. *)
Definition iloc_col0 (d : DataFrame) : res Series :=
  match df_columns d with
  | [] => inl (IndexError "single positional indexer is out-of-bounds")
  | (_, vals) :: _ =>
      inr {| s_names := df_names d; s_index := df_index d; s_values := vals |}
  end.

(** [s.iloc[0]]. *)
Definition iloc0 (s : Series) : res C :=
  match s_values s with
  | [] => inl (IndexError "single positional indexer is out-of-bounds")
  | v :: _ => inr v
  end.

(** The value stored under a row label, if the label is in the index. *)
Fixpoint lookup_key (k : key) (idx : list key) (vals : list C) : option C :=
  match idx, vals with
  | k' :: idx', v :: vals' => if key_eqb k k' then Some v else lookup_key k idx' vals'
  | _, _ => None
  end.

(** Position of a named level among the levels of an index. *)
Fixpoint level_position (names : list (option string)) (n : string) : nat :=
  match names with
  | [] => 0
  | Some m :: names' => if String.eqb n m then 0 else S (level_position names' n)
  | None :: names' => S (level_position names' n)
  end.

(** The part of a row label that belongs to the given levels. *)
Definition project (names : list (option string)) (levels : list string) (k : key) : key :=
  map (fun n => nth (level_position names n) k (SStr "")) levels.

(** The group labels of a [groupby]: sorted, or in order of appearance. *)
Definition group_keys (sort : bool) (pk : list key) : list key :=
  if sort then sort_uniq key_leb key_eqb pk else first_seen key_eqb pk.

(** The values of the rows that fall in group [g]. *)
Definition rows_of_group (pk : list key) (vals : list C) (g : key) : list C :=
  map snd (filter (fun kv => key_eqb g (fst kv)) (combine pk vals)).

(** [groupby(level=levels, sort=sort)] followed by a reduction of every
    column within every group. *)
Definition groupby_level (agg : list C -> C) (sort : bool) (levels : list string)
    (names : list (option string)) (idx : list key) (vals : list C) : list C :=
  let pk := map (project names levels) idx in
  map (fun g => agg (rows_of_group pk vals g)) (group_keys sort pk).

Definition groupby_index (sort : bool) (levels : list string)
    (names : list (option string)) (idx : list key) : list key :=
  group_keys sort (map (project names levels) idx).

Definition df_groupby (agg : list C -> C) (sort : bool) (levels : list string)
    (d : DataFrame) : DataFrame :=
  {| df_names := map Some levels;
     df_index := groupby_index sort levels (df_names d) (df_index d);
     df_columns :=
       map (fun c => (fst c, groupby_level agg sort levels (df_names d) (df_index d) (snd c)))
           (df_columns d) |}.

Definition s_groupby (agg : list C -> C) (sort : bool) (levels : list string)
    (s : Series) : Series :=
  {| s_names := map Some levels;
     s_index := groupby_index sort levels (s_names s) (s_index s);
     s_values := groupby_level agg sort levels (s_names s) (s_index s) (s_values s) |}.

(** The Series of one reduction per column, labelled by the column names. *)
Definition df_reduce (agg : list C -> C) (d : DataFrame) : Series :=
  {| s_names := [None];
     s_index := map (fun c => [SStr (fst c)]) (df_columns d);
     s_values := map (fun c => agg (snd c)) (df_columns d) |}.

(** [obj.max(level=levels)] and its like: a plain reduction when [levels] is
    [None], else a reduction within the groups of the named levels, which
    pandas forms with [sort=False]. *)
Definition reduce_level (agg : list C -> C) (levels : option (list string))
    (o : pdobj) : pdobj :=
  match o, levels with
  | PdScalar c, _ => PdScalar c
  | PdSeries s, None => PdScalar (agg (s_values s))
  | PdSeries s, Some lv => PdSeries (s_groupby agg false lv s)
  | PdFrame d, None => PdSeries (df_reduce agg d)
  | PdFrame d, Some lv => PdFrame (df_groupby agg false lv d)
  end.

Definition pd_map (f : C -> C) (o : pdobj) : pdobj :=
  match o with
  | PdScalar c => PdScalar (f c)
  | PdSeries s =>
      PdSeries {| s_names := s_names s; s_index := s_index s;
                  s_values := map f (s_values s) |}
  | PdFrame d =>
      PdFrame {| df_names := df_names d; df_index := df_index d;
                 df_columns := map (fun c => (fst c, map f (snd c))) (df_columns d) |}
  end.
End Tables.

Arguments Series : clear implicits.
Arguments DataFrame : clear implicits.
Arguments pdobj : clear implicits.

Definition name_eqb (a b : option string) : bool :=
  match a, b with
  | None, None => true
  | Some x, Some y => String.eqb x y
  | _, _ => false
  end.

Fixpoint names_eqb (a b : list (option string)) : bool :=
  match a, b with
  | [], [] => true
  | x :: a', y :: b' => name_eqb x y && names_eqb a' b'
  | _, _ => false
  end.

Section BinOp.
Context {A B : Type} (op : A -> A -> B) (nan : A).

(** The right-hand value that pandas aligns with the row [k] of the
    left-hand operand: the value under the same label when both indexes have
    the same levels, else the value under the part of [k] that lies in the
    levels of the right-hand index (a join on the common levels); a label
    that is missing gives [NaN]. *)
Definition aligned (lnames rnames : list (option string)) (ridx : list key)
    (rvals : list A) (k : key) : A :=
  let k' := if names_eqb lnames rnames then k
            else project lnames (flat_map (fun n => match n with Some s => [s] | None => [] end) rnames) k in
  match lookup_key k' ridx rvals with
  | Some v => v
  | None => nan
  end.

Definition column_named (n : string) (cols : list (string * list A)) : option (list A) :=
  str_get n cols.

(** [left op right] for the shapes the frame combines.  The labels of the
    right-hand operand are among those of the left-hand one in every use
    below, so the result carries the labels of the left-hand operand. *)
Definition pd_binop (l r : pdobj A) : pdobj B :=
  match l, r with
  | PdScalar a, PdScalar b => PdScalar (op a b)
  | PdScalar a, PdSeries s =>
      PdSeries {| s_names := s_names s; s_index := s_index s;
                  s_values := map (op a) (s_values s) |}
  | PdScalar a, PdFrame d =>
      PdFrame {| df_names := df_names d; df_index := df_index d;
                 df_columns := map (fun c => (fst c, map (op a) (snd c))) (df_columns d) |}
  | PdSeries s, PdScalar b =>
      PdSeries {| s_names := s_names s; s_index := s_index s;
                  s_values := map (fun a => op a b) (s_values s) |}
  | PdSeries s, PdSeries t =>
      PdSeries {| s_names := s_names s; s_index := s_index s;
                  s_values :=
                    map (fun kv => op (snd kv)
                           (aligned (s_names s) (s_names t) (s_index t) (s_values t) (fst kv)))
                        (combine (s_index s) (s_values s)) |}
  | PdSeries s, PdFrame d =>
      PdFrame {| df_names := df_names d; df_index := df_index d;
                 df_columns :=
                   map (fun c => (fst c,
                          map (op (match lookup_key [SStr (fst c)] (s_index s) (s_values s) with
                                   | Some v => v | None => nan end)) (snd c)))
                       (df_columns d) |}
  | PdFrame d, PdScalar b =>
      PdFrame {| df_names := df_names d; df_index := df_index d;
                 df_columns := map (fun c => (fst c, map (fun a => op a b) (snd c))) (df_columns d) |}
  | PdFrame d, PdSeries s =>
      PdFrame {| df_names := df_names d; df_index := df_index d;
                 df_columns :=
                   map (fun c => (fst c,
                          map (fun a => op a
                                 (match lookup_key [SStr (fst c)] (s_index s) (s_values s) with
                                  | Some v => v | None => nan end)) (snd c)))
                       (df_columns d) |}
  | PdFrame d, PdFrame e =>
      PdFrame {| df_names := df_names d; df_index := df_index d;
                 df_columns :=
                   map (fun c => (fst c,
                          map (fun kv => op (snd kv)
                                 (match column_named (fst c) (df_columns e) with
                                  | Some rvals =>
                                      aligned (df_names d) (df_names e) (df_index e) rvals (fst kv)
                                  | None => nan
                                  end))
                              (combine (df_index d) (snd c))))
                       (df_columns d) |}
  end.
End BinOp.

(** ** Arithmetic on cells *)

Definition qmax (a b : Q) : Q := if Qle_bool a b then b else a.
Definition qmin (a b : Q) : Q := if Qle_bool a b then a else b.

Definition cell_lift2 (f : Q -> Q -> Q) (a b : cell) : cell :=
  match a, b with
  | Some x, Some y => Some (f x y)
  | _, _ => None
  end.

Definition cell_sub : cell -> cell -> cell := cell_lift2 Qminus.
Definition cell_abs (a : cell) : cell := option_map Qabs a.

(** Division of numpy floats: a non-zero value over zero is an infinity, zero
    over zero and anything involving [NaN] is [NaN]. *)
Definition cell_div (a b : cell) : fcell :=
  match a, b with
  | Some x, Some y =>
      if Qeq_bool y 0
      then (if Qeq_bool x 0 then FNaN else FInf (negb (Qle_bool 0 x)))
      else FNum (Qdiv x y)
  | _, _ => FNaN
  end.

(** The message of Python for a [float] divided by zero. *)
Definition _ZERO_DIVISION := "float division by zero".

Definition is_zero_cell (c : cell) : bool :=
  match c with
  | Some y => Qeq_bool y 0
  | None => false
  end.

(** The cells of a result of [group_max] or [group_min] that hold values of
    the metric function [name]: the one value or all values of a single
    callable ([usc]), else the entry of a Series under the name, or the
    column of a DataFrame under the name. *)
Definition cells_of_function (usc : bool) (name : string) (o : pdobj cell) : list cell :=
  match o with
  | PdScalar c => [c]
  | PdSeries s =>
      if usc then s_values s
      else match lookup_key [SStr name] (s_index s) (s_values s) with
           | Some c => [c]
           | None => []
           end
  | PdFrame d =>
      match str_get name (df_columns d) with
      | Some vals => vals
      | None => []
      end
  end.

(** What [groupby(level=...).max()] and [.min()] leave in the cells of a
    column of dtype [object] that holds numbers.  Releases of pandas differ:
    the values come back as a column of [float64], as Python floats in a
    column of dtype [object], or as the objects they were.  The frame does not
    choose, so the division of [ratio] takes the behaviour as a parameter. *)
Inductive grouped_cells : Type :=
| GroupedFloat64
| GroupedPython
| GroupedObjects.

(** Whether the cells that [group_max] returns for a metric function divide
    as Python numbers do.  Without control levels the cells hold what the
    function returned; with control levels ([grouped]) they went through
    [groupby]. *)
Definition divides_as_python (pandas : grouped_cells) (grouped : bool) (f : callable)
    : bool :=
  if grouped then
    match pandas with
    | GroupedFloat64 => false
    | GroupedPython => true
    | GroupedObjects => negb (fn_returns_numpy f)
    end
  else negb (fn_returns_numpy f).

(** Whether the division by [hi] meets a zero under a Python number: the
    cells of some metric function divide as Python numbers and one of them is
    zero.  Python raises for such a divisor whatever the dividend is; numpy
    floats divide as [cell_div] says. *)
Definition divides_by_zero (pandas : grouped_cells) (grouped : bool)
    (fd : list (string * FunctionContainer)) (usc : bool) (hi : pdobj cell) : bool :=
  existsb (fun nf => divides_as_python pandas grouped (func_ (snd nf))
                     && existsb is_zero_cell (cells_of_function usc (fst nf) hi)) fd.

(** [lo / hi] for two reductions of one table of the frame, which carry the
    same labels.  pandas divides cell by cell; where the cells are objects it
    leaves each division to the values themselves, the first division that
    raises ends the operation, and all raise the same exception. *)
Definition pd_truediv (pandas : grouped_cells) (grouped : bool)
    (fd : list (string * FunctionContainer)) (usc : bool)
    (lo hi : pdobj cell) : res (pdobj fcell) :=
  if divides_by_zero pandas grouped fd usc hi
  then inl (ZeroDivisionError _ZERO_DIVISION)
  else inr (pd_binop cell_div None lo hi).

(** Reductions skip absent cells ([skipna=True]); a column without any value
    reduces to [NaN]. *)
Definition skipna (f : Q -> Q -> Q) (acc c : cell) : cell :=
  match acc, c with
  | Some x, Some y => Some (f x y)
  | Some x, None => Some x
  | None, c => c
  end.

Definition col_max (cells : list cell) : cell := fold_left (skipna qmax) cells None.
Definition col_min (cells : list cell) : cell := fold_left (skipna qmin) cells None.

(** ** The frame *)

(** The [metric] argument: one callable, or a dict of named callables. *)
Inductive metric_arg : Type :=
| MCallable (f : callable)
| MDict (d : list (string * callable)).

(** The attributes of a [MetricFrame] object.  An attribute that is not yet
    assigned is [None]; [calls] is not an attribute but the record of every
    invocation of a metric function made on behalf of the frame. *)
Record MetricFrame : Type := {
  _s_f : pyval;
  _c_f : pyval;
  _s_p : pyval;
  _streaming : bool;
  metric : metric_arg;
  _cf_names : option (list string);
  _sf_names : option (list string);
  _y_true : pyval;
  _y_pred : pyval;
  _overall : option (pdobj cell);
  _by_group : option (DataFrame cell);
  func_dict : list (string * FunctionContainer);
  _user_supplied_callable : option bool;
  calls : list call
}.

Definition set_s_f v (s : MetricFrame) : MetricFrame :=
  {| _s_f := v; _c_f := _c_f s; _s_p := _s_p s; _streaming := _streaming s;
     metric := metric s; _cf_names := _cf_names s; _sf_names := _sf_names s;
     _y_true := _y_true s; _y_pred := _y_pred s; _overall := _overall s;
     _by_group := _by_group s; func_dict := func_dict s;
     _user_supplied_callable := _user_supplied_callable s; calls := calls s |}.

Definition set_c_f v (s : MetricFrame) : MetricFrame :=
  {| _s_f := _s_f s; _c_f := v; _s_p := _s_p s; _streaming := _streaming s;
     metric := metric s; _cf_names := _cf_names s; _sf_names := _sf_names s;
     _y_true := _y_true s; _y_pred := _y_pred s; _overall := _overall s;
     _by_group := _by_group s; func_dict := func_dict s;
     _user_supplied_callable := _user_supplied_callable s; calls := calls s |}.

Definition set_s_p v (s : MetricFrame) : MetricFrame :=
  {| _s_f := _s_f s; _c_f := _c_f s; _s_p := v; _streaming := _streaming s;
     metric := metric s; _cf_names := _cf_names s; _sf_names := _sf_names s;
     _y_true := _y_true s; _y_pred := _y_pred s; _overall := _overall s;
     _by_group := _by_group s; func_dict := func_dict s;
     _user_supplied_callable := _user_supplied_callable s; calls := calls s |}.

Definition set_cf_names v (s : MetricFrame) : MetricFrame :=
  {| _s_f := _s_f s; _c_f := _c_f s; _s_p := _s_p s; _streaming := _streaming s;
     metric := metric s; _cf_names := v; _sf_names := _sf_names s;
     _y_true := _y_true s; _y_pred := _y_pred s; _overall := _overall s;
     _by_group := _by_group s; func_dict := func_dict s;
     _user_supplied_callable := _user_supplied_callable s; calls := calls s |}.

Definition set_sf_names v (s : MetricFrame) : MetricFrame :=
  {| _s_f := _s_f s; _c_f := _c_f s; _s_p := _s_p s; _streaming := _streaming s;
     metric := metric s; _cf_names := _cf_names s; _sf_names := v;
     _y_true := _y_true s; _y_pred := _y_pred s; _overall := _overall s;
     _by_group := _by_group s; func_dict := func_dict s;
     _user_supplied_callable := _user_supplied_callable s; calls := calls s |}.

Definition set_y_true v (s : MetricFrame) : MetricFrame :=
  {| _s_f := _s_f s; _c_f := _c_f s; _s_p := _s_p s; _streaming := _streaming s;
     metric := metric s; _cf_names := _cf_names s; _sf_names := _sf_names s;
     _y_true := v; _y_pred := _y_pred s; _overall := _overall s;
     _by_group := _by_group s; func_dict := func_dict s;
     _user_supplied_callable := _user_supplied_callable s; calls := calls s |}.

Definition set_y_pred v (s : MetricFrame) : MetricFrame :=
  {| _s_f := _s_f s; _c_f := _c_f s; _s_p := _s_p s; _streaming := _streaming s;
     metric := metric s; _cf_names := _cf_names s; _sf_names := _sf_names s;
     _y_true := _y_true s; _y_pred := v; _overall := _overall s;
     _by_group := _by_group s; func_dict := func_dict s;
     _user_supplied_callable := _user_supplied_callable s; calls := calls s |}.

Definition set_overall v (s : MetricFrame) : MetricFrame :=
  {| _s_f := _s_f s; _c_f := _c_f s; _s_p := _s_p s; _streaming := _streaming s;
     metric := metric s; _cf_names := _cf_names s; _sf_names := _sf_names s;
     _y_true := _y_true s; _y_pred := _y_pred s; _overall := v;
     _by_group := _by_group s; func_dict := func_dict s;
     _user_supplied_callable := _user_supplied_callable s; calls := calls s |}.

Definition set_by_group v (s : MetricFrame) : MetricFrame :=
  {| _s_f := _s_f s; _c_f := _c_f s; _s_p := _s_p s; _streaming := _streaming s;
     metric := metric s; _cf_names := _cf_names s; _sf_names := _sf_names s;
     _y_true := _y_true s; _y_pred := _y_pred s; _overall := _overall s;
     _by_group := v; func_dict := func_dict s;
     _user_supplied_callable := _user_supplied_callable s; calls := calls s |}.

Definition set_func_dict v (s : MetricFrame) : MetricFrame :=
  {| _s_f := _s_f s; _c_f := _c_f s; _s_p := _s_p s; _streaming := _streaming s;
     metric := metric s; _cf_names := _cf_names s; _sf_names := _sf_names s;
     _y_true := _y_true s; _y_pred := _y_pred s; _overall := _overall s;
     _by_group := _by_group s; func_dict := v;
     _user_supplied_callable := _user_supplied_callable s; calls := calls s |}.

Definition set_user_supplied_callable v (s : MetricFrame) : MetricFrame :=
  {| _s_f := _s_f s; _c_f := _c_f s; _s_p := _s_p s; _streaming := _streaming s;
     metric := metric s; _cf_names := _cf_names s; _sf_names := _sf_names s;
     _y_true := _y_true s; _y_pred := _y_pred s; _overall := _overall s;
     _by_group := _by_group s; func_dict := func_dict s;
     _user_supplied_callable := v; calls := calls s |}.

Definition log_calls (cs : list call) (s : MetricFrame) : MetricFrame :=
  {| _s_f := _s_f s; _c_f := _c_f s; _s_p := _s_p s; _streaming := _streaming s;
     metric := metric s; _cf_names := _cf_names s; _sf_names := _sf_names s;
     _y_true := _y_true s; _y_pred := _y_pred s; _overall := _overall s;
     _by_group := _by_group s; func_dict := func_dict s;
     _user_supplied_callable := _user_supplied_callable s; calls := calls s ++ cs |}.

(** Methods: the frame goes in, the outcome and the frame come out.  A raised
    exception keeps every assignment made before it. *)
Definition M (A : Type) : Type := MetricFrame -> res A * MetricFrame.

Definition ret {A} (a : A) : M A := fun s => (inr a, s).
Definition raise {A} (e : exn) : M A := fun s => (inl e, s).
Definition lift {A} (r : res A) : M A := fun s => (r, s).
Definition bind {A B} (c : M A) (k : A -> M B) : M B :=
  fun s => match c s with
           | (inl e, s') => (inl e, s')
           | (inr a, s') => k a s'
           end.
Definition attr {A} (f : MetricFrame -> A) : M A := fun s => (inr (f s), s).
Definition assign (f : MetricFrame -> MetricFrame) : M unit := fun s => (inr tt, f s).

Declare Scope frame_scope.
Delimit Scope frame_scope with frame.
Notation "x <- c ;; k" := (bind c (fun x => k))
  (at level 61, c at next level, right associativity) : frame_scope.
Notation "c ;; k" := (bind c (fun _ => k))
  (at level 61, right associativity) : frame_scope.
Local Open Scope frame_scope.

(** ** Feature processing *)

(** [pandas.DataFrame.from_dict]: the keys become the column labels; the
    values have to be one-dimensional and of one length. *)
Definition dataframe_from_dict (items : list (scalar * pyval))
    : res (list (option scalar * list pyval)) :=
  try cols <- mapM (fun kv =>
                let a := asarray (snd kv) in
                match fst a with
                | [_] => inr (Some (fst kv), snd a)
                | _ => inl (ValueError "Per-column arrays must each be 1-dimensional")
                end) items;
  if all_equal_nat (map (fun c => length (snd c)) cols) then inr cols
  else inl (ValueError "All arrays must be of the same length").

(** The loop over the columns of a DataFrame, shared by the [DataFrame] and
    the [dict] branch of [_process_features]. *)
Fixpoint process_columns (base_name : string) (sample_array : pyval) (i : nat)
    (cols : list (option scalar * list pyval)) : res (list GroupFeature) :=
  match cols with
  | [] => inr []
  | (col_name, vals) :: cols' =>
      match col_name with
      | Some (SStr n) =>
          let column := PSeries (Some (SStr n)) vals in
          try _ <- check_consistent_length [column; sample_array];
          try f <- GroupFeature_init base_name column i None;
          try fs <- process_columns base_name sample_array (S i) cols';
          inr (f :: fs)
      | _ => inl (ValueError _FEATURE_DF_COLUMN_BAD_NAME)
      end
  end.

(** The loop over the columns of a two-dimensional array. *)
Fixpoint process_array_columns (base_name : string) (sample_array : pyval)
    (sh : list nat) (d : list pyval) (i n : nat) : res (list GroupFeature) :=
  match n with
  | O => inr []
  | S n' =>
      let col := PArray [hd 0 sh] (array_column sh d i) in
      try _ <- check_consistent_length [col; sample_array];
      try f <- GroupFeature_init base_name col i None;
      try fs <- process_array_columns base_name sample_array sh d (S i) n';
      inr (f :: fs)
  end.

(** [MetricFrame._process_features]. *)
Definition _process_features (base_name : string) (features sample_array : pyval)
    : res (list GroupFeature) :=
  match features with
  | PSeries _ _ =>
      try _ <- check_consistent_length [features; sample_array];
      try f <- GroupFeature_init base_name features 0 None;
      inr [f]
  | PDataFrame cols => process_columns base_name sample_array 0 cols
  | PList l =>
      match l with
      | [] => inl (IndexError "list index out of range")
      | first :: _ =>
          if isscalar first then
            let f_arr := atleast_1d (squeeze (asarray features)) in
            if negb (Nat.eqb (length (fst f_arr)) 1)
            then inl (AssertionError "")
            else
              try _ <- check_consistent_length [PArr f_arr; sample_array];
              try f <- GroupFeature_init base_name (PArr f_arr) 0 None;
              inr [f]
          else inl (ValueError _FEATURE_LIST_NONSCALAR)
      end
  | PDict items =>
      try df <- dataframe_from_dict items;
      process_columns base_name sample_array 0 df
  | _ =>
      let f_arr := squeeze (asarray features) in
      match fst f_arr with
      | [_] =>
          try _ <- check_consistent_length [PArr f_arr; sample_array];
          try f <- GroupFeature_init base_name (PArr f_arr) 0 None;
          inr [f]
      | [_; ncols] =>
          process_array_columns base_name sample_array (fst f_arr) (snd f_arr) 0 ncols
      | _ => inl (ValueError _TOO_MANY_FEATURE_DIMS)
      end
  end.

(** [numpy.logical_and] of two masks. *)
Definition logical_and (a b : list bool) : list bool :=
  map (fun p => andb (fst p) (snd p)) (combine a b).

(** [MetricFrame._mask_from_tuple]: the conjunction of the masks of the
    classes named by the tuple, one per feature.  The two assertions of the
    source hold for every tuple drawn from the product of the classes of the
    features, which is the only place the tuples come from. *)
Definition _mask_from_tuple (index_tuple : key) (feature_list : list GroupFeature)
    : list bool :=
  match index_tuple, feature_list with
  | c0 :: cs, f0 :: fs =>
      fold_left (fun result cf => logical_and result (get_mask_for_class (snd cf) (fst cf)))
                (combine cs fs) (get_mask_for_class f0 c0)
  | _, _ => []
  end.

(** [sum(mask)]. *)
Definition mask_sum (mask : list bool) : nat := length (filter (fun b => b) mask).

(** ** The grouping engine *)

(** [itertools.product] over the classes, the last feature varying fastest. *)
Fixpoint cross_product (classes : list (list scalar)) : list key :=
  match classes with
  | [] => [[]]
  | c :: rest => flat_map (fun x => map (cons x) (cross_product rest)) c
  end.

(** The row index of a table over [rows]: a plain Index for one feature, a
    MultiIndex for several; a MultiIndex cannot have zero levels. *)
Definition row_index (rows : list GroupFeature) : res (list key) :=
  match rows with
  | [] => inl (ValueError "Must pass non-zero number of levels/codes")
  | _ => inr (cross_product (map gf_classes rows))
  end.

(** Whether [_compute_dataframe_from_rows] logs [_SUBGROUP_COUNT_WARNING] for
    a row index.  The message goes to the logger; the table and the calls of
    the metric functions are the same with and without it. *)
Definition warns_subgroup_count (index : list key) : bool :=
  Nat.ltb _SUBGROUP_COUNT_WARNING_THRESHOLD (length index).

(** One cell, the body of the inner loop of [_compute_dataframe_from_rows]:
    the metric is called only if the mask selects a sample; otherwise the cell
    stays as the empty table has it. *)
Definition compute_cell (fc : FunctionContainer) (y_true y_pred : pyval)
    (rows : list GroupFeature) (row_curr : key) : cell * list call :=
  let mask := _mask_from_tuple row_curr rows in
  if Nat.ltb 0 (mask_sum mask)
  then let r := evaluate fc y_true y_pred mask in (Some (fst r), [snd r])
  else (None, []).

Definition compute_column (fc : FunctionContainer) (y_true y_pred : pyval)
    (rows : list GroupFeature) (index : list key) : list cell * list call :=
  let cells := map (compute_cell fc y_true y_pred rows) index in
  (map fst cells, concat (map snd cells)).

(** [MetricFrame._compute_dataframe_from_rows].  The row labels are pairwise
    distinct, so the assignment [result[func_name][row_curr] = curr_metric]
    fills the cell of the current row and of the current function only. *)
Definition _compute_dataframe_from_rows (func_dict : list (string * FunctionContainer))
    (y_true y_pred : pyval) (rows : list GroupFeature)
    : res (DataFrame cell * list call) :=
  try index <- row_index rows;
  let cols := map (fun nf => (fst nf, compute_column (snd nf) y_true y_pred rows index))
                  func_dict in
  inr ({| df_names := map (fun f => Some (gf_name f)) rows;
          df_index := index;
          df_columns := map (fun c => (fst c, fst (snd c))) cols |},
       concat (map (fun c => snd (snd c)) cols)).

(** [MetricFrame._compute_overall]. *)
Definition _compute_overall (func_dict : list (string * FunctionContainer))
    (y_true y_pred : pyval) (cf_list : option (list GroupFeature))
    : res (pdobj cell * list call) :=
  match cf_list with
  | None =>
      let vals := map (fun nf => evaluate_all (snd nf) y_true y_pred) func_dict in
      inr (PdSeries {| s_names := [None];
                       s_index := map (fun nf => [SStr (fst nf)]) func_dict;
                       s_values := map (fun v => Some (fst v)) vals |},
           map snd vals)
  | Some cf =>
      try r <- _compute_dataframe_from_rows func_dict y_true y_pred cf;
      inr (PdFrame (fst r), snd r)
  end.

(** [MetricFrame._compute_by_group]: the control features come first. *)
Definition _compute_by_group (func_dict : list (string * FunctionContainer))
    (y_true y_pred : pyval) (sf_list : list GroupFeature)
    (cf_list : option (list GroupFeature)) : res (DataFrame cell * list call) :=
  let rows := match cf_list with
              | Some cf => cf ++ sf_list
              | None => sf_list
              end in
  _compute_dataframe_from_rows func_dict y_true y_pred rows.

(** The dict of containers that [_process_functions] builds and returns. *)
Definition build_func_dict (metric : metric_arg) (sample_params : pyval)
    : res (list (string * FunctionContainer)) :=
  match metric with
  | MDict d =>
      try s_p <- match sample_params with
                 | PNone => inr []
                 | PDict items =>
                     if forallb (fun kv => match fst kv with
                                           | SStr k => existsb (fun nf => String.eqb k (fst nf)) d
                                           | SInt _ => false
                                           end) items
                     then inr items
                     else inl (ValueError _SAMPLE_PARAM_KEYS_NOT_IN_FUNC_DICT)
                 | _ => inl (ValueError _SAMPLE_PARAMS_NOT_DICT)
                 end;
      fold_left (fun acc nf =>
                   try func_dict <- acc;
                   let curr_s_p := match dict_get (SStr (fst nf)) s_p with
                                   | Some v => v
                                   | None => PNone
                                   end in
                   try fc <- FunctionContainer_init (snd nf) (Some (fst nf)) curr_s_p;
                   inr (dict_set (name_ fc) fc func_dict))
                d (inr [])
  | MCallable f =>
      try fc <- FunctionContainer_init f None sample_params;
      inr [(name_ fc, fc)]
  end.

(** [isinstance(metric, dict)]. *)
Definition is_metric_dict (metric : metric_arg) : bool :=
  match metric with
  | MDict _ => true
  | MCallable _ => false
  end.

(** [MetricFrame._process_functions]: the flag [_user_supplied_callable] is
    assigned before anything can fail. *)
Definition _process_functions (metric : metric_arg) (sample_params : pyval)
    : M (list (string * FunctionContainer)) :=
  assign (set_user_supplied_callable (Some true)) ;;
  (if is_metric_dict metric then assign (set_user_supplied_callable (Some false))
   else ret tt) ;;
  lift (build_func_dict metric sample_params).

(** The first name that occurs twice in [namelist], if any. *)
Fixpoint first_duplicate (nameset namelist : list string) : option string :=
  match namelist with
  | [] => None
  | name :: rest =>
      if existsb (String.eqb name) nameset then Some name
      else first_duplicate (name :: nameset) rest
  end.

(** [MetricFrame._compute_metric]. *)
Definition _compute_metric (y_t y_p s_f c_f s_p : pyval) : M unit :=
  sf_list <- lift (_process_features "sensitive_feature_" s_f y_t) ;;
  assign (set_sf_names (Some (map gf_name sf_list))) ;;
  assign (set_cf_names None) ;;
  cf_list <- (if is_none c_f then ret None
              else cf <- lift (_process_features "control_feature_" c_f y_t) ;;
                   assign (set_cf_names (Some (map gf_name cf))) ;;
                   ret (Some cf)) ;;
  let namelist := map gf_name sf_list ++
                  match cf_list with
                  | Some cf => map gf_name cf
                  | None => []
                  end in
  match first_duplicate [] namelist with
  | Some name => raise (ValueError (_DUPLICATE_FEATURE_NAME name))
  | None =>
      m <- attr metric ;;
      fd <- _process_functions m s_p ;;
      assign (set_func_dict fd) ;;
      o <- lift (_compute_overall fd y_t y_p cf_list) ;;
      assign (log_calls (snd o)) ;;
      assign (set_overall (Some (fst o))) ;;
      g <- lift (_compute_by_group fd y_t y_p sf_list cf_list) ;;
      assign (log_calls (snd g)) ;;
      assign (set_by_group (Some (fst g)))
  end.

(** ** Construction and accumulation *)

(** [any(arg is None or len(arg) == 0 for arg in args)]. *)
Fixpoint any_missing (args : list pyval) : res bool :=
  match args with
  | [] => inr false
  | a :: rest =>
      if is_none a then inr true
      else try n <- py_len a;
           if Nat.eqb n 0 then inr true else any_missing rest
  end.

(** [v == []]. *)
Definition is_empty_list (v : pyval) : bool :=
  match v with
  | PList [] => true
  | _ => false
  end.

Definition unrun (r : res unit * MetricFrame) : res MetricFrame :=
  match r with
  | (inl e, _) => inl e
  | (inr _, s) => inr s
  end.

(** [MetricFrame.__init__]: the frame, or the exception that ends the
    construction. *)
Definition __init__ (metric : metric_arg) (y_true y_pred sensitive_features
    control_features sample_params : pyval) (streaming : bool) : res MetricFrame :=
  try missing <- any_missing [y_true; y_pred; sensitive_features];
  if missing && negb streaming then inl (ValueError _BAD_INIT_ERROR)
  else
    let self := {| _s_f := sensitive_features; _c_f := control_features;
                   _s_p := sample_params; _streaming := streaming;
                   metric := metric; _cf_names := None; _sf_names := None;
                   _y_true := PNone; _y_pred := PNone; _overall := None;
                   _by_group := None; func_dict := [];
                   _user_supplied_callable := None; calls := [] |} in
    if negb streaming then
      try _ <- check_consistent_length [y_true; y_pred];
      let y_t := _convert_to_ndarray_and_squeeze y_true in
      let y_p := _convert_to_ndarray_and_squeeze y_pred in
      unrun (_compute_metric y_t y_p sensitive_features control_features sample_params self)
    else
      let accumulators := [y_true; y_pred; sensitive_features] in
      let cf_validated := is_none control_features || is_empty_list control_features in
      if existsb (fun acc => negb (is_empty_list acc)) accumulators || negb cf_validated
      then inl (ValueError _NON_EMPTY_INIT_ERR)
      else inr (set_y_pred (PList []) (set_y_true (PList []) self)).

Definition dict_values (v : pyval) : res (list pyval) :=
  match v with
  | PDict items => inr (map snd items)
  | _ => inl (AttributeError "object has no attribute 'values'")
  end.

(** [self.attribute.append(x)]. *)
Definition append_to (get : MetricFrame -> pyval)
    (set : pyval -> MetricFrame -> MetricFrame) (x : pyval) : M unit :=
  buf <- attr get ;;
  buf' <- lift (py_append buf x) ;;
  assign (set buf').

(** [MetricFrame.add_data], statement by statement. *)
Definition add_data (y_true y_pred sensitive_features control_features
    sample_params : pyval) : M unit :=
  streaming <- attr _streaming ;;
  if negb streaming then raise (Exception _NOT_STREAMING_ERR)
  else
    lift (check_consistent_length [y_true; y_pred; sensitive_features]) ;;
    let y_t := _convert_to_ndarray_and_squeeze y_true in
    let y_p := _convert_to_ndarray_and_squeeze y_pred in
    append_to _y_true set_y_true y_t ;;
    append_to _y_pred set_y_pred y_p ;;
    append_to _s_f set_s_f sensitive_features ;;
    c_f <- attr _c_f ;;
    (if negb (is_none c_f) then
       lift (check_consistent_length [y_true; control_features]) ;;
       append_to _c_f set_c_f control_features
     else if negb (is_none control_features) then
       raise (ValueError _CF_BAD_STATE_ERR)
     else ret tt) ;;
    s_p <- attr _s_p ;;
    (if negb (is_none sample_params) then
       values <- lift (dict_values sample_params) ;;
       lift (check_consistent_length (y_true :: values)) ;;
       match s_p with
       | PNone => assign (set_s_p (PList [sample_params]))
       | PList _ => append_to _s_p set_s_p sample_params
       | _ => raise (ValueError _SP_ALREADY_SET_ERR)
       end
     else
       match s_p with
       | PList _ => raise (ValueError _SP_EXPECTED_ERR)
       | _ => ret tt
       end) ;;
    assign (set_overall None) ;;
    assign (set_by_group None).

(** ** Concatenation of the buffered batches *)

Definition list_items (v : pyval) : list pyval :=
  match v with
  | PList l => l
  | _ => []
  end.

Definition df_columns_of (v : pyval) : list (option scalar * list pyval) :=
  match v with
  | PDataFrame cols => cols
  | _ => []
  end.

Definition colname_eqb (a b : option scalar) : bool :=
  match a, b with
  | None, None => true
  | Some x, Some y => scalar_eqb x y
  | _, _ => false
  end.

(** [left.columns == right.columns]: an element-wise comparison, defined for
    indexes of one length. *)
Definition columns_eq (a b : list (option scalar * list pyval)) : res (list bool) :=
  if Nat.eqb (length a) (length b)
  then inr (map (fun p => colname_eqb (fst (fst p)) (fst (snd p))) (combine a b))
  else inl (ValueError "Lengths must match to compare").

(** [bool(arr)] of a boolean array: defined for at most one element. *)
Definition array_truth (arr : list bool) : res bool :=
  match arr with
  | [] => inr false
  | [b] => inr b
  | _ => inl (ValueError "The truth value of an array with more than one element is ambiguous.")
  end.

(** [all(arrs)]: stops at the first array that is not true. *)
Fixpoint all_truth (arrs : list (list bool)) : res bool :=
  match arrs with
  | [] => inr true
  | a :: rest =>
      try b <- array_truth a;
      if b then all_truth rest else inr false
  end.

Fixpoint column_values (n : option scalar) (cols : list (option scalar * list pyval))
    : list pyval :=
  match cols with
  | [] => []
  | (m, vals) :: cols' => if colname_eqb n m then vals else column_values n cols'
  end.

(** [pandas.concat] of tables that have the same columns: the rows of all
    tables, one table after the other. *)
Definition pd_concat (dfs : list (list (option scalar * list pyval)))
    : list (option scalar * list pyval) :=
  match dfs with
  | [] => []
  | first :: _ =>
      map (fun c => (fst c, concat (map (column_values (fst c)) dfs))) first
  end.

(** [batch[k]] on a batch that is a dict. *)
Definition batch_getitem (k : scalar) (batch : pyval) : res pyval :=
  match batch with
  | PDict items =>
      match dict_get k items with
      | Some v => inr v
      | None => inl (KeyError "key not found in batch")
      end
  | _ => inl (TypeError "object is not subscriptable")
  end.

(** [MetricFrame._concat_batches] on a non-empty list of batches, the first
    batch apart: the recursion on the values of a dict batch follows the
    structure of the first batch. *)
Fixpoint concat_from (first : pyval) (rest : list pyval) {struct first} : res pyval :=
  if negb (forallb (fun arr => pytype_eqb (type_of arr) (type_of first)) rest)
  then inl (ValueError _DIFFERENT_TYPES_ERR)
  else
    match first with
    | PArray _ _ =>
        try result <- np_concatenate (map asarray (first :: rest));
        inr (PArr result)
    | PList l => inr (PList (l ++ concat (map list_items rest)))
    | PDataFrame col_nums =>
        try cmps <- mapM (fun df => columns_eq col_nums (df_columns_of df)) (first :: rest);
        try same <- all_truth cmps;
        if same then inr (PDataFrame (pd_concat (col_nums :: map df_columns_of rest)))
        else inl (AssertionError "Need same columns")
    | PDict items =>
        try merged <-
          (fix per_key (its : list (scalar * pyval)) : res (list (scalar * pyval)) :=
             match its with
             | [] => inr []
             | (k, v) :: its' =>
                 try vs <- mapM (batch_getitem k) rest;
                 try r <- concat_from v vs;
                 try rs <- per_key its';
                 inr ((k, r) :: rs)
             end) items;
        inr (PDict merged)
    | _ => inl (ValueError _CANT_CONCATENATE_ERR)
    end.

(** [MetricFrame._concat_batches]. *)
Definition _concat_batches (batches : pyval) : res pyval :=
  match batches with
  | PList [] => inl (ValueError _EMPTY_BATCHES_ERR)
  | PList (first :: rest) => concat_from first rest
  | _ => inl (TypeError "batches must be a list")
  end.

(** [MetricFrame._compute_streaming_metric]. *)
Definition _compute_streaming_metric : M unit :=
  s_p <- attr _s_p ;;
  let metric_s_p := match s_p with
                    | PDict _ | PNone => true
                    | _ => false
                    end in
  y_t <- (b <- attr _y_true ;; lift (_concat_batches b)) ;;
  y_p <- (b <- attr _y_pred ;; lift (_concat_batches b)) ;;
  s_f <- (b <- attr _s_f ;; lift (_concat_batches b)) ;;
  c_f <- (b <- attr _c_f ;;
          if py_truthy b then lift (_concat_batches b) else ret PNone) ;;
  sp <- (if metric_s_p then ret s_p else lift (_concat_batches s_p)) ;;
  _compute_metric y_t y_p s_f c_f sp.

(** ** Reads *)

Definition _NONE_HAS_NO_ATTR := "'NoneType' object has no attribute".
Definition _NO_SUCH_ATTR := "'MetricFrame' object has no attribute".

(** The value of an attribute that holds a table. *)
Definition table {A} (f : MetricFrame -> option A) : M A :=
  v <- attr f ;;
  match v with
  | Some a => ret a
  | None => raise (AttributeError _NONE_HAS_NO_ATTR)
  end.

Definition user_supplied_callable : M bool :=
  v <- attr _user_supplied_callable ;;
  match v with
  | Some b => ret b
  | None => raise (AttributeError _NO_SUCH_ATTR)
  end.

(** [if self._overall is None: self._compute_streaming_metric()]. *)
Definition ensure {A} (cache : MetricFrame -> option A) : M unit :=
  v <- attr cache ;;
  match v with
  | None => _compute_streaming_metric
  | Some _ => ret tt
  end.

(** The [control_levels] property. *)
Definition control_levels : M (option (list string)) :=
  ensure _overall ;;
  attr _cf_names.

(** The [sensitive_levels] property. *)
Definition sensitive_levels : M (option (list string)) :=
  ensure _sf_names ;;
  attr _sf_names.

(** Truth value of a list of names or [None]. *)
Definition names_truthy (names : option (list string)) : bool :=
  match names with
  | Some (_ :: _) => true
  | _ => false
  end.

Definition names_list (names : option (list string)) : list string :=
  match names with
  | Some l => l
  | None => []
  end.

(** The collapse of the function-name axis that ends [overall], [group_max]
    and [group_min]. *)
Definition collapse (result : pdobj cell) : M (pdobj cell) :=
  usc <- user_supplied_callable ;;
  if usc then
    cl <- control_levels ;;
    if names_truthy cl then
      match result with
      | PdFrame d => s <- lift (iloc_col0 d) ;; ret (PdSeries s)
      | _ => raise (IndexError "Too many indexers")
      end
    else
      match result with
      | PdSeries s => c <- lift (iloc0 s) ;; ret (PdScalar c)
      | PdFrame d =>
          raise (TypeError "a row of a DataFrame is not a value")
      | PdScalar _ => raise (AttributeError "'float' object has no attribute 'iloc'")
      end
  else ret result.

(** The [overall] property. *)
Definition overall : M (pdobj cell) :=
  ensure _overall ;;
  o <- table _overall ;;
  collapse o.

(** The [by_group] property. *)
Definition by_group : M (pdobj cell) :=
  ensure _by_group ;;
  usc <- user_supplied_callable ;;
  g <- table _by_group ;;
  if usc then s <- lift (iloc_col0 g) ;; ret (PdSeries s)
  else ret (PdFrame g).

(** ** Aggregation *)

(** The body shared by [group_max] and [group_min], which differ in the
    reduction only. *)
Definition group_agg (agg : list cell -> cell) : M (pdobj cell) :=
  ensure _by_group ;;
  cl <- control_levels ;;
  result <- (if negb (names_truthy cl) then
               g <- table _by_group ;;
               ret (PdSeries (df_reduce agg g))
             else
               g <- table _by_group ;;
               levels <- control_levels ;;
               ret (PdFrame (df_groupby agg true (names_list levels) g))) ;;
  collapse result.

(** [MetricFrame.group_max]. *)
Definition group_max : M (pdobj cell) := group_agg col_max.

(** [MetricFrame.group_min]. *)
Definition group_min : M (pdobj cell) := group_agg col_min.

(** [MetricFrame.difference]. *)
Definition difference (method : string) : M (pdobj cell) :=
  ensure _overall ;;
  subtrahend <- (if String.eqb method "between_groups" then group_min
                 else if String.eqb method "to_overall" then overall
                 else raise (ValueError "Unrecognised method in difference() call")) ;;
  g <- by_group ;;
  cl <- control_levels ;;
  ret (reduce_level col_max cl (pd_map cell_abs (pd_binop cell_sub None g subtrahend))).

(** [MetricFrame.ratio] for [method='between_groups']: the statements the
    method executes for this value of [method], [group_min()] evaluated
    before [group_max()].  The division is that of the values in the cells,
    which the metric functions of [func_dict] returned and, with control
    levels, [groupby] handed on as [pandas] says.  In Python each cell's
    object knows how it divides; here the three reads after the two calls
    tell it, and they leave the frame as it is. *)
Definition ratio_between_groups (pandas : grouped_cells) : M (pdobj fcell) :=
  ensure _by_group ;;
  lo <- group_min ;;
  hi <- group_max ;;
  fd <- attr func_dict ;;
  usc <- user_supplied_callable ;;
  cl <- control_levels ;;
  lift (pd_truediv pandas (names_truthy cl) fd usc lo hi).

(** ** Failures of the length check, dict batches *)

(** The two ways [check_consistent_length] fails. *)
Definition length_error (e : exn) : Prop :=
  (exists msg, e = TypeError msg) \/ e = ValueError _INCONSISTENT_LENGTH.

Definition is_dict (v : pyval) : bool := pytype_eqb (type_of v) TDict.

(** What the claim describes for one key [k] of the first batch: fetch
    [batch[k]] from every batch and concatenate these values. *)
Definition merge_key (rest : list pyval) (kv : scalar * pyval) : res (scalar * pyval) :=
  try vs <- mapM (batch_getitem (fst kv)) rest;
  try r <- _concat_batches (PList (snd kv :: vs));
  inr (fst kv, r).

(** ** The computation behind every read *)

(** What a run of [_compute_metric] derives from its arguments. *)
Record computation : Type := {
  c_sf_list : list GroupFeature;
  c_cf_list : option (list GroupFeature);
  c_func_dict : list (string * FunctionContainer);
  c_overall : pdobj cell;
  c_overall_calls : list call;
  c_by_group : DataFrame cell;
  c_by_group_calls : list call
}.

(** The names of all features, sensitive features first. *)
Definition namelist_of (sf_list : list GroupFeature) (cf_list : option (list GroupFeature))
    : list string :=
  map gf_name sf_list ++ match cf_list with
                         | Some cf => map gf_name cf
                         | None => []
                         end.

(** [_compute_metric] without the frame: the tables, or the first error. *)
Definition compute (m : metric_arg) (y_t y_p s_f c_f s_p : pyval) : res computation :=
  try sf_list <- _process_features "sensitive_feature_" s_f y_t;
  try cf_list <- (if is_none c_f then inr None
                  else try cf <- _process_features "control_feature_" c_f y_t;
                       inr (Some cf));
  match first_duplicate [] (namelist_of sf_list cf_list) with
  | Some name => inl (ValueError (_DUPLICATE_FEATURE_NAME name))
  | None =>
      try fd <- build_func_dict m s_p;
      try o <- _compute_overall fd y_t y_p cf_list;
      try g <- _compute_by_group fd y_t y_p sf_list cf_list;
      inr {| c_sf_list := sf_list; c_cf_list := cf_list; c_func_dict := fd;
             c_overall := fst o; c_overall_calls := snd o;
             c_by_group := fst g; c_by_group_calls := snd g |}
  end.

(** The frame after a run of [_compute_metric] that derived [c]. *)
Definition install (c : computation) (s : MetricFrame) : MetricFrame :=
  {| _s_f := _s_f s; _c_f := _c_f s; _s_p := _s_p s; _streaming := _streaming s;
     metric := metric s;
     _cf_names := option_map (map gf_name) (c_cf_list c);
     _sf_names := Some (map gf_name (c_sf_list c));
     _y_true := _y_true s; _y_pred := _y_pred s;
     _overall := Some (c_overall c);
     _by_group := Some (c_by_group c);
     func_dict := c_func_dict c;
     _user_supplied_callable := Some (negb (is_metric_dict (metric s)));
     calls := (calls s ++ c_overall_calls c) ++ c_by_group_calls c |}.

(** A frame whose caches hold the outcome of a run of [_compute_metric]. *)
Definition Computed (mf : MetricFrame) : Prop :=
  exists s y_t y_p s_f c_f s_p c,
    compute (metric s) y_t y_p s_f c_f s_p = inr c /\ mf = install c s.

(** The statements of [overall] after the test of the cache. *)
Definition overall_cached : M (pdobj cell) :=
  o <- table _overall ;; collapse o.

(** The value that ends [overall], [group_max] and [group_min]. *)
Definition collapse_value (usc : bool) (cfn : option (list string)) (result : pdobj cell)
    : res (pdobj cell) :=
  if usc then
    if names_truthy cfn then
      match result with
      | PdFrame d => try s <- iloc_col0 d; inr (PdSeries s)
      | _ => inl (IndexError "Too many indexers")
      end
    else
      match result with
      | PdSeries s => try c <- iloc0 s; inr (PdScalar c)
      | PdFrame d => inl (TypeError "a row of a DataFrame is not a value")
      | PdScalar _ => inl (AttributeError "'float' object has no attribute 'iloc'")
      end
  else inr result.

(** What the aggregation reads rely on in a computed frame. *)
Record Shape (mf : MetricFrame) (g : DataFrame cell) (usc : bool) : Prop := {
  sh_overall : exists o, _overall mf = Some o;
  sh_by_group : _by_group mf = Some g;
  sh_usc : _user_supplied_callable mf = Some usc;
  sh_levels : names_truthy (_cf_names mf) = false -> _cf_names mf = None;
  sh_columns : NoDup (map fst (df_columns g));
  sh_lengths : forall c, In c (df_columns g) -> length (snd c) = length (df_index g);
  sh_single : usc = true -> exists n col, df_columns g = [(n, col)];
  sh_project : forall levels,
      _cf_names mf = Some levels ->
      names_eqb (df_names g) (map Some levels) = true ->
      forall k, In k (df_index g) -> project (df_names g) levels k = k
}.

Definition first_col {C} (g : DataFrame C) : list C :=
  match df_columns g with
  | (_, vals) :: _ => vals
  | [] => []
  end.

(** The value [by_group] returns on a computed frame. *)
Definition by_group_value (g : DataFrame cell) (usc : bool) : pdobj cell :=
  if usc
  then PdSeries {| s_names := df_names g; s_index := df_index g; s_values := first_col g |}
  else PdFrame g.

(** The value [group_max] and [group_min] return on a computed frame. *)
Definition group_value (agg : list cell -> cell) (g : DataFrame cell)
    (cfn : option (list string)) (usc : bool) : pdobj cell :=
  match cfn with
  | None => if usc then PdScalar (agg (first_col g)) else PdSeries (df_reduce agg g)
  | Some levels =>
      if usc
      then PdSeries {| s_names := map Some levels;
                       s_index := groupby_index true levels (df_names g) (df_index g);
                       s_values := groupby_level agg true levels (df_names g) (df_index g)
                                                 (first_col g) |}
      else PdFrame (df_groupby agg true levels g)
  end.

(** The value [difference('between_groups')] returns on a computed frame. *)
Definition difference_value (g : DataFrame cell) (cfn : option (list string))
    (usc : bool) : pdobj cell :=
  reduce_level col_max cfn
    (pd_map cell_abs
       (pd_binop cell_sub None (by_group_value g usc) (group_value col_min g cfn usc))).

(** ** Cells of a result *)

Definition is_present (c : cell) : bool :=
  match c with
  | Some _ => true
  | None => false
  end.

(** The present values of a column. *)
Definition values (l : list cell) : list Q :=
  flat_map (fun c : cell => match c with Some x => [x] | None => [] end) l.

(** The cell of a table under a row label and a column name. *)
Definition frame_get {C} (d : DataFrame C) (k : key) (name : string) : option C :=
  match str_get name (df_columns d) with
  | Some vals => lookup_key k (df_index d) vals
  | None => None
  end.

(** The table without the rows labelled [row]. *)
Definition drop_row {C} (row : key) (d : DataFrame C) : DataFrame C :=
  {| df_names := df_names d;
     df_index := filter (fun k => negb (key_eqb row k)) (df_index d);
     df_columns :=
       map (fun c => (fst c,
              map snd (filter (fun kv => negb (key_eqb row (fst kv)))
                              (combine (df_index d) (snd c)))))
           (df_columns d) |}.

(** The cells of a column that remain without the rows labelled [row]. *)
Definition without_row {C} (row : key) (idx : list key) (vals : list C) : list C :=
  map snd (filter (fun kv => negb (key_eqb row (fst kv))) (combine idx vals)).

(** The cell of a result under a row label and a function name: a bare value
    is its only cell; a Series has one cell per label. *)
Definition pd_get {C} (o : pdobj C) (k : key) (name : string) : option C :=
  match o with
  | PdScalar c => Some c
  | PdSeries s => lookup_key k (s_index s) (s_values s)
  | PdFrame d => frame_get d k name
  end.

(** [op] applied to two cells that are both there. *)
Definition cells2 {A B} (op : A -> A -> B) (a b : option A) : option B :=
  match a, b with
  | Some x, Some y => Some (op x y)
  | _, _ => None
  end.

(** The rows of [by_group - group_min()], in absolute value, for one column
    [col] of a table with the row labels [idx]. *)
Definition distances (names : list (option string)) (levels : list string)
    (idx : list key) (col : list cell) : list cell :=
  let pk := map (project names levels) idx in
  map cell_abs
    (map (fun kv => cell_sub (snd kv)
            (aligned None names (map Some levels) (group_keys true pk)
               (map (fun x => col_min (rows_of_group pk col x)) (group_keys true pk))
               (fst kv)))
         (combine idx col)).

(** ** A dataset given in batches *)

(** The streaming frame as its construction leaves it. *)
Definition new_stream (m : metric_arg) (control_features sample_params : pyval)
    : MetricFrame :=
  {| _s_f := PList []; _c_f := control_features; _s_p := sample_params;
     _streaming := true; metric := m; _cf_names := None; _sf_names := None;
     _y_true := PList []; _y_pred := PList []; _overall := None;
     _by_group := None; func_dict := [];
     _user_supplied_callable := None; calls := [] |}.

(** The object [__init__] starts from when [streaming=False]. *)
Definition blank (m : metric_arg) (sensitive_features control_features sample_params : pyval)
    : MetricFrame :=
  {| _s_f := sensitive_features; _c_f := control_features; _s_p := sample_params;
     _streaming := false; metric := m; _cf_names := None; _sf_names := None;
     _y_true := PNone; _y_pred := PNone; _overall := None; _by_group := None;
     func_dict := []; _user_supplied_callable := None; calls := [] |}.

(** One batch of a dataset given as Python lists: labels, predictions,
    sensitive features and control features, one entry per sample, and the
    sample parameters of the batch, a list of values per parameter name. *)
Record batch : Type := {
  b_y_true : list pyval;
  b_y_pred : list pyval;
  b_sf : list pyval;
  b_cf : list pyval;
  b_sp : list (scalar * list pyval)
}.

















(** ** Outcomes of runs *)

(** The outcome of a method on a frame that may have failed to be built. *)
Definition run {A} (m : M A) (r : res MetricFrame) : res A :=
  match r with
  | inl e => inl e
  | inr s => fst (m s)
  end.

(** The frame of a construction that succeeds. *)
Definition built (r : res MetricFrame) : MetricFrame :=
  match r with
  | inr s => s
  | inl _ => new_stream (MDict []) PNone PNone
  end.

(** ** Subgroups and the cells of a table *)

(** The row label of sample [i]: its class in every feature of [rows]. *)
Definition sample_key (rows : list GroupFeature) (i : nat) : key :=
  map (fun f => nth i (gf_values f) (SStr "")) rows.

(** A feature over [n] samples as the encoder leaves it: one value per
    sample, the classes being the distinct values in increasing order. *)
Definition encodes (n : nat) (f : GroupFeature) : Prop :=
  gf_classes f = sort_uniq scalar_leb scalar_eqb (gf_values f) /\
  length (gf_values f) = n.


(** Whether a string ends in a NUL character, which a numpy array of strings
    does not keep. *)
Fixpoint ends_in_nul (s : string) : bool :=
  match s with
  | EmptyString => false
  | String c EmptyString => Ascii.eqb c Ascii.zero
  | String _ s' => ends_in_nul s'
  end.

(** Labels that [numpy.asarray] stores as they are: integers of the 64-bit
    range, which make an array of [int64] (larger ones are turned into floats
    or objects), or strings that do not end in a NUL character. *)
Definition labels_numpy_keeps (l : list pyval) : Prop :=
  Forall (fun v => exists z, v = PI z /\ (- 2 ^ 63 <= z < 2 ^ 63)%Z) l \/
  Forall (fun v => exists s, v = PS s /\ ends_in_nul s = false) l.

(** The rows of [by_group]: control features first. *)
Definition by_group_rows (c : computation) : list GroupFeature :=
  match c_cf_list c with
  | Some cf => cf ++ c_sf_list c
  | None => c_sf_list c
  end.

(** The cell of a table for one metric function and one mask: what the
    container returns for the samples the mask selects, absent when the mask
    selects no sample. *)
Definition metric_on (fc : FunctionContainer) (y_true y_pred : pyval) (mask : list bool)
    : cell :=
  if Nat.ltb 0 (mask_sum mask)
  then Some (fst (evaluate fc y_true y_pred mask))
  else None.

(** A cell that is absent or holds a value that is not negative. *)
Definition nonneg (c : cell) : Prop :=
  match c with
  | Some q => (0 <= q)%Q
  | None => True
  end.

(** The cells of [by_group] that [group_max] and [group_min] reduce for
    the result cell under label [k] and function [name]. *)
Definition group_cells (g : DataFrame cell) (cfn : option (list string)) (usc : bool)
    (k : key) (name : string) : option (list cell) :=
  match cfn with
  | None =>
      if usc then Some (first_col g)
      else lookup_key k (map (fun c => [SStr (fst c)]) (df_columns g))
                      (map snd (df_columns g))
  | Some levels =>
      let pk := map (project (df_names g) levels) (df_index g) in
      let gidx := group_keys true pk in
      if usc
      then lookup_key k gidx (map (rows_of_group pk (first_col g)) gidx)
      else match str_get name (df_columns g) with
           | Some vals => lookup_key k gidx (map (rows_of_group pk vals) gidx)
           | None => None
           end
  end.

(** ** Kinds of results *)

(** The three kinds of result the docstring of [overall] lists. *)
Inductive kind : Type := KValue | KSeries | KFrame.

(** The kind of a result. *)
Definition kind_of {C} (o : pdobj C) : kind :=
  match o with
  | PdScalar _ => KValue
  | PdSeries _ => KSeries
  | PdFrame _ => KFrame
  end.

(** The table in the docstring of [overall]: the kind of result by the kind
    of metric argument (a callable or a dict) and the presence of control
    features. *)
Definition documented_kind (metric_is_dict has_control : bool) : kind :=
  match metric_is_dict, has_control with
  | false, false => KValue
  | false, true => KSeries
  | true, false => KSeries
  | true, true => KFrame
  end.

(** ** Steps of the buffers *)

(** The outcome of a read that finds no batch in the buffers. *)
Definition no_data {A} (s : MetricFrame) : res A * MetricFrame :=
  (inl (ValueError _EMPTY_BATCHES_ERR), s).



(** The sample parameters filed under the name of one metric function. *)
Definition params_for (name : string) (sample_params : pyval) : pyval :=
  match sample_params with
  | PDict items =>
      match dict_get (SStr name) items with
      | Some v => v
      | None => PNone
      end
  | _ => PNone
  end.




(** ** Sample data for the concrete runs *)

Definition py_eqb (a b : pyval) : bool :=
  match a, b with
  | PScalar x, PScalar y => scalar_eqb x y
  | _, _ => false
  end.

(** A metric in the style of [sklearn.metrics.accuracy_score]: the fraction
    of predictions that equal the label, a Python [float]. *)
Definition accuracy_score : callable :=
  {| fn_name := "accuracy_score";
     fn_call := fun y_true y_pred _ =>
       let t := snd (asarray y_true) in
       let p := snd (asarray y_pred) in
       Qmake (Z.of_nat (length (filter (fun tp => py_eqb (fst tp) (snd tp)) (combine t p))))
             (Pos.of_nat (length t));
     fn_returns_numpy := false |}.

(** [MetricFrame(accuracy_score, [], [], sensitive_features=[],
    control_features=control_features, streaming=True)]. *)
Definition empty_stream (control_features : pyval) : res MetricFrame :=
  __init__ (MCallable accuracy_score) (PList []) (PList []) (PList [])
           control_features PNone true.

(** The streaming frame after the two batches
    [([0, 1], [0, 1], ['a', 'a'])] and [([0, 1], [1, 1], ['b', 'b'])]. *)
Definition two_batches : MetricFrame :=
  snd (add_data (PList [PI 0; PI 1]) (PList [PI 1; PI 1]) (PList [PS "b"; PS "b"])
                PNone PNone
        (snd (add_data (PList [PI 0; PI 1]) (PList [PI 0; PI 1]) (PList [PS "a"; PS "a"])
                       PNone PNone
                (new_stream (MCallable accuracy_score) PNone PNone)))).

(** Two features over three samples; no sample is in class [b] of the first
    and class [y] of the second. *)
Definition sample_rows : list GroupFeature :=
  [ {| gf_name := "sensitive_feature_0";
       gf_classes := [SStr "a"; SStr "b"];
       gf_values := [SStr "a"; SStr "a"; SStr "b"] |};
    {| gf_name := "sensitive_feature_1";
       gf_classes := [SStr "x"; SStr "y"];
       gf_values := [SStr "x"; SStr "y"; SStr "x"] |} ].

(** [MetricFrame({'acc': accuracy_score}, [0, 1, 1, 1, 1, 0], [0, 0, 1, 1, 1, 1],
    sensitive_features=['a', 'a', 'b', 'b', 'a', 'b'],
    control_features=['x', 'x', 'x', 'y', 'y', 'y'])]. *)
Definition stratified : MetricFrame :=
  built (__init__ (MDict [("acc", accuracy_score)])
           (PList [PI 0; PI 1; PI 1; PI 1; PI 1; PI 0])
           (PList [PI 0; PI 0; PI 1; PI 1; PI 1; PI 1])
           (PList [PS "a"; PS "a"; PS "b"; PS "b"; PS "a"; PS "b"])
           (PList [PS "x"; PS "x"; PS "x"; PS "y"; PS "y"; PS "y"])
           PNone false).

(** The features the encoder makes of [six_groups] and [six_strata]. *)
Definition six_groups_feature : GroupFeature :=
  {| gf_name := "sensitive_feature_0";
     gf_classes := [SStr "a"; SStr "b"];
     gf_values := [SStr "a"; SStr "a"; SStr "b"; SStr "b"; SStr "a"; SStr "b"] |}.
Definition six_strata_feature : GroupFeature :=
  {| gf_name := "control_feature_0";
     gf_classes := [SStr "x"; SStr "y"];
     gf_values := [SStr "x"; SStr "x"; SStr "x"; SStr "y"; SStr "y"; SStr "y"] |}.

(** [MetricFrame(accuracy_score, [0, 1, 0], [0, 1, 1],
    sensitive_features=['a', 'a', 'b'], control_features=['x', 'y', 'x'])]:
    no sample has the control class ['y'] and the sensitive class ['b']. *)
Definition gapped : MetricFrame :=
  built (__init__ (MCallable accuracy_score) (PList [PI 0; PI 1; PI 0])
           (PList [PI 0; PI 1; PI 1]) (PList [PS "a"; PS "a"; PS "b"])
           (PList [PS "x"; PS "y"; PS "x"]) PNone false).
Definition gapped_groups_feature : GroupFeature :=
  {| gf_name := "sensitive_feature_0";
     gf_classes := [SStr "a"; SStr "b"];
     gf_values := [SStr "a"; SStr "a"; SStr "b"] |}.
Definition gapped_strata_feature : GroupFeature :=
  {| gf_name := "control_feature_0";
     gf_classes := [SStr "x"; SStr "y"];
     gf_values := [SStr "x"; SStr "y"; SStr "x"] |}.

(** [MetricFrame(accuracy_score, [0, 1], [1, 0], sensitive_features=['a', 'b'])]:
    no prediction is right, the accuracy of both groups is zero. *)
Definition all_wrong : MetricFrame :=
  built (__init__ (MCallable accuracy_score) (PList [PI 0; PI 1]) (PList [PI 1; PI 0])
           (PList [PS "a"; PS "b"]) PNone PNone false).


(** A metric that uses its [sample_weight]: the weight of the correct
    predictions over the weight of all, in hundredths. *)
Definition weighted_accuracy : callable :=
  {| fn_name := "weighted_accuracy";
     fn_call := fun y_true y_pred params =>
       let t := snd (asarray y_true) in
       let p := snd (asarray y_pred) in
       let w := match dict_get (SStr "sample_weight") params with
                | Some a => map (fun v => match v with PScalar (SInt z) => z | _ => 0%Z end)
                                (snd (asarray a))
                | None => map (fun _ => 1%Z) t
                end in
       let hit := map (fun tpw => if py_eqb (fst (fst tpw)) (snd (fst tpw))
                                  then snd tpw else 0%Z)
                      (combine (combine t p) w) in
       Qmake (fold_right Z.add 0%Z hit)
             (Z.to_pos (fold_right Z.add 0%Z w));
     fn_returns_numpy := false |}.

(** Six samples: labels, predictions, a sensitive and a control feature. *)
Definition six_labels : pyval := PList [PI 0; PI 1; PI 1; PI 1; PI 1; PI 0].
Definition six_predictions : pyval := PList [PI 0; PI 0; PI 1; PI 1; PI 1; PI 1].
Definition six_groups : pyval := PList [PS "a"; PS "a"; PS "b"; PS "b"; PS "a"; PS "b"].
Definition six_strata : pyval := PList [PS "x"; PS "x"; PS "x"; PS "y"; PS "y"; PS "y"].

(** A table of two named columns over two samples. *)
Definition two_columns : pyval :=
  PDataFrame [(Some (SStr "sex"), [PS "f"; PS "m"]); (Some (SStr "race"), [PS "a"; PS "b"])].

(** Two metric functions, the second with sample parameters of its own. *)
Definition two_metrics : list (string * callable) :=
  [("acc", accuracy_score); ("wacc", weighted_accuracy)].
Definition params_of_second : pyval :=
  PDict [(SStr "wacc", PDict [(SStr "sample_weight", PList [PI 1; PI 2])])].

(** * Properties *)

(** ** Equality tests *)

Lemma scalar_eqb_spec a b : reflect (a = b) (scalar_eqb a b).
Proof.
  destruct a as [x|x], b as [y|y]; simpl; try (constructor; congruence).
  - destruct (Z.eqb_spec x y); constructor; congruence.
  - destruct (String.eqb_spec x y); constructor; congruence.
Qed.

Lemma scalar_eqb_refl a : scalar_eqb a a = true.
Proof. destruct (scalar_eqb_spec a a); congruence. Qed.

Lemma pytype_eqb_spec a b : reflect (a = b) (pytype_eqb a b).
Proof. destruct a, b; simpl; constructor; congruence. Qed.


Lemma key_eqb_spec a b : reflect (a = b) (key_eqb a b).
Proof.
  revert b; induction a as [|x a IH]; intros [|y b]; simpl;
    try (constructor; congruence).
  destruct (scalar_eqb_spec x y); simpl; [|constructor; congruence].
  destruct (IH b); constructor; congruence.
Qed.

Lemma key_eqb_refl a : key_eqb a a = true.
Proof. destruct (key_eqb_spec a a); congruence. Qed.

(** ** Generic facts *)

Section SortUniqFacts.
Context {A : Type} (leb eqb : A -> A -> bool).
Hypothesis eqb_spec : forall a b, reflect (a = b) (eqb a b).

Lemma insert_uniq_In x l y : In y (insert_uniq leb eqb x l) <-> y = x \/ In y l.
Proof.
  induction l as [|z l IH]; simpl.
  - intuition.
  - destruct (eqb_spec x z) as [->|Hne].
    + simpl; intuition.
    + destruct (leb x z); simpl; [intuition|].
      rewrite IH; intuition.
Qed.

Lemma sort_uniq_In l y : In y (sort_uniq leb eqb l) <-> In y l.
Proof.
  induction l as [|x l IH]; simpl; [tauto|].
  rewrite insert_uniq_In, IH; intuition.
Qed.

Lemma first_seen_In l y : In y (first_seen eqb l) <-> In y l.
Proof.
  induction l as [|x l IH]; simpl; [tauto|].
  rewrite filter_In, IH.
  destruct (eqb_spec x y) as [->|Hne]; simpl; intuition congruence.
Qed.
End SortUniqFacts.

Lemma mapM_error {A B} (f : A -> res B) (P : exn -> Prop) :
  (forall a e, f a = inl e -> P e) ->
  forall l e, mapM f l = inl e -> P e.
Proof.
  intros Hf; induction l as [|a l IH]; intros e; simpl; [discriminate|].
  destruct (f a) as [e1|b] eqn:Ea; simpl.
  - intros [= <-]; eauto.
  - destruct (mapM f l) as [e2|bs]; simpl; [|discriminate].
    intros [= <-]; eauto.
Qed.


Lemma check_consistent_length_error arrays e :
  check_consistent_length arrays = inl e -> length_error e.
Proof.
  unfold check_consistent_length.
  destruct (mapM _ _) as [e1|lengths] eqn:Em; simpl.
  - intros [= <-]; left.
    eapply (mapM_error _num_samples (fun e => exists msg, e = TypeError msg));
      [|exact Em].
    intros a e0; unfold _num_samples; destruct (py_len a); [|discriminate].
    intros [= <-]; eauto.
  - destruct (all_equal_nat lengths); [discriminate|].
    intros [= <-]; now right.
Qed.

Lemma as_label_error l e :
  mapM as_label l = inl e -> exists msg, e = TypeError msg.
Proof.
  apply (mapM_error as_label (fun e => exists msg, e = TypeError msg)).
  intros [] e0; simpl; try discriminate; intros [= <-]; eauto.
Qed.

(** ** Lists of features (C6) *)

Lemma process_features_list_scalar_first base first rest sample_array e :
  isscalar first = true ->
  _process_features base (PList (first :: rest)) sample_array = inl e ->
  e <> ValueError _FEATURE_LIST_NONSCALAR.
Proof.
  intros Hs; cbn [_process_features]; rewrite Hs.
  destruct (negb _); [intros [= <-]; discriminate|].
  destruct (check_consistent_length _) as [e1|[]] eqn:Ec; cbn [rbind].
  - intros [= <-]. destruct (check_consistent_length_error _ _ Ec) as [[m ->]| ->];
      discriminate.
  - unfold GroupFeature_init.
    destruct (mapM as_label _) as [e2|vals] eqn:El; cbn [rbind].
    + intros [= <-]. destruct (as_label_error _ _ El) as [m ->]; discriminate.
    + unfold PArr; cbn [rbind]; discriminate.
Qed.

(** C6, as the code has it: a Python list given as a feature is rejected with
    "Feature lists must be of scalar types" exactly when its first element is
    not a scalar; the elements after the first are not examined. *)
Theorem nonscalar_list_rejected_iff_first base first rest sample_array :
  _process_features base (PList (first :: rest)) sample_array
    = inl (ValueError _FEATURE_LIST_NONSCALAR)
  <-> isscalar first = false.
Proof.
  split.
  - intros H. destruct (isscalar first) eqn:Hs; [|reflexivity].
    exfalso. now apply (process_features_list_scalar_first _ _ _ _ _ Hs H).
  - intros Hs; cbn [_process_features]; now rewrite Hs.
Qed.

Lemma nonscalar_list_rejected_iff_first_witness :
  _process_features "sensitive_feature_"
    (PList [PList [PS "a"; PS "b"]; PS "c"]) (PArray [2] [PI 0; PI 1])
  = inl (ValueError _FEATURE_LIST_NONSCALAR).
Proof.
  apply (nonscalar_list_rejected_iff_first "sensitive_feature_"
           (PList [PS "a"; PS "b"]) [PS "c"] (PArray [2] [PI 0; PI 1])).
  reflexivity.
Defined.

(** C6 as stated fails: the list [['a', ['b', 'c']]] holds a non-scalar
    element, yet it passes the scalar check and is handed on to the feature
    encoder; the error it ends with is not the one for non-scalar lists. *)
Lemma nonscalar_later_element_not_rejected :
  let features := PList [PS "a"; PList [PS "b"; PS "c"]] in
  existsb (fun x => negb (isscalar x)) (list_items features) = true /\
  _process_features "sensitive_feature_" features (PArray [2] [PI 0; PI 1])
    <> inl (ValueError _FEATURE_LIST_NONSCALAR).
Proof.
  split; [reflexivity|]. vm_compute. discriminate.
Qed.

(** ** Concatenation of dict batches (C9) *)

Lemma mapM_ext_in {A B} (f g : A -> res B) l :
  (forall a, In a l -> f a = g a) -> mapM f l = mapM g l.
Proof.
  induction l as [|a l IH]; intros H; simpl; [reflexivity|].
  rewrite (H a (or_introl eq_refl)), IH; [reflexivity|].
  intros; apply H; now right.
Qed.

Lemma mapM_fst {A K V} (f : A -> res (K * V)) (key_of : A -> K) l out :
  (forall a kv, f a = inr kv -> fst kv = key_of a) ->
  mapM f l = inr out -> map fst out = map key_of l.
Proof.
  intros Hf; revert out; induction l as [|a l IH]; intros out; simpl.
  - intros [= <-]; reflexivity.
  - destruct (f a) as [|kv] eqn:Ea; simpl; [discriminate|].
    destruct (mapM f l) as [|kvs]; simpl; [discriminate|].
    intros [= <-]; simpl. now rewrite (Hf _ _ Ea), (IH _ eq_refl).
Qed.

Lemma concat_from_dict items rest :
  concat_from (PDict items) rest =
  if forallb is_dict rest
  then try merged <- mapM (merge_key rest) items; inr (PDict merged)
  else inl (ValueError _DIFFERENT_TYPES_ERR).
Proof.
  cbn [concat_from type_of]. fold is_dict.
  replace (forallb (fun arr => pytype_eqb (type_of arr) TDict) rest)
    with (forallb is_dict rest) by reflexivity.
  destruct (forallb is_dict rest); cbn [negb]; [|reflexivity].
  f_equal.
  induction items as [|[k v] items IH]; [reflexivity|].
  cbn [mapM]. unfold merge_key at 1; cbn [fst snd _concat_batches].
  destruct (mapM (batch_getitem k) rest) as [e|vs]; cbn [rbind]; [reflexivity|].
  destruct (concat_from v vs) as [e|r]; cbn [rbind]; [reflexivity|].
  rewrite IH. reflexivity.
Qed.

Lemma dict_get_app_other {V} (k k' : scalar) (v' : V) d :
  scalar_eqb k k' = false -> dict_get k (d ++ [(k', v')]) = dict_get k d.
Proof.
  intros Hne; induction d as [|[k0 v0] d IH]; simpl.
  - now rewrite Hne.
  - destruct (scalar_eqb k k0); [reflexivity|exact IH].
Qed.

Lemma dict_get_none_in {V} (k' : scalar) (items : list (scalar * V)) kv :
  dict_get k' items = None -> In kv items -> scalar_eqb (fst kv) k' = false.
Proof.
  induction items as [|[k0 v0] items IH]; simpl; [tauto|].
  destruct (scalar_eqb_spec k' k0) as [->|Hne]; [discriminate|].
  intros Hn [<-|Hin]; [|now apply IH].
  simpl. destruct (scalar_eqb_spec k0 k'); congruence.
Qed.

(** C9: on dict batches [_concat_batches] walks the keys of the first batch
    and nothing else.  (1) The result is, key by key of the first batch, the
    concatenation of the values all batches hold under that key; (2) a
    result, when there is one, has exactly the keys of the first batch, in
    their order; (3) a key that only a later batch holds changes neither the
    result nor whether there is one: it is dropped without an error. *)
Theorem concat_dict_batches_first_keys items rest :
  _concat_batches (PList (PDict items :: rest)) =
    (if forallb is_dict rest
     then try merged <- mapM (merge_key rest) items; inr (PDict merged)
     else inl (ValueError _DIFFERENT_TYPES_ERR))
  /\ (forall result, _concat_batches (PList (PDict items :: rest)) = inr result ->
        exists merged, result = PDict merged /\ map fst merged = map fst items)
  /\ (forall rest1 d rest2 k' v',
        rest = rest1 ++ PDict d :: rest2 ->
        dict_get k' items = None ->
        _concat_batches (PList (PDict items :: rest1 ++ PDict (d ++ [(k', v')]) :: rest2))
        = _concat_batches (PList (PDict items :: rest))).
Proof.
  cbn [_concat_batches]. split; [apply concat_from_dict|split].
  - intros result; rewrite concat_from_dict.
    destruct (forallb is_dict rest); [|discriminate].
    destruct (mapM (merge_key rest) items) as [e|merged] eqn:Em; cbn [rbind];
      [discriminate|].
    intros [= <-]; exists merged; split; [reflexivity|].
    apply (mapM_fst (merge_key rest) fst items merged); [|exact Em].
    intros a kv; unfold merge_key.
    destruct (mapM _ rest); cbn [rbind]; [discriminate|].
    destruct (_concat_batches _); cbn [rbind]; [discriminate|].
    intros [= <-]; reflexivity.
  - intros rest1 d rest2 k' v' -> Hnone.
    rewrite !concat_from_dict, !forallb_app. cbn [forallb].
    replace (is_dict (PDict (d ++ [(k', v')]))) with (is_dict (PDict d)) by reflexivity.
    destruct (forallb is_dict rest1 && (is_dict (PDict d) && forallb is_dict rest2));
      [|reflexivity].
    f_equal. apply mapM_ext_in; intros kv Hin.
    unfold merge_key.
    assert (Hk : scalar_eqb (fst kv) k' = false) by (eapply dict_get_none_in; eauto).
    replace (mapM (batch_getitem (fst kv)) (rest1 ++ PDict (d ++ [(k', v')]) :: rest2))
      with (mapM (batch_getitem (fst kv)) (rest1 ++ PDict d :: rest2)); [reflexivity|].
    induction rest1 as [|b rest1 IH]; cbn [app mapM].
    + cbn [batch_getitem]. now rewrite dict_get_app_other.
    + now rewrite IH.
Qed.

Lemma concat_dict_batches_first_keys_witness :
  _concat_batches
    (PList [PDict [(SStr "sex", PList [PS "f"])];
            PDict ([(SStr "sex", PList [PS "m"])] ++ [(SStr "age", PList [PI 30])])])
  = inr (PDict [(SStr "sex", PList [PS "f"; PS "m"])]).
Proof.
  refine (eq_trans
            (proj2 (proj2 (concat_dict_batches_first_keys
                             [(SStr "sex", PList [PS "f"])]
                             [PDict [(SStr "sex", PList [PS "m"])]]))
               [] [(SStr "sex", PList [PS "m"])] [] (SStr "age") (PList [PI 30])
               eq_refl eq_refl) _).
  reflexivity.
Defined.

(** ** What [add_data] touches (C5, C7, C10) *)

Ltac unfold_frame :=
  unfold append_to, table, user_supplied_callable, ensure,
    bind, attr, lift, assign, raise, ret in *.

(** Splits on every test the code makes on the way to the outcome [H]. *)
Ltac split_run :=
  repeat match goal with
         | H : context [match ?x with _ => _ end] |- _ =>
             lazymatch x with
             | context [match _ with _ => _ end] => fail
             | _ => destruct x eqn:?; cbn [fst snd] in *
             end
         end.

(** The attributes [add_data] never assigns, whatever its outcome, and the
    two caches it resets when it returns normally. *)
Lemma add_data_untouched y_true y_pred sf cf sp mf r mf' :
  add_data y_true y_pred sf cf sp mf = (r, mf') ->
  _sf_names mf' = _sf_names mf /\ _cf_names mf' = _cf_names mf /\
  calls mf' = calls mf /\ metric mf' = metric mf /\
  _streaming mf' = _streaming mf /\ func_dict mf' = func_dict mf /\
  _user_supplied_callable mf' = _user_supplied_callable mf /\
  (r = inr tt -> _overall mf' = None /\ _by_group mf' = None) /\
  (forall e, r = inl e -> _overall mf' = _overall mf /\ _by_group mf' = _by_group mf).
Proof.
  unfold add_data; unfold_frame; intros H.
  split_run; inversion H; subst; clear H; cbn;
    repeat split; try reflexivity; intros; try discriminate; split; reflexivity.
Qed.

(** *** Failure before the first append (C5) *)

(** C5, as the code has it: an [add_data] call that is refused because the
    frame is not streaming, or because [y_true], [y_pred] and
    [sensitive_features] are not of one length, raises with the frame exactly
    as it was; these two checks are the ones that precede every append. *)
Theorem add_data_early_failure_keeps_frame y_true y_pred sf cf sp mf :
  _streaming mf = false \/
  check_consistent_length [y_true; y_pred; sf] <> inr tt ->
  exists e, add_data y_true y_pred sf cf sp mf = (inl e, mf).
Proof.
  intros H. unfold add_data; unfold_frame.
  destruct (_streaming mf) eqn:Hs; cbn [negb].
  - destruct H as [H|H]; [discriminate|].
    destruct (check_consistent_length [y_true; y_pred; sf]) as [e|[]]; [|congruence].
    now exists e.
  - now eexists.
Qed.

Lemma add_data_early_failure_keeps_frame_witness :
  check_consistent_length [PList [PI 0; PI 1]; PList [PI 0]; PList [PS "a"; PS "b"]]
    <> inr tt /\
  exists e,
    add_data (PList [PI 0; PI 1]) (PList [PI 0]) (PList [PS "a"; PS "b"]) PNone PNone
             (new_stream (MCallable accuracy_score) PNone PNone)
    = (inl e, new_stream (MCallable accuracy_score) PNone PNone).
Proof.
  split; [discriminate|].
  apply (add_data_early_failure_keeps_frame
           (PList [PI 0; PI 1]) (PList [PI 0]) (PList [PS "a"; PS "b"]) PNone PNone
           (new_stream (MCallable accuracy_score) PNone PNone)).
  right; discriminate.
Defined.

(** C5 as stated fails: a batch that brings control features to a frame built
    with [control_features=None] is refused, but by then its labels,
    predictions and sensitive features are in the buffers. *)
Lemma add_data_late_failure_mutates :
  let s := new_stream (MCallable accuracy_score) PNone PNone in
  let r := add_data (PList [PI 0; PI 1]) (PList [PI 0; PI 1]) (PList [PS "a"; PS "b"])
                    (PList [PS "x"; PS "y"]) PNone s in
  fst r = inl (ValueError _CF_BAD_STATE_ERR) /\
  _y_true s = PList [] /\
  _y_true (snd r) = PList [PArray [2] [PI 0; PI 1]] /\
  _y_pred (snd r) = PList [PArray [2] [PI 0; PI 1]] /\
  _s_f (snd r) = PList [PList [PS "a"; PS "b"]].
Proof. repeat split. Qed.


(** *** A batch without control features (C7) *)

(** C7 at the failing input: a frame built to use control features
    ([control_features=[]]) takes a batch that brings none.  [add_data]
    returns normally and stores [None] in the buffer of control features;
    the next read fails in [_concat_batches]. *)
Theorem add_data_accepts_missing_control_features :
  let s := new_stream (MCallable accuracy_score) (PList []) PNone in
  let r := add_data (PList [PI 0; PI 1]) (PList [PI 0; PI 1]) (PList [PS "a"; PS "b"])
                    PNone PNone s in
  empty_stream (PList []) = inr s /\
  fst r = inr tt /\
  _c_f (snd r) = PList [PNone] /\
  fst (overall (snd r)) = inl (ValueError _CANT_CONCATENATE_ERR).
Proof. repeat split. Qed.

(** The direction the code does check: control features brought to a frame
    built with [control_features=None] end the call with an error. *)
Lemma add_data_rejects_unexpected_control_features y_true y_pred sf cf sp mf r mf' :
  _streaming mf = true -> _c_f mf = PNone -> is_none cf = false ->
  check_consistent_length [y_true; y_pred; sf] = inr tt ->
  add_data y_true y_pred sf cf sp mf = (r, mf') ->
  exists e, r = inl e.
Proof.
  intros Hs Hc Hn Hl. unfold add_data; unfold_frame.
  rewrite Hs, Hl; cbn [negb fst snd].
  destruct (py_append (_y_true mf) _); [intros [= <- _]; eauto|].
  cbn [_y_pred set_y_true].
  destruct (py_append (_y_pred mf) _); [intros [= <- _]; eauto|].
  cbn [_s_f set_y_pred set_y_true].
  destruct (py_append (_s_f mf) _); [intros [= <- _]; eauto|].
  cbn [_c_f set_s_f set_y_pred set_y_true]. rewrite Hc, Hn; cbn [is_none negb].
  intros [= <- _]; eauto.
Qed.

(** ** The computation behind every read *)

Lemma compute_metric_outcome y_t y_p s_f c_f s_p s :
  fst (_compute_metric y_t y_p s_f c_f s_p s)
  = match compute (metric s) y_t y_p s_f c_f s_p with
    | inl e => inl e
    | inr _ => inr tt
    end.
Proof.
  unfold _compute_metric, compute, _process_functions, namelist_of; unfold_frame.
  destruct (_process_features "sensitive_feature_" s_f y_t) as [e|sf_list];
    cbn [rbind fst snd]; [reflexivity|].
  destruct (is_none c_f); cbn [rbind fst snd].
  - destruct (first_duplicate _ _); cbn [fst]; [reflexivity|].
    cbn [metric set_cf_names set_sf_names].
    destruct (is_metric_dict (metric s)); cbn [fst snd];
      destruct (build_func_dict _ _) as [e|fd]; cbn [rbind fst snd]; try reflexivity;
      destruct (_compute_overall _ _ _ _) as [e|o]; cbn [rbind fst snd]; try reflexivity;
      destruct (_compute_by_group _ _ _ _ _) as [e|g]; cbn [rbind fst snd]; reflexivity.
  - destruct (_process_features "control_feature_" c_f y_t) as [e|cf];
      cbn [rbind fst snd]; [reflexivity|].
    destruct (first_duplicate _ _); cbn [fst]; [reflexivity|].
    cbn [metric set_cf_names set_sf_names].
    destruct (is_metric_dict (metric s)); cbn [fst snd];
      destruct (build_func_dict _ _) as [e|fd]; cbn [rbind fst snd]; try reflexivity;
      destruct (_compute_overall _ _ _ _) as [e|o]; cbn [rbind fst snd]; try reflexivity;
      destruct (_compute_by_group _ _ _ _ _) as [e|g]; cbn [rbind fst snd]; reflexivity.
Qed.

Lemma compute_metric_installs y_t y_p s_f c_f s_p s c :
  compute (metric s) y_t y_p s_f c_f s_p = inr c ->
  _compute_metric y_t y_p s_f c_f s_p s = (inr tt, install c s).
Proof.
  unfold _compute_metric, compute, _process_functions, namelist_of; unfold_frame.
  destruct (_process_features "sensitive_feature_" s_f y_t) as [e|sf_list];
    cbn [rbind fst snd]; [discriminate|].
  destruct (is_none c_f); cbn [rbind fst snd].
  - destruct (first_duplicate _ _); [discriminate|].
    cbn [metric set_cf_names set_sf_names].
    destruct (is_metric_dict (metric s)) eqn:Hm; cbn [fst snd];
      destruct (build_func_dict _ _) as [e|fd]; cbn [rbind fst snd]; try discriminate;
      destruct (_compute_overall _ _ _ _) as [e|o]; cbn [rbind fst snd]; try discriminate;
      destruct (_compute_by_group _ _ _ _ _) as [e|g]; cbn [rbind fst snd]; try discriminate;
      intros [= <-]; unfold install; cbn; rewrite ?Hm; reflexivity.
  - destruct (_process_features "control_feature_" c_f y_t) as [e|cf];
      cbn [rbind fst snd]; [discriminate|].
    destruct (first_duplicate _ _); [discriminate|].
    cbn [metric set_cf_names set_sf_names].
    destruct (is_metric_dict (metric s)) eqn:Hm; cbn [fst snd];
      destruct (build_func_dict _ _) as [e|fd]; cbn [rbind fst snd]; try discriminate;
      destruct (_compute_overall _ _ _ _) as [e|o]; cbn [rbind fst snd]; try discriminate;
      destruct (_compute_by_group _ _ _ _ _) as [e|g]; cbn [rbind fst snd]; try discriminate;
      intros [= <-]; unfold install; cbn; rewrite ?Hm; reflexivity.
Qed.

Lemma compute_metric_success y_t y_p s_f c_f s_p s s' :
  _compute_metric y_t y_p s_f c_f s_p s = (inr tt, s') ->
  exists c, compute (metric s) y_t y_p s_f c_f s_p = inr c /\ s' = install c s.
Proof.
  intros H. pose proof (compute_metric_outcome y_t y_p s_f c_f s_p s) as Ho.
  rewrite H in Ho; cbn [fst] in Ho.
  destruct (compute (metric s) y_t y_p s_f c_f s_p) as [e|c] eqn:Ec; [discriminate|].
  exists c; split; [reflexivity|].
  rewrite (compute_metric_installs _ _ _ _ _ _ _ Ec) in H. congruence.
Qed.

Lemma compute_streaming_metric_success s s' :
  _compute_streaming_metric s = (inr tt, s') -> Computed s'.
Proof.
  unfold _compute_streaming_metric; unfold_frame.
  destruct (_concat_batches (_y_true s)) as [e|y_t]; cbn [fst snd]; [discriminate|].
  destruct (_concat_batches (_y_pred s)) as [e|y_p]; cbn [fst snd]; [discriminate|].
  destruct (_concat_batches (_s_f s)) as [e|s_f]; cbn [fst snd]; [discriminate|].
  destruct (if py_truthy (_c_f s) then _ else _) as [[e|c_f] s0] eqn:Ecf;
    [discriminate|].
  assert (s0 = s) as ->.
  { destruct (py_truthy (_c_f s)); [|now inversion Ecf].
    destruct (_concat_batches (_c_f s)); now inversion Ecf. }
  destruct (if match _s_p s with PNone | PDict _ => true | _ => false end then _ else _)
    as [[e|sp] s0] eqn:Esp; [discriminate|].
  assert (s0 = s) as ->.
  { destruct (match _s_p s with PNone | PDict _ => true | _ => false end);
      [now inversion Esp|].
    destruct (_concat_batches (_s_p s)); now inversion Esp. }
  intros H; apply compute_metric_success in H as (c & Hc & ->).
  now exists s, y_t, y_p, s_f, c_f, sp, c.
Qed.

Lemma init_computed m y_true y_pred sf cf sp mf :
  __init__ m y_true y_pred sf cf sp false = inr mf -> Computed mf.
Proof.
  unfold __init__.
  destruct (any_missing _) as [e|missing]; cbn [rbind]; [discriminate|].
  destruct (missing && negb false); [discriminate|]. cbn [negb].
  destruct (check_consistent_length _); cbn [rbind]; [discriminate|].
  destruct (_compute_metric _ _ _ _ _ _) as [[e|[]] s'] eqn:Ec; cbn [unrun];
    [discriminate|].
  intros [= <-]. apply compute_metric_success in Ec as (c & Hc & ->).
  repeat eexists; exact Hc.
Qed.

Lemma computed_caches mf :
  Computed mf ->
  exists o g b, _overall mf = Some o /\ _by_group mf = Some g /\
                _user_supplied_callable mf = Some b /\
                exists names, _sf_names mf = Some names.
Proof.
  intros (s & y_t & y_p & s_f & c_f & s_p & c & _ & ->); cbn; eauto 8.
Qed.

(** *** Reads that find the cache *)

Lemma ensure_cached {A} (cache : MetricFrame -> option A) s a :
  cache s = Some a -> ensure cache s = (inr tt, s).
Proof. intros H; unfold ensure; unfold_frame; now rewrite H. Qed.

Lemma ensure_stale {A} (cache : MetricFrame -> option A) s :
  cache s = None -> ensure cache s = _compute_streaming_metric s.
Proof.
  intros H; unfold ensure; unfold_frame; rewrite H.
  reflexivity.
Qed.

Lemma control_levels_cached s o :
  _overall s = Some o -> control_levels s = (inr (_cf_names s), s).
Proof.
  intros H; unfold control_levels, bind. now rewrite (ensure_cached _ _ _ H).
Qed.

Lemma collapse_keeps_frame s o result :
  _overall s = Some o -> snd (collapse result s) = s.
Proof.
  intros H; unfold collapse, user_supplied_callable, bind, attr.
  destruct (_user_supplied_callable s) as [[]|]; cbn [raise ret snd]; try reflexivity.
  rewrite (control_levels_cached _ _ H).
  destruct (names_truthy (_cf_names s)); destruct result; unfold_frame;
    cbn [snd]; try reflexivity.
  - destruct (iloc_col0 d); reflexivity.
  - destruct (iloc0 s0); reflexivity.
Qed.

Lemma overall_cached_keeps_frame s o :
  _overall s = Some o -> snd (overall_cached s) = s.
Proof.
  intros H; unfold overall_cached, table, bind, attr; rewrite H. cbn [ret].
  now apply collapse_keeps_frame with (o := o).
Qed.

Lemma overall_with_cache s o :
  _overall s = Some o -> overall s = overall_cached s.
Proof.
  intros H; unfold overall, bind at 1. now rewrite (ensure_cached _ _ _ H).
Qed.

(** ** Reading [overall] twice (C8) *)

(** C8: when a read of [overall] returns a value, the next read, with no
    [add_data] in between, returns the same value and leaves the frame as it
    is, the record of metric calls included: the second read finds the cache
    and calls no metric function. *)
Theorem overall_read_twice mf v mf1 :
  overall mf = (inr v, mf1) ->
  overall mf1 = (inr v, mf1) /\ calls (snd (overall mf1)) = calls mf1.
Proof.
  intros H.
  assert (Hgoal : overall mf1 = (inr v, mf1)); [|now rewrite Hgoal].
  destruct (_overall mf) as [o|] eqn:Ho.
  - rewrite (overall_with_cache _ _ Ho) in H.
    pose proof (overall_cached_keeps_frame _ _ Ho) as Hk.
    rewrite H in Hk; cbn [snd] in Hk; subst mf1.
    now rewrite (overall_with_cache _ _ Ho).
  - unfold overall, bind at 1 in H. rewrite (ensure_stale _ _ Ho) in H.
    destruct (_compute_streaming_metric mf) as [[e|[]] s1] eqn:Ec; [discriminate|].
    fold overall_cached in H.
    destruct (computed_caches _ (compute_streaming_metric_success _ _ Ec))
      as (o & _ & _ & Ho1 & _).
    pose proof (overall_cached_keeps_frame _ _ Ho1) as Hk.
    rewrite H in Hk; cbn [snd] in Hk; subst mf1.
    now rewrite (overall_with_cache _ _ Ho1).
Qed.

Lemma overall_read_twice_witness :
  let first := overall two_batches in
  fst first = inr (PdScalar (Some (3 # 4)%Q)) /\
  length (calls two_batches) = 0 /\
  length (calls (snd first)) = 3 /\
  overall (snd first) = (inr (PdScalar (Some (3 # 4)%Q)), snd first) /\
  calls (snd (overall (snd first))) = calls (snd first).
Proof.
  cbv zeta. split; [vm_compute; reflexivity|]. split; [vm_compute; reflexivity|].
  split; [vm_compute; reflexivity|].
  apply (overall_read_twice two_batches (PdScalar (Some (3 # 4)%Q))
           (snd (overall two_batches))).
  vm_compute; reflexivity.
Defined.

(** ** Cached feature names across [add_data] (C10) *)

(** C10: [add_data] assigns neither [_sf_names] nor [_cf_names]; when it
    returns normally both caches [_overall] and [_by_group] are [None].  So on
    a frame that has computed before, [sensitive_levels] after [add_data]
    answers with the names cached earlier and leaves the frame as it is (no
    recomputation), whereas [control_levels] runs
    [_compute_streaming_metric], and where that succeeds both caches are
    filled again. *)
Theorem add_data_keeps_feature_names y_true y_pred sf cf sp mf mf' names :
  _sf_names mf = Some names ->
  add_data y_true y_pred sf cf sp mf = (inr tt, mf') ->
  (_sf_names mf' = Some names /\ _cf_names mf' = _cf_names mf /\
   _overall mf' = None /\ _by_group mf' = None) /\
  sensitive_levels mf' = (inr (Some names), mf') /\
  control_levels mf' = (_compute_streaming_metric ;; attr _cf_names) mf' /\
  (forall levels s, control_levels mf' = (inr levels, s) ->
     exists o g, _overall s = Some o /\ _by_group s = Some g /\
                 levels = _cf_names s).
Proof.
  intros Hn Ha.
  destruct (add_data_untouched _ _ _ _ _ _ _ _ Ha)
    as (Hsf & Hcf & _ & _ & _ & _ & _ & Hreset & _).
  destruct (Hreset eq_refl) as [Ho Hg].
  rewrite Hn in Hsf.
  assert (Hcl : control_levels mf' = (_compute_streaming_metric ;; attr _cf_names) mf').
  { unfold control_levels, bind. now rewrite (ensure_stale _ _ Ho). }
  repeat split; try assumption.
  - unfold sensitive_levels, bind. rewrite (ensure_cached _ _ _ Hsf).
    unfold attr. now rewrite Hsf.
  - intros levels s. rewrite Hcl. unfold bind, attr.
    destruct (_compute_streaming_metric mf') as [[e|[]] s1] eqn:Ec; [discriminate|].
    intros [= <- <-].
    destruct (computed_caches _ (compute_streaming_metric_success _ _ Ec))
      as (o & g & _ & Ho1 & Hg1 & _).
    eauto.
Qed.

Lemma add_data_keeps_feature_names_witness :
  let computed := snd (overall two_batches) in
  let batch := add_data (PList [PI 1]) (PList [PI 1]) (PList [PS "c"]) PNone PNone in
  let mf' := snd (batch computed) in
  _sf_names computed = Some ["sensitive_feature_0"] /\
  sensitive_levels mf' = (inr (Some ["sensitive_feature_0"]), mf') /\
  length (calls (snd (sensitive_levels mf'))) = 3 /\
  length (calls (snd (control_levels mf'))) = 7.
Proof.
  cbv zeta.
  assert (Hn : _sf_names (snd (overall two_batches)) = Some ["sensitive_feature_0"])
    by (vm_compute; reflexivity).
  assert (Ha : add_data (PList [PI 1]) (PList [PI 1]) (PList [PS "c"]) PNone PNone
                 (snd (overall two_batches))
               = (inr tt,
                  snd (add_data (PList [PI 1]) (PList [PI 1]) (PList [PS "c"]) PNone PNone
                         (snd (overall two_batches)))))
    by (vm_compute; reflexivity).
  split; [exact Hn|].
  split; [exact (proj1 (proj2 (add_data_keeps_feature_names _ _ _ _ _ _ _ _ Hn Ha)))|].
  split; vm_compute; reflexivity.
Defined.

(** ** Subgroups without samples (C4) *)

Lemma skipna_present f l acc :
  fold_left (skipna f) l acc = fold_left (skipna f) (filter is_present l) acc.
Proof.
  revert acc; induction l as [|[x|] l IH]; intros acc; cbn [filter is_present fold_left].
  - reflexivity.
  - apply IH.
  - rewrite <- IH. now destruct acc.
Qed.

Lemma lookup_key_map {C} (f : key -> C) k idx :
  In k idx -> lookup_key k idx (map f idx) = Some (f k).
Proof.
  induction idx as [|k' idx IH]; cbn [In map lookup_key]; [tauto|].
  destruct (key_eqb_spec k k') as [->|Hne]; [reflexivity|].
  intros [->|Hin]; [congruence|now apply IH].
Qed.

Lemma str_get_map {A B} (F : list A -> list B) name (cols : list (string * list A)) :
  str_get name (map (fun c => (fst c, F (snd c))) cols)
  = option_map F (str_get name cols).
Proof.
  induction cols as [|[n vals] cols IH]; cbn [map str_get fst snd]; [reflexivity|].
  destruct (String.eqb name n); [reflexivity|exact IH].
Qed.

Lemma str_get_In {A} name (cols : list (string * A)) v :
  str_get name cols = Some v -> In (name, v) cols.
Proof.
  induction cols as [|[n v'] cols IH]; cbn [str_get In]; [discriminate|].
  destruct (String.eqb_spec name n) as [->|Hne].
  - intros [= ->]; now left.
  - intros H; right; now apply IH.
Qed.

Lemma group_keys_In sort pk g : In g (group_keys sort pk) <-> In g pk.
Proof.
  unfold group_keys; destruct sort.
  - apply (sort_uniq_In key_leb key_eqb key_eqb_spec).
  - apply (first_seen_In key_leb key_eqb key_eqb_spec).
Qed.

Lemma combine_map_l {A B C0} (f : A -> B) (l : list A) (l' : list C0) :
  combine (map f l) l' = map (fun p => (f (fst p), snd p)) (combine l l').
Proof.
  revert l'; induction l as [|a l IH]; intros [|c l']; cbn [map combine fst snd];
    try reflexivity.
  now rewrite IH.
Qed.

Lemma filter_map_comm {A B} (f : A -> B) (p : B -> bool) l :
  filter p (map f l) = map f (filter (fun a => p (f a)) l).
Proof.
  induction l as [|a l IH]; cbn [map filter]; [reflexivity|].
  destruct (p (f a)); cbn [map]; now rewrite IH.
Qed.

Lemma combine_filter_fst {A B} (p : A -> bool) (l : list A) (l' : list B) :
  length l' = length l ->
  combine (filter p l) (map snd (filter (fun kv => p (fst kv)) (combine l l')))
  = filter (fun kv => p (fst kv)) (combine l l').
Proof.
  revert l'; induction l as [|a l IH]; intros [|b l']; cbn [length combine filter map];
    try reflexivity; try discriminate.
  intros [= Hl]. cbn [fst]. destruct (p a); cbn [map snd combine]; now rewrite IH.
Qed.

(** The values of a group, from the rows paired with their values. *)
Lemma rows_of_group_zip {C} (proj : key -> key) idx (vals : list C) g :
  rows_of_group (map proj idx) vals g
  = map snd (filter (fun kv => key_eqb g (proj (fst kv))) (combine idx vals)).
Proof.
  unfold rows_of_group. rewrite combine_map_l, filter_map_comm, map_map.
  reflexivity.
Qed.

(** Rows whose cell is absent do not show in the present values of a group. *)
Lemma present_without_row row (q : key -> bool) (z : list (key * cell)) :
  (forall kv, In kv z -> key_eqb row (fst kv) = true -> snd kv = None) ->
  filter is_present
    (map snd (filter (fun kv => q (fst kv))
                     (filter (fun kv => negb (key_eqb row (fst kv))) z)))
  = filter is_present (map snd (filter (fun kv => q (fst kv)) z)).
Proof.
  induction z as [|[k c] z IH]; intros Habs; [reflexivity|].
  cbn [filter fst].
  assert (IH' := IH (fun kv Hin => Habs kv (or_intror Hin))).
  destruct (key_eqb row k) eqn:Hr; cbn [negb].
  - rewrite IH'. destruct (q k); [|reflexivity].
    pose proof (Habs (k, c) (or_introl eq_refl) Hr) as Hc; cbn [snd] in Hc.
    subst c. reflexivity.
  - cbn [filter fst]. destruct (q k); [|exact IH'].
    cbn [map snd filter]. now rewrite IH'.
Qed.

(** A reduction that skips absent cells gives the same for every group with
    and without the rows whose cells are absent. *)
Lemma group_reduction_without_row f row (proj : key -> key) idx cells g :
  length cells = length idx ->
  (forall kv, In kv (combine idx cells) -> key_eqb row (fst kv) = true -> snd kv = None) ->
  let agg := fun l => fold_left (skipna f) l None in
  let idx' := filter (fun k => negb (key_eqb row k)) idx in
  let cells' := map snd (filter (fun kv => negb (key_eqb row (fst kv))) (combine idx cells)) in
  agg (rows_of_group (map proj idx') cells' g) = agg (rows_of_group (map proj idx) cells g).
Proof.
  intros Hlen Habs; cbv zeta.
  rewrite !rows_of_group_zip.
  rewrite (combine_filter_fst (fun k => negb (key_eqb row k)) idx cells Hlen).
  rewrite skipna_present, (skipna_present f (map snd (filter _ (combine idx cells)))).
  f_equal.
  exact (present_without_row row (fun k => key_eqb g (proj k)) (combine idx cells) Habs).
Qed.

Lemma whole_reduction_without_row f row idx cells :
  length cells = length idx ->
  (forall kv, In kv (combine idx cells) -> key_eqb row (fst kv) = true -> snd kv = None) ->
  fold_left (skipna f)
    (map snd (filter (fun kv => negb (key_eqb row (fst kv))) (combine idx cells))) None
  = fold_left (skipna f) cells None.
Proof.
  intros Hlen Habs.
  rewrite (skipna_present f (map snd _)), (skipna_present f cells).
  pose proof (present_without_row row (fun _ => true) (combine idx cells) Habs) as H.
  assert (Hall : forall (z : list (key * cell)), filter (fun _ => true) z = z).
  { induction z as [|a z IH]; cbn [filter]; [reflexivity|now rewrite IH]. }
  cbv beta in H. rewrite !Hall in H. rewrite H.
  replace (map snd (combine idx cells)) with cells; [reflexivity|].
  clear -Hlen. revert cells Hlen; induction idx as [|k idx IH]; intros [|c cells];
    cbn [length combine map snd]; try reflexivity; try discriminate.
  intros [= Hl]; now rewrite <- IH.
Qed.

(** The table and the calls that [_compute_dataframe_from_rows] produces. *)
Lemma dataframe_from_rows_inv fd y_true y_pred rows df log :
  _compute_dataframe_from_rows fd y_true y_pred rows = inr (df, log) ->
  exists index,
    row_index rows = inr index /\
    df = {| df_names := map (fun f => Some (gf_name f)) rows;
            df_index := index;
            df_columns :=
              map (fun nf => (fst nf,
                     map (fun k => fst (compute_cell (snd nf) y_true y_pred rows k)) index))
                  fd |} /\
    log = concat (map (fun nf =>
                    concat (map (fun k => snd (compute_cell (snd nf) y_true y_pred rows k))
                                index)) fd).
Proof.
  unfold _compute_dataframe_from_rows.
  destruct (row_index rows) as [e|index]; cbn [rbind]; [discriminate|].
  intros [= <- <-]. exists index. split; [reflexivity|].
  unfold compute_column. rewrite !map_map. cbn [fst snd].
  split.
  - f_equal. apply map_ext; intros nf. now rewrite map_map.
  - f_equal. apply map_ext; intros nf. now rewrite map_map.
Qed.

Lemma compute_cell_calls fc y_true y_pred rows k c :
  In c (snd (compute_cell fc y_true y_pred rows k)) ->
  exists mask, call_mask c = Some mask /\ 0 < mask_sum mask.
Proof.
  unfold compute_cell.
  destruct (Nat.ltb 0 (mask_sum (_mask_from_tuple k rows))) eqn:Hm; cbn [snd In];
    [|tauto].
  intros [<-|[]]. eexists; split; [reflexivity|]. now apply Nat.ltb_lt.
Qed.

(** ** The shape of a computed frame *)

Lemma dict_set_keys {V} k (v : V) d x :
  In x (map fst (dict_set k v d)) <-> x = k \/ In x (map fst d).
Proof.
  induction d as [|[k' v'] d IH]; cbn [dict_set map fst In]; [intuition|].
  destruct (String.eqb_spec k k') as [->|Hne]; cbn [map fst In].
  - intuition.
  - rewrite IH; intuition.
Qed.

Lemma dict_set_NoDup {V} k (v : V) d :
  NoDup (map fst d) -> NoDup (map fst (dict_set k v d)).
Proof.
  induction d as [|[k' v'] d IH]; cbn [dict_set map fst]; intros Hd.
  - constructor; [tauto|constructor].
  - inversion Hd as [|? ? Hnotin Hd']; subst.
    destruct (String.eqb_spec k k') as [->|Hne]; cbn [map fst].
    + now constructor.
    + constructor; [|now apply IH].
      rewrite dict_set_keys; intros [->|Hin]; congruence.
Qed.

Lemma build_func_dict_shape m sp fd :
  build_func_dict m sp = inr fd ->
  NoDup (map fst fd) /\
  (is_metric_dict m = false -> exists n fc, fd = [(n, fc)]).
Proof.
  destruct m as [f|d]; cbn [build_func_dict is_metric_dict].
  - destruct (FunctionContainer_init f None sp) as [e|fc]; cbn [rbind]; [discriminate|].
    intros [= <-]; split; [|eauto].
    cbn; constructor; [tauto|constructor].
  - destruct (match sp with PNone => _ | _ => _ end) as [e|s_p]; cbn [rbind];
      [discriminate|].
    intros H; split; [|discriminate].
    assert (Hgen : forall acc, (forall d0, acc = inr d0 -> NoDup (map fst d0)) ->
              forall fd0,
              fold_left (fun acc nf =>
                   try func_dict <- acc;
                   let curr_s_p := match dict_get (SStr (fst nf)) s_p with
                                   | Some v => v
                                   | None => PNone
                                   end in
                   try fc <- FunctionContainer_init (snd nf) (Some (fst nf)) curr_s_p;
                   inr (dict_set (name_ fc) fc func_dict)) d acc = inr fd0 ->
              NoDup (map fst fd0)).
    { clear H. induction d as [|nf d IH]; intros acc Hacc fd0; cbn [fold_left].
      - intros ->; now apply Hacc.
      - apply IH. intros d0.
        destruct acc as [e|d1]; cbn [rbind]; [discriminate|].
        destruct (FunctionContainer_init _ _ _) as [e|fc]; cbn [rbind]; [discriminate|].
        intros [= <-]. apply dict_set_NoDup. now apply Hacc. }
    apply (Hgen (inr [])); [|exact H].
    intros d0 [= <-]; constructor.
Qed.

Lemma first_duplicate_NoDup seen l :
  first_duplicate seen l = None ->
  NoDup l /\ forall x, In x l -> ~ In x seen.
Proof.
  revert seen; induction l as [|n l IH]; intros seen; cbn [first_duplicate].
  - intros _; split; [constructor|intros x []].
  - destruct (existsb (String.eqb n) seen) eqn:Hex; [discriminate|].
    intros H; destruct (IH _ H) as [Hnd Hdis].
    assert (Hn : ~ In n seen).
    { intros Hin. assert (existsb (String.eqb n) seen = true); [|congruence].
      apply existsb_exists; exists n; split; [exact Hin|apply String.eqb_refl]. }
    split.
    + constructor; [|exact Hnd]. intros Hin. apply (Hdis n Hin). now left.
    + intros x [<-|Hin]; [exact Hn|].
      intros Hs. apply (Hdis x Hin). now right.
Qed.

Lemma cross_product_length classes k :
  In k (cross_product classes) -> length k = length classes.
Proof.
  revert k; induction classes as [|c classes IH]; intros k; cbn [cross_product].
  - intros [<-|[]]; reflexivity.
  - rewrite in_flat_map. intros (x & _ & Hk).
    apply in_map_iff in Hk as (k' & <- & Hk'). cbn [length]. now rewrite (IH _ Hk').
Qed.

(** Projecting a label on all its levels, in their order, gives the label. *)
Lemma project_all names k :
  NoDup names -> length k = length names ->
  project (map Some names) names k = k.
Proof.
  unfold project. revert k; induction names as [|n names IH]; intros [|x k] Hnd;
    cbn [length map]; try discriminate; [reflexivity|].
  intros [= Hlen]. inversion Hnd as [|? ? Hnotin Hnd']; subst.
  cbn [level_position]. rewrite String.eqb_refl. cbn [nth]. f_equal.
  etransitivity; [|exact (IH k Hnd' Hlen)].
  apply map_ext_in; intros m Hm.
  assert (m <> n) by congruence.
  destruct (String.eqb_spec m n); [congruence|]. reflexivity.
Qed.

Lemma names_eqb_eq a b : names_eqb a b = true -> a = b.
Proof.
  revert b; induction a as [|x a IH]; intros [|y b]; cbn [names_eqb];
    try discriminate; [reflexivity|].
  intros H; apply andb_prop in H as [Hx Hab].
  rewrite (IH _ Hab). f_equal.
  destruct x, y; cbn [name_eqb] in Hx; try discriminate; [|reflexivity].
  now apply String.eqb_eq in Hx as ->.
Qed.

Lemma names_eqb_refl a : names_eqb a a = true.
Proof.
  induction a as [|[x|] a IH]; cbn [names_eqb name_eqb]; [reflexivity| |exact IH].
  now rewrite String.eqb_refl.
Qed.

Lemma named_levels levels :
  flat_map (fun n : option string => match n with Some s => [s] | None => [] end)
           (map Some levels) = levels.
Proof. induction levels as [|n l IH]; cbn; [reflexivity|now rewrite IH]. Qed.

Lemma computed_shape mf : Computed mf -> exists g usc, Shape mf g usc.
Proof.
  intros (s & y_t & y_p & s_f & c_f & s_p & c & Hc & ->).
  unfold compute in Hc.
  destruct (_process_features "sensitive_feature_" s_f y_t) as [e|sf_list];
    cbn [rbind] in Hc; [discriminate|].
  destruct (if is_none c_f then _ else _) as [e|cf_list]; cbn [rbind] in Hc;
    [discriminate|].
  destruct (first_duplicate [] (namelist_of sf_list cf_list)) eqn:Hdup; [discriminate|].
  destruct (build_func_dict (metric s) s_p) as [e|fd] eqn:Hfd; cbn [rbind] in Hc;
    [discriminate|].
  destruct (_compute_overall fd y_t y_p cf_list) as [e|o] eqn:Ho; cbn [rbind] in Hc;
    [discriminate|].
  destruct (_compute_by_group fd y_t y_p sf_list cf_list) as [e|[g gcalls]] eqn:Hg;
    cbn [rbind] in Hc; [discriminate|].
  injection Hc as <-. cbn [fst snd].
  destruct (build_func_dict_shape _ _ _ Hfd) as [Hnd Hone].
  apply first_duplicate_NoDup in Hdup as [Hnames _].
  unfold _compute_by_group in Hg.
  apply dataframe_from_rows_inv in Hg as (index & Hidx & -> & _).
  exists {| df_names := map (fun f => Some (gf_name f))
                            match cf_list with Some cf => cf ++ sf_list | None => sf_list end;
            df_index := index;
            df_columns := map (fun nf => (fst nf,
                            map (fun k => fst (compute_cell (snd nf) y_t y_p
                                   match cf_list with Some cf => cf ++ sf_list | None => sf_list end
                                   k)) index)) fd |},
         (negb (is_metric_dict (metric s))).
  constructor; cbn [install _overall _by_group _user_supplied_callable _cf_names
                      df_columns df_index df_names].
  - eauto.
  - reflexivity.
  - reflexivity.
  - destruct cf_list as [[|f cf]|]; cbn [option_map map names_truthy].
    + unfold _compute_overall, _compute_dataframe_from_rows in Ho.
      cbn [row_index rbind] in Ho. discriminate.
    + discriminate.
    + reflexivity.
  - rewrite map_map; cbn [fst]. exact Hnd.
  - intros c Hin. apply in_map_iff in Hin as (nf & <- & _); cbn [snd].
    apply length_map.
  - intros Hm. destruct (Hone (proj1 (negb_true_iff _) Hm)) as (n & fc & ->).
    cbn [map]; eauto.
  - intros levels Hlv Heq k Hk.
    destruct cf_list as [cf|]; cbn [option_map] in Hlv; [|discriminate].
    injection Hlv as <-.
    apply names_eqb_eq in Heq.
    assert (Hsf : sf_list = []).
    { apply (f_equal (@length _)) in Heq.
      rewrite !length_map, length_app in Heq.
      destruct sf_list; [reflexivity|cbn [length] in Heq; lia]. }
    subst sf_list. rewrite app_nil_r in *.
    rewrite <- map_map with (g := Some) (f := gf_name).
    apply project_all.
    + exact Hnames.
    + assert (Hidx' : index = cross_product (map gf_classes cf)).
      { unfold row_index in Hidx. destruct cf; [discriminate|]. congruence. }
      subst index.
      rewrite (cross_product_length _ _ Hk). now rewrite !length_map.
Qed.

(** The aggregations of a frame that holds the computation [c]. *)
Lemma installed_shape c s y_t y_p s_f c_f s_p :
  compute (metric s) y_t y_p s_f c_f s_p = inr c ->
  Shape (install c s) (c_by_group c) (negb (is_metric_dict (metric s))).
Proof.
  intros Hc.
  assert (Hcomp : Computed (install c s)) by (now exists s, y_t, y_p, s_f, c_f, s_p, c).
  destruct (computed_shape _ Hcomp) as (g & usc & Hs).
  pose proof (sh_by_group _ _ _ Hs) as Hg. cbn [install _by_group] in Hg. injection Hg as <-.
  pose proof (sh_usc _ _ _ Hs) as Hu. cbn [install _user_supplied_callable] in Hu.
  injection Hu as <-. exact Hs.
Qed.

(** *** The reads of a computed frame *)

Lemma bind_run {A B} (c : M A) (k : A -> M B) s a s' :
  c s = (inr a, s') -> bind c k s = k a s'.
Proof. intros H; unfold bind; now rewrite H. Qed.

Lemma table_run {A} (f : MetricFrame -> option A) s a :
  f s = Some a -> table f s = (inr a, s).
Proof. intros H; unfold table, bind, attr, ret; now rewrite H. Qed.

Lemma user_supplied_callable_run s b :
  _user_supplied_callable s = Some b -> user_supplied_callable s = (inr b, s).
Proof. intros H; unfold user_supplied_callable, bind, attr, ret; now rewrite H. Qed.

Lemma by_group_shaped mf g usc :
  Shape mf g usc -> by_group mf = (inr (by_group_value g usc), mf).
Proof.
  intros [_ Hg Hu _ _ _ Hone _].
  unfold by_group.
  rewrite (bind_run _ _ _ _ _ (ensure_cached _ _ _ Hg)).
  rewrite (bind_run _ _ _ _ _ (user_supplied_callable_run _ _ Hu)).
  rewrite (bind_run _ _ _ _ _ (table_run _ _ _ Hg)).
  unfold by_group_value. destruct usc; [|reflexivity].
  destruct (Hone eq_refl) as (n & col & Hcols).
  unfold bind, lift, ret, iloc_col0, first_col. rewrite Hcols. reflexivity.
Qed.

Lemma collapse_shaped mf g usc (result : pdobj cell) :
  Shape mf g usc ->
  collapse result mf
  = if usc then
      if names_truthy (_cf_names mf) then
        match result with
        | PdFrame d => (s <- lift (iloc_col0 d) ;; ret (PdSeries s)) mf
        | _ => (inl (IndexError "Too many indexers"), mf)
        end
      else
        match result with
        | PdSeries s => (c <- lift (iloc0 s) ;; ret (PdScalar c)) mf
        | PdFrame d => (inl (TypeError "a row of a DataFrame is not a value"), mf)
        | PdScalar _ => (inl (AttributeError "'float' object has no attribute 'iloc'"), mf)
        end
    else (inr result, mf).
Proof.
  intros [[o Ho] _ Hu _ _ _ _ _]. unfold collapse.
  rewrite (bind_run _ _ _ _ _ (user_supplied_callable_run _ _ Hu)).
  destruct usc; [|reflexivity].
  rewrite (bind_run _ _ _ _ _ (control_levels_cached _ _ Ho)).
  destruct (names_truthy (_cf_names mf)); destruct result; reflexivity.
Qed.

Lemma group_agg_shaped agg mf g usc :
  Shape mf g usc -> group_agg agg mf = (inr (group_value agg g (_cf_names mf) usc), mf).
Proof.
  intros Hs. pose proof Hs as [[o Ho] Hg Hu Hlv _ _ Hone _].
  unfold group_agg.
  rewrite (bind_run _ _ _ _ _ (ensure_cached _ _ _ Hg)).
  rewrite (bind_run _ _ _ _ _ (control_levels_cached _ _ Ho)).
  unfold group_value.
  destruct (names_truthy (_cf_names mf)) eqn:Ht; cbn [negb].
  - destruct (_cf_names mf) as [levels|] eqn:Hcf; [|discriminate].
    assert (Hres : (g0 <- table _by_group ;;
                    levels0 <- control_levels ;;
                    ret (PdFrame (df_groupby agg true (names_list levels0) g0))) mf
                   = (inr (PdFrame (df_groupby agg true levels g)), mf)).
    { rewrite (bind_run _ _ _ _ _ (table_run _ _ _ Hg)).
      rewrite (bind_run _ _ _ _ _ (control_levels_cached _ _ Ho)).
      now rewrite Hcf. }
    rewrite (bind_run _ _ _ _ _ Hres).
    rewrite (collapse_shaped _ _ _ _ Hs), Hcf, Ht.
    destruct usc; [|reflexivity].
    destruct (Hone eq_refl) as (n & col & Hcols).
    unfold bind, lift, ret, iloc_col0, df_groupby, first_col.
    cbn [df_columns df_index df_names].
    rewrite Hcols. reflexivity.
  - rewrite (Hlv eq_refl) in *.
    assert (Hres : (g0 <- table _by_group ;; ret (PdSeries (df_reduce agg g0))) mf
                   = (inr (PdSeries (df_reduce agg g)), mf)).
    { now rewrite (bind_run _ _ _ _ _ (table_run _ _ _ Hg)). }
    rewrite (bind_run _ _ _ _ _ Hres).
    rewrite (collapse_shaped _ _ _ _ Hs), (Hlv eq_refl). cbn [names_truthy].
    destruct usc; [|reflexivity].
    destruct (Hone eq_refl) as (n & col & Hcols).
    unfold bind, lift, ret, iloc0, df_reduce, first_col. cbn [s_values]. rewrite Hcols.
    reflexivity.
Qed.

Lemma ratio_shaped pandas mf g usc :
  Shape mf g usc ->
  ratio_between_groups pandas mf
  = (pd_truediv pandas (names_truthy (_cf_names mf)) (func_dict mf) usc
       (group_value col_min g (_cf_names mf) usc)
       (group_value col_max g (_cf_names mf) usc), mf).
Proof.
  intros Hs. destruct (sh_overall _ _ _ Hs) as [o Ho]. unfold ratio_between_groups.
  rewrite (bind_run _ _ _ _ _ (ensure_cached _ _ _ (sh_by_group _ _ _ Hs))).
  unfold group_min, group_max.
  rewrite (bind_run _ _ _ _ _ (group_agg_shaped col_min _ _ _ Hs)).
  rewrite (bind_run _ _ _ _ _ (group_agg_shaped col_max _ _ _ Hs)).
  rewrite (bind_run _ _ _ _ _ (eq_refl : attr func_dict mf = (inr (func_dict mf), mf))).
  rewrite (bind_run _ _ _ _ _ (user_supplied_callable_run _ _ (sh_usc _ _ _ Hs))).
  rewrite (bind_run _ _ _ _ _ (control_levels_cached _ _ Ho)).
  reflexivity.
Qed.

Lemma difference_shaped mf g usc :
  Shape mf g usc ->
  difference "between_groups" mf
  = (inr (reduce_level col_max (_cf_names mf)
            (pd_map cell_abs
               (pd_binop cell_sub None (by_group_value g usc)
                  (group_value col_min g (_cf_names mf) usc)))), mf).
Proof.
  intros Hs. destruct (sh_overall _ _ _ Hs) as [o Ho].
  unfold difference.
  rewrite (bind_run _ _ _ _ _ (ensure_cached _ _ _ Ho)).
  cbn [String.eqb Ascii.eqb Bool.eqb andb].
  unfold group_min.
  rewrite (bind_run _ _ _ _ _ (group_agg_shaped col_min _ _ _ Hs)).
  rewrite (bind_run _ _ _ _ _ (by_group_shaped _ _ _ Hs)).
  rewrite (bind_run _ _ _ _ _ (control_levels_cached _ _ Ho)).
  reflexivity.
Qed.

(** ** The spread of a column *)

Lemma skipna_fold f l x :
  fold_left (skipna f) l (Some x) = Some (fold_left f (values l) x).
Proof.
  revert x; induction l as [|[y|] l IH]; intros x; cbn [fold_left values flat_map app];
    [reflexivity| |]; apply IH.
Qed.

Lemma col_fold f l :
  fold_left (skipna f) l None
  = match values l with
    | [] => None
    | x :: r => Some (fold_left f r x)
    end.
Proof.
  induction l as [|[y|] l IH]; cbn [fold_left values flat_map app skipna].
  - reflexivity.
  - apply skipna_fold.
  - exact IH.
Qed.

Lemma fold_qmin_le r x q :
  In q (x :: r) -> (fold_left qmin r x <= q)%Q.
Proof.
  revert x q; induction r as [|y r IH]; intros x q; cbn [fold_left].
  - intros [<-|[]]; apply Qle_refl.
  - assert (Hlow : (qmin x y <= x)%Q /\ (qmin x y <= y)%Q).
    { unfold qmin. destruct (Qle_bool x y) eqn:Hb.
      - split; [apply Qle_refl|exact (proj1 (Qle_bool_iff x y) Hb)].
      - split; [|apply Qle_refl].
        apply Qlt_le_weak, Qnot_le_lt. intros Hle.
        apply (proj2 (Qle_bool_iff x y)) in Hle. congruence. }
    intros [<-|[<-|Hin]].
    + eapply Qle_trans; [apply (IH (qmin x y) (qmin x y)); now left|apply Hlow].
    + eapply Qle_trans; [apply (IH (qmin x y) (qmin x y)); now left|apply Hlow].
    + apply (IH (qmin x y)). now right.
Qed.

Lemma Qabs_minus_low m q : (m <= q)%Q -> Qabs (q - m) = (q - m)%Q.
Proof.
  intros Hle. destruct q as [qn qd], m as [mn md].
  unfold Qminus, Qplus, Qopp, Qabs; cbn [Qnum Qden].
  f_equal. apply Z.abs_eq.
  unfold Qle in Hle; cbn [Qnum Qden] in Hle. lia.
Qed.

Lemma Qle_bool_minus m a b : Qle_bool (a - m) (b - m) = Qle_bool a b.
Proof.
  apply eq_true_iff_eq. rewrite !Qle_bool_iff.
  unfold Qminus. split; intros H.
  - now apply Qplus_le_l in H.
  - now apply Qplus_le_l.
Qed.

Lemma fold_qmax_minus m r x :
  fold_left qmax (map (fun q => q - m)%Q r) (x - m)%Q = (fold_left qmax r x - m)%Q.
Proof.
  revert x; induction r as [|y r IH]; intros x; cbn [map fold_left]; [reflexivity|].
  rewrite <- IH. f_equal. unfold qmax. rewrite Qle_bool_minus.
  now destruct (Qle_bool x y).
Qed.

Lemma values_map_spread m l :
  values (map (fun a => cell_abs (cell_sub a (Some m))) l)
  = map (fun q => Qabs (q - m)) (values l).
Proof.
  induction l as [|[x|] l IH]; cbn [map values flat_map app]; [reflexivity| |exact IH].
  fold (values (map (fun a => cell_abs (cell_sub a (Some m))) l)).
  fold (values l). now rewrite IH.
Qed.

Lemma values_map_absent l :
  values (map (fun a => cell_abs (cell_sub a None)) l) = [].
Proof.
  induction l as [|[x|] l IH]; cbn [map values flat_map app]; [reflexivity| |]; exact IH.
Qed.

(** The largest distance to the minimum is the maximum minus the minimum. *)
Lemma spread_of_column l :
  col_max (map (fun a => cell_abs (cell_sub a (col_min l))) l)
  = cell_sub (col_max l) (col_min l).
Proof.
  unfold col_max, col_min. rewrite !col_fold.
  destruct (values l) as [|x r] eqn:Hv.
  - now rewrite values_map_absent.
  - rewrite values_map_spread, Hv. cbn [map cell_sub cell_lift2].
    set (m := fold_left qmin r x).
    assert (Hlow : forall q, In q (x :: r) -> (m <= q)%Q)
      by (intros; now apply fold_qmin_le).
    rewrite (Qabs_minus_low m x (Hlow x (or_introl eq_refl))).
    rewrite (map_ext_in (fun q => Qabs (q - m)) (fun q => (q - m)%Q) r).
    + now rewrite fold_qmax_minus.
    + intros q Hq. apply Qabs_minus_low, Hlow. now right.
Qed.

(** ** Cell by cell *)

Lemma lookup_key_notin {C} k idx (vals : list C) :
  ~ In k idx -> lookup_key k idx vals = None.
Proof.
  revert vals; induction idx as [|k' idx IH]; intros [|v vals] Hn;
    cbn [lookup_key]; try reflexivity.
  destruct (key_eqb_spec k k') as [->|Hne].
  - exfalso; apply Hn; now left.
  - apply IH. intros Hin; apply Hn; now right.
Qed.

Lemma lookup_key_map2 {X A B} (op : A -> A -> B) (lab : X -> key) (f h : X -> A) E k :
  lookup_key k (map lab E) (map (fun x => op (f x) (h x)) E)
  = cells2 op (lookup_key k (map lab E) (map f E)) (lookup_key k (map lab E) (map h E)).
Proof.
  induction E as [|x E IH]; cbn [map lookup_key cells2]; [reflexivity|].
  destruct (key_eqb k (lab x)); [reflexivity|exact IH].
Qed.

Lemma lookup_key_NoDup {X C} (lab : X -> key) (h : X -> C) E x :
  NoDup (map lab E) -> In x E ->
  lookup_key (lab x) (map lab E) (map h E) = Some (h x).
Proof.
  induction E as [|y E IH]; cbn [map lookup_key In]; [tauto|].
  intros Hnd [->|Hin]; [now rewrite key_eqb_refl|].
  inversion Hnd as [|? ? Hnotin Hnd']; subst.
  destruct (key_eqb_spec (lab x) (lab y)) as [Heq|Hne]; [|now apply IH].
  exfalso; apply Hnotin. rewrite <- Heq. now apply in_map.
Qed.

Lemma combine_map_map {X A B} (f : X -> A) (h : X -> B) E :
  combine (map f E) (map h E) = map (fun x => (f x, h x)) E.
Proof. induction E as [|x E IH]; cbn [map combine]; [reflexivity|now rewrite IH]. Qed.

(** Two Series over the same entries, combined label by label. *)
Lemma series_binop_values {X A B} (op : A -> A -> B) (nan : A) names (lab : X -> key)
    (f h : X -> A) E :
  (forall x, In x E -> lookup_key (lab x) (map lab E) (map h E) = Some (h x)) ->
  map (fun kv => op (snd kv) (aligned nan names names (map lab E) (map h E) (fst kv)))
      (combine (map lab E) (map f E))
  = map (fun x => op (f x) (h x)) E.
Proof.
  intros Hlook. rewrite combine_map_map, map_map. cbn [fst snd].
  apply map_ext_in; intros x Hx.
  unfold aligned. rewrite names_eqb_refl, (Hlook x Hx). reflexivity.
Qed.

Lemma combine_self_map {A} (f : key -> A) idx :
  combine idx (map f idx) = map (fun x => (x, f x)) idx.
Proof. induction idx as [|x idx IH]; cbn [map combine]; [reflexivity|now rewrite IH]. Qed.

(** Two Series over the same groups, combined group by group. *)
Lemma groups_binop_values {A B} (op : A -> A -> B) (nan : A) names (f h : key -> A) idx :
  map (fun kv => op (snd kv) (aligned nan names names idx (map h idx) (fst kv)))
      (combine idx (map f idx))
  = map (fun x => op (f x) (h x)) idx.
Proof.
  rewrite combine_self_map, map_map. cbn [fst snd].
  apply map_ext_in; intros x Hx.
  unfold aligned. rewrite names_eqb_refl, (lookup_key_map h x idx Hx). reflexivity.
Qed.

Lemma lookup_key_groups2 {A B} (op : A -> A -> B) (f h : key -> A) idx k :
  lookup_key k idx (map (fun x => op (f x) (h x)) idx)
  = cells2 op (lookup_key k idx (map f idx)) (lookup_key k idx (map h idx)).
Proof.
  induction idx as [|x idx IH]; cbn [map lookup_key cells2]; [reflexivity|].
  destruct (key_eqb k x); [reflexivity|exact IH].
Qed.

Lemma NoDup_column_labels {A} (cols : list (string * A)) :
  NoDup (map fst cols) -> NoDup (map (fun c => [SStr (fst c)]) cols).
Proof.
  induction cols as [|c cols IH]; cbn [map]; intros H; [constructor|].
  inversion H as [|? ? Hnotin Hnd]; subst. constructor; [|now apply IH].
  rewrite in_map_iff. intros (c' & [= Heq] & Hin).
  apply Hnotin. rewrite <- Heq. now apply in_map.
Qed.

Lemma str_get_NoDup {A} (cols : list (string * A)) c :
  NoDup (map fst cols) -> In c cols -> str_get (fst c) cols = Some (snd c).
Proof.
  induction cols as [|[n v] cols IH]; cbn [map fst str_get In]; [tauto|].
  intros Hnd [<-|Hin]; cbn [fst snd]; [now rewrite String.eqb_refl|].
  inversion Hnd as [|? ? Hnotin Hnd']; subst.
  destruct (String.eqb_spec (fst c) n) as [Heq|Hne]; [|now apply IH].
  exfalso; apply Hnotin. rewrite <- Heq. now apply in_map.
Qed.

(** The quotient (or any combination) of two reductions of one table, cell
    by cell. *)
Lemma group_binop_get {B} (op : cell -> cell -> B) a1 a2 g cfn usc k name :
  NoDup (map fst (df_columns g)) ->
  pd_get (pd_binop op None (group_value a1 g cfn usc) (group_value a2 g cfn usc)) k name
  = cells2 op (pd_get (group_value a1 g cfn usc) k name)
              (pd_get (group_value a2 g cfn usc) k name).
Proof.
  intros Hnd. unfold group_value.
  destruct cfn as [levels|], usc; cbn [pd_binop pd_get s_index s_values s_names].
  - (* one function, control levels: Series over the groups *)
    unfold groupby_level, groupby_index.
    rewrite groups_binop_values. apply lookup_key_groups2.
  - (* several functions, control levels: DataFrames over the groups *)
    unfold frame_get, df_groupby; cbn [df_columns df_index df_names].
    unfold groupby_level, groupby_index.
    set (pk := map (project (df_names g) levels) (df_index g)).
    set (gidx := group_keys true pk).
    rewrite map_map; cbn [fst snd].
    rewrite (map_ext_in _
               (fun c => (fst c,
                  map (fun x => op (a1 (rows_of_group pk (snd c) x))
                                   (a2 (rows_of_group pk (snd c) x))) gidx))).
    + rewrite (str_get_map (fun vals =>
                 map (fun x => op (a1 (rows_of_group pk vals x))
                                  (a2 (rows_of_group pk vals x))) gidx)).
      rewrite (str_get_map (fun vals => map (fun x => a1 (rows_of_group pk vals x)) gidx)).
      rewrite (str_get_map (fun vals => map (fun x => a2 (rows_of_group pk vals x)) gidx)).
      destruct (str_get name (df_columns g)) as [vals|]; cbn [option_map];
        [|reflexivity].
      apply lookup_key_groups2.
    + intros c Hc. f_equal.
      unfold column_named.
      rewrite (str_get_map (fun vals => map (fun x => a2 (rows_of_group pk vals x)) gidx)).
      rewrite (str_get_NoDup _ _ Hnd Hc). cbn [option_map].
      apply (groups_binop_values op None (map Some levels)
               (fun x => a1 (rows_of_group pk (snd c) x))
               (fun x => a2 (rows_of_group pk (snd c) x))).
  - (* one function, no control levels: bare values *)
    reflexivity.
  - (* several functions, no control levels: Series over the functions *)
    unfold df_reduce; cbn [s_index s_values s_names].
    rewrite (series_binop_values op None [None] (fun c => [SStr (fst c)])
               (fun c => a1 (snd c)) (fun c => a2 (snd c))).
    + apply lookup_key_map2.
    + intros c Hc.
      apply (lookup_key_NoDup (fun c0 : string * list cell => [SStr (fst c0)])
               (fun c0 => a2 (snd c0))); [|exact Hc].
      now apply NoDup_column_labels.
Qed.

(** ** [difference] between groups, column by column *)

Lemma combine_map_zip {A B} (F : key * A -> B) idx (col : list A) :
  combine idx (map F (combine idx col)) = map (fun kv => (fst kv, F kv)) (combine idx col).
Proof.
  revert col; induction idx as [|k idx IH]; intros [|v col]; cbn [combine map fst];
    try reflexivity.
  now rewrite IH.
Qed.

Section ColumnSpread.
Variables (names : list (option string)) (levels : list string).
Variables (idx : list key) (col : list cell).

Let proj := project names levels.
Let pk := map proj idx.
Let lo_vals := map (fun x => col_min (rows_of_group pk col x)) (group_keys true pk).

Hypothesis Hproj :
  names_eqb names (map Some levels) = true -> forall k, In k idx -> proj k = k.

(** The minimum that pandas aligns with a row is the minimum of its group. *)
Lemma aligned_group_min k :
  In k idx ->
  aligned None names (map Some levels) (group_keys true pk) lo_vals k
  = col_min (rows_of_group pk col (proj k)).
Proof.
  intros Hk. unfold aligned.
  assert (Hin : In (proj k) (group_keys true pk))
    by (apply group_keys_In; unfold pk; now apply in_map).
  destruct (names_eqb names (map Some levels)) eqn:Hn.
  - rewrite <- (Hproj eq_refl k Hk) at 1.
    unfold lo_vals. now rewrite (lookup_key_map _ _ _ Hin).
  - rewrite named_levels. fold proj.
    unfold lo_vals. now rewrite (lookup_key_map _ _ _ Hin).
Qed.

Lemma distances_of_group x :
  rows_of_group pk (distances names levels idx col) x
  = map (fun v => cell_abs (cell_sub v (col_min (rows_of_group pk col x))))
        (rows_of_group pk col x).
Proof.
  unfold pk. rewrite !rows_of_group_zip.
  unfold distances. cbv zeta. fold proj. fold pk. fold lo_vals. rewrite map_map.
  rewrite combine_map_zip, filter_map_comm, !map_map. cbn [fst snd].
  apply map_ext_in; intros [k v] Hkv; cbn [fst snd].
  apply filter_In in Hkv as [Hkv Hx]; cbn [fst] in Hx.
  rewrite (aligned_group_min k (in_combine_l _ _ _ _ Hkv)).
  destruct (key_eqb_spec x (proj k)) as [->|]; [|discriminate].
  unfold pk. now rewrite rows_of_group_zip.
Qed.

Lemma column_spread_by_group sort k :
  lookup_key k (group_keys sort pk)
    (map (fun x => col_max (rows_of_group pk (distances names levels idx col) x)) (group_keys sort pk))
  = cells2 cell_sub
      (lookup_key k (group_keys true pk)
         (map (fun x => col_max (rows_of_group pk col x)) (group_keys true pk)))
      (lookup_key k (group_keys true pk) lo_vals).
Proof.
  destruct (in_dec (fun a b => reflect_dec _ _ (key_eqb_spec a b)) k pk) as [Hin|Hout].
  - rewrite !lookup_key_map by now apply group_keys_In.
    unfold lo_vals. rewrite lookup_key_map by now apply group_keys_In.
    cbn [cells2]. f_equal.
    rewrite distances_of_group. apply spread_of_column.
  - rewrite !lookup_key_notin by now rewrite group_keys_In.
    reflexivity.
Qed.
End ColumnSpread.

Lemma difference_get g cfn usc k name :
  NoDup (map fst (df_columns g)) ->
  (forall levels, cfn = Some levels ->
     names_eqb (df_names g) (map Some levels) = true ->
     forall k0, In k0 (df_index g) -> project (df_names g) levels k0 = k0) ->
  pd_get (difference_value g cfn usc) k name
  = cells2 cell_sub (pd_get (group_value col_max g cfn usc) k name)
                    (pd_get (group_value col_min g cfn usc) k name).
Proof.
  intros Hnd Hproj. unfold difference_value, group_value, by_group_value.
  destruct cfn as [levels|], usc;
    cbn [pd_binop pd_map reduce_level pd_get s_index s_values s_names
         df_index df_columns df_names s_groupby].
  - (* one function, control levels *)
    unfold groupby_level, groupby_index.
    apply (column_spread_by_group (df_names g) levels (df_index g) (first_col g)
             (Hproj levels eq_refl) false k).
  - (* several functions, control levels *)
    unfold frame_get, df_groupby; cbn [df_columns df_index df_names].
    rewrite !map_map; cbn [fst snd].
    rewrite (map_ext_in _
               (fun c => (fst c,
                  groupby_level col_max false levels (df_names g) (df_index g)
                    (distances (df_names g) levels (df_index g) (snd c))))).
    + rewrite (str_get_map (fun vals =>
                 groupby_level col_max false levels (df_names g) (df_index g)
                   (distances (df_names g) levels (df_index g) vals))).
      rewrite (str_get_map (groupby_level col_max true levels (df_names g) (df_index g))).
      rewrite (str_get_map (groupby_level col_min true levels (df_names g) (df_index g))).
      destruct (str_get name (df_columns g)) as [vals|]; cbn [option_map];
        [|reflexivity].
      unfold groupby_level, groupby_index.
      apply (column_spread_by_group (df_names g) levels (df_index g) vals
               (Hproj levels eq_refl) false k).
    + intros c Hc. f_equal. f_equal. unfold column_named.
      rewrite (str_get_map (groupby_level col_min true levels (df_names g) (df_index g))).
      rewrite (str_get_NoDup _ _ Hnd Hc). cbn [option_map].
      reflexivity.
  - (* one function, no control levels *)
    cbn [cells2]. f_equal. rewrite map_map. apply spread_of_column.
  - (* several functions, no control levels *)
    unfold df_reduce; cbn [s_index s_values s_names df_columns].
    rewrite !map_map; cbn [fst snd].
    rewrite (map_ext_in _ (fun c => cell_sub (col_max (snd c)) (col_min (snd c)))).
    + apply (lookup_key_map2 cell_sub (fun c : string * list cell => [SStr (fst c)])
               (fun c => col_max (snd c)) (fun c => col_min (snd c))).
    + intros c Hc.
      pose proof (lookup_key_NoDup (fun c0 : string * list cell => [SStr (fst c0)])
                    (fun c0 => col_min (snd c0)) _ c (NoDup_column_labels _ Hnd) Hc)
        as Hl.
      cbv beta in Hl. rewrite map_map.
      erewrite map_ext; [|intros a; rewrite Hl; reflexivity].
      apply spread_of_column.
Qed.

(** ** [difference] and [ratio] between groups (C2, C3) *)

(** C2: on a computed frame, [difference('between_groups')], [group_max()]
    and [group_min()] all return, leaving the frame as it is, and every cell
    of the difference, that is the cell of one metric function in one control
    stratum, is the cell of [group_max()] minus the cell of [group_min()]; a
    label that [group_max()] and [group_min()] do not have, the difference
    does not have either.  The code takes the greatest [|by_group -
    group_min()|] of the stratum instead; the two agree. *)
Theorem difference_between_groups_is_spread mf :
  Computed mf ->
  exists d hi lo,
    difference "between_groups" mf = (inr d, mf) /\
    group_max mf = (inr hi, mf) /\
    group_min mf = (inr lo, mf) /\
    forall k name,
      pd_get d k name = cells2 cell_sub (pd_get hi k name) (pd_get lo k name).
Proof.
  intros Hc. destruct (computed_shape mf Hc) as (g & usc & Hs).
  exists (difference_value g (_cf_names mf) usc),
         (group_value col_max g (_cf_names mf) usc),
         (group_value col_min g (_cf_names mf) usc).
  split; [exact (difference_shaped mf g usc Hs)|].
  split; [exact (group_agg_shaped col_max mf g usc Hs)|].
  split; [exact (group_agg_shaped col_min mf g usc Hs)|].
  intros k name. apply difference_get.
  - exact (sh_columns _ _ _ Hs).
  - intros levels Hl. exact (sh_project _ _ _ Hs levels Hl).
Qed.

(** Every cell that [cells_of_function] lists is a cell of the reduction. *)
Lemma cells_of_function_get agg g cfn usc name c :
  In c (cells_of_function usc name (group_value agg g cfn usc)) ->
  exists k, pd_get (group_value agg g cfn usc) k name = Some c.
Proof.
  unfold group_value.
  destruct cfn as [levels|], usc; cbn [cells_of_function pd_get s_values s_index].
  - unfold groupby_level, groupby_index. intros Hc.
    apply in_map_iff in Hc as (k & <- & Hk). exists k.
    exact (lookup_key_map _ k _ Hk).
  - unfold frame_get, df_groupby; cbn [df_columns df_index].
    unfold groupby_level, groupby_index.
    set (pk := map (project (df_names g) levels) (df_index g)).
    rewrite (str_get_map (fun vals => map (fun x => agg (rows_of_group pk vals x))
                                          (group_keys true pk))).
    destruct (str_get name (df_columns g)) as [vals|]; cbn [option_map]; [|intros []].
    intros Hc. apply in_map_iff in Hc as (k & <- & Hk). exists k.
    exact (lookup_key_map _ k _ Hk).
  - intros [<-|[]]. now exists [].
  - destruct (lookup_key _ _ _) as [c'|] eqn:E; [|intros []].
    intros [<-|[]]. now exists [SStr name].
Qed.

(** A division that raises has met a zero in [group_max]. *)
Lemma divides_by_zero_cell pandas grouped fd agg g cfn usc :
  divides_by_zero pandas grouped fd usc (group_value agg g cfn usc) = true ->
  exists k name q,
    pd_get (group_value agg g cfn usc) k name = Some (Some q) /\ (q == 0)%Q.
Proof.
  unfold divides_by_zero. intros H.
  apply existsb_exists in H as ([name fc] & _ & H). cbn [fst snd] in H.
  apply andb_prop in H as [_ H].
  apply existsb_exists in H as (c & Hc & Hz).
  destruct (cells_of_function_get _ _ _ _ _ _ Hc) as [k Hk].
  destruct c as [q|]; [|discriminate]. cbn [is_zero_cell] in Hz.
  exists k, name, q. split; [exact Hk|]. now apply Qeq_bool_iff.
Qed.

(** A zero among the cells of a function that divide as Python numbers
    makes the division raise. *)
Lemma zero_cell_divides_by_zero pandas grouped fd usc hi name fc c :
  In (name, fc) fd -> divides_as_python pandas grouped (func_ fc) = true ->
  In c (cells_of_function usc name hi) -> is_zero_cell c = true ->
  divides_by_zero pandas grouped fd usc hi = true.
Proof.
  intros Hin Hpy Hc Hz. unfold divides_by_zero. apply existsb_exists.
  exists (name, fc). split; [exact Hin|]. cbn [fst snd]. rewrite Hpy. cbn [andb].
  apply existsb_exists. now exists c.
Qed.

(** C3: on a computed frame, [ratio('between_groups')] is [group_min()]
    divided by [group_max()], as pandas divides the two results, whatever a
    release of pandas leaves in grouped cells.  The frame stays as it is.
    When the division returns, the result is the quotient cell by cell, for
    every metric function and every control stratum the cell of
    [group_min()] over the cell of [group_max()]; when it raises, the
    exception is the [ZeroDivisionError] of Python and a cell of
    [group_max()] holds zero.  The division returns whenever no cell of
    [group_max()] holds zero; without control levels it raises whenever a
    metric function returns Python numbers and one of its cells in
    [group_max()] holds zero. *)
Theorem ratio_between_groups_is_min_over_max pandas mf :
  Computed mf ->
  exists lo hi usc,
    group_min mf = (inr lo, mf) /\
    group_max mf = (inr hi, mf) /\
    _user_supplied_callable mf = Some usc /\
    snd (ratio_between_groups pandas mf) = mf /\
    fst (ratio_between_groups pandas mf)
      = pd_truediv pandas (names_truthy (_cf_names mf)) (func_dict mf) usc lo hi /\
    match fst (ratio_between_groups pandas mf) with
    | inr r =>
        r = pd_binop cell_div None lo hi /\
        forall k name,
          pd_get r k name = cells2 cell_div (pd_get lo k name) (pd_get hi k name)
    | inl e =>
        e = ZeroDivisionError _ZERO_DIVISION /\
        exists k name q, pd_get hi k name = Some (Some q) /\ (q == 0)%Q
    end /\
    ((forall k name q, pd_get hi k name = Some (Some q) -> ~ (q == 0)%Q) ->
     exists r, fst (ratio_between_groups pandas mf) = inr r) /\
    (names_truthy (_cf_names mf) = false ->
     forall name fc c,
       In (name, fc) (func_dict mf) -> fn_returns_numpy (func_ fc) = false ->
       In c (cells_of_function usc name hi) -> is_zero_cell c = true ->
       fst (ratio_between_groups pandas mf) = inl (ZeroDivisionError _ZERO_DIVISION)).
Proof.
  intros Hc. destruct (computed_shape mf Hc) as (g & usc & Hs).
  exists (group_value col_min g (_cf_names mf) usc),
         (group_value col_max g (_cf_names mf) usc), usc.
  split; [exact (group_agg_shaped col_min mf g usc Hs)|].
  split; [exact (group_agg_shaped col_max mf g usc Hs)|].
  split; [exact (sh_usc _ _ _ Hs)|].
  rewrite (ratio_shaped pandas mf g usc Hs). cbn [fst snd].
  split; [reflexivity|]. split; [reflexivity|].
  unfold pd_truediv.
  destruct (divides_by_zero pandas (names_truthy (_cf_names mf)) (func_dict mf) usc
              (group_value col_max g (_cf_names mf) usc)) eqn:Hz.
  - split; [|split].
    + split; [reflexivity|]. exact (divides_by_zero_cell _ _ _ _ _ _ _ Hz).
    + intros Hnz. exfalso.
      destruct (divides_by_zero_cell _ _ _ _ _ _ _ Hz) as (k & name & q & Hk & Hq).
      exact (Hnz k name q Hk Hq).
    + reflexivity.
  - split; [|split].
    + split; [reflexivity|].
      intros k name. apply group_binop_get. exact (sh_columns _ _ _ Hs).
    + intros _. eauto.
    + intros Hg name fc c Hin Hpy Hcell Hzero. exfalso.
      rewrite (zero_cell_divides_by_zero pandas _ _ usc _ name fc c Hin) in Hz;
        [discriminate| |exact Hcell|exact Hzero].
      unfold divides_as_python. rewrite Hg, Hpy. reflexivity.
Qed.

Lemma stratified_computed : Computed stratified.
Proof.
  apply (init_computed (MDict [("acc", accuracy_score)])
           (PList [PI 0; PI 1; PI 1; PI 1; PI 1; PI 0])
           (PList [PI 0; PI 0; PI 1; PI 1; PI 1; PI 1])
           (PList [PS "a"; PS "a"; PS "b"; PS "b"; PS "a"; PS "b"])
           (PList [PS "x"; PS "x"; PS "x"; PS "y"; PS "y"; PS "y"])
           PNone).
  vm_compute; reflexivity.
Qed.

Lemma difference_between_groups_is_spread_witness :
  Computed stratified /\
  fst (by_group stratified)
  = inr (PdFrame
           {| df_names := [Some "control_feature_0"; Some "sensitive_feature_0"];
              df_index := [[SStr "x"; SStr "a"]; [SStr "x"; SStr "b"];
                           [SStr "y"; SStr "a"]; [SStr "y"; SStr "b"]];
              df_columns := [("acc", [Some (1 # 2)%Q; Some (1 # 1)%Q;
                                      Some (1 # 1)%Q; Some (1 # 2)%Q])] |}) /\
  fst (difference "between_groups" stratified)
  = inr (PdFrame
           {| df_names := [Some "control_feature_0"];
              df_index := [[SStr "x"]; [SStr "y"]];
              df_columns := [("acc", [Some (1 # 2)%Q; Some (1 # 2)%Q])] |}) /\
  exists d hi lo,
    difference "between_groups" stratified = (inr d, stratified) /\
    group_max stratified = (inr hi, stratified) /\
    group_min stratified = (inr lo, stratified) /\
    forall k name,
      pd_get d k name = cells2 cell_sub (pd_get hi k name) (pd_get lo k name).
Proof.
  split; [exact stratified_computed|].
  split; [vm_compute; reflexivity|].
  split; [vm_compute; reflexivity|].
  exact (difference_between_groups_is_spread stratified stratified_computed).
Defined.

Lemma ratio_between_groups_is_min_over_max_witness :
  Computed all_wrong /\
  ratio_between_groups GroupedObjects all_wrong
  = (inl (ZeroDivisionError _ZERO_DIVISION), all_wrong) /\
  exists lo hi usc,
    group_min all_wrong = (inr lo, all_wrong) /\
    group_max all_wrong = (inr hi, all_wrong) /\
    _user_supplied_callable all_wrong = Some usc /\
    snd (ratio_between_groups GroupedObjects all_wrong) = all_wrong /\
    fst (ratio_between_groups GroupedObjects all_wrong)
      = pd_truediv GroupedObjects (names_truthy (_cf_names all_wrong))
          (func_dict all_wrong) usc lo hi /\
    match fst (ratio_between_groups GroupedObjects all_wrong) with
    | inr r =>
        r = pd_binop cell_div None lo hi /\
        forall k name,
          pd_get r k name = cells2 cell_div (pd_get lo k name) (pd_get hi k name)
    | inl e =>
        e = ZeroDivisionError _ZERO_DIVISION /\
        exists k name q, pd_get hi k name = Some (Some q) /\ (q == 0)%Q
    end /\
    ((forall k name q, pd_get hi k name = Some (Some q) -> ~ (q == 0)%Q) ->
     exists r, fst (ratio_between_groups GroupedObjects all_wrong) = inr r) /\
    (names_truthy (_cf_names all_wrong) = false ->
     forall name fc c,
       In (name, fc) (func_dict all_wrong) -> fn_returns_numpy (func_ fc) = false ->
       In c (cells_of_function usc name hi) -> is_zero_cell c = true ->
       fst (ratio_between_groups GroupedObjects all_wrong)
       = inl (ZeroDivisionError _ZERO_DIVISION)).
Proof.
  assert (Hc : Computed all_wrong).
  { apply (init_computed (MCallable accuracy_score) (PList [PI 0; PI 1])
             (PList [PI 1; PI 0]) (PList [PS "a"; PS "b"]) PNone PNone).
    vm_compute; reflexivity. }
  split; [exact Hc|].
  split; [vm_compute; reflexivity|].
  exact (ratio_between_groups_is_min_over_max GroupedObjects all_wrong Hc).
Defined.

(** Where every group has the accuracy zero, a Python [float], [ratio]
    raises; [group_min], [group_max] and [difference] answer.  With control
    features and groups that are not all zero, [ratio] answers whatever a
    release of pandas leaves in grouped cells. *)
Lemma ratio_raises_on_zero_maximum :
  fst (group_min all_wrong) = inr (PdScalar (Some (0 # 1)%Q)) /\
  fst (group_max all_wrong) = inr (PdScalar (Some (0 # 1)%Q)) /\
  fst (difference "between_groups" all_wrong) = inr (PdScalar (Some (0 # 1)%Q)) /\
  (forall pandas,
     ratio_between_groups pandas all_wrong
     = (inl (ZeroDivisionError _ZERO_DIVISION), all_wrong)) /\
  (forall pandas,
     fst (ratio_between_groups pandas stratified)
     = inr (PdFrame
              {| df_names := [Some "control_feature_0"];
                 df_index := [[SStr "x"]; [SStr "y"]];
                 df_columns := [("acc", [FNum (1 # 2); FNum (1 # 2)])] |})).
Proof.
  repeat split; try (vm_compute; reflexivity); intros []; vm_compute; reflexivity.
Qed.

(** ** Streaming against direct construction (C1) *)

Lemma asarray_flat l :
  l <> [] -> Forall (fun v => isscalar v = true) l -> asarray (PList l) = ([length l], l).
Proof.
  intros Hne Hs. cbn [asarray].
  assert (Hmap : map asarray l = map (fun v => ([], [v])) l).
  { apply map_ext_in; intros v Hv.
    rewrite Forall_forall in Hs. specialize (Hs v Hv).
    destruct v; cbn in Hs; try discriminate. reflexivity. }
  rewrite Hmap. destruct l as [|v l]; [congruence|]. cbn [map fst].
  assert (Hall : forallb (fun sd : ndarray => shape_eqb (fst sd) [])
                   (([], [v]) :: map (fun v0 => ([], [v0])) l) = true).
  { cbn [forallb fst shape_eqb andb]. clear; induction l; cbn; auto. }
  rewrite Hall. f_equal.
  cbn [map snd concat app]. f_equal.
  clear; induction l as [|a l IH]; cbn; [reflexivity|now rewrite IH].
Qed.

Lemma convert_flat l :
  l <> [] -> Forall (fun v => isscalar v = true) l ->
  _convert_to_ndarray_and_squeeze (PList l) = PArray [length l] l.
Proof.
  intros Hne Hs. unfold _convert_to_ndarray_and_squeeze.
  rewrite (asarray_flat l Hne Hs). unfold squeeze, atleast_1d, PArr; cbn [fst snd filter].
  destruct (Nat.eqb_spec (length l) 1) as [->|Hn]; cbn [negb fst snd]; reflexivity.
Qed.


















Lemma collapse_outcome s o b result :
  _overall s = Some o -> _user_supplied_callable s = Some b ->
  fst (collapse result s) = collapse_value b (_cf_names s) result.
Proof.
  intros Ho Hu. unfold collapse, collapse_value.
  rewrite (bind_run _ _ _ _ _ (user_supplied_callable_run _ _ Hu)).
  destruct b; [|reflexivity].
  rewrite (bind_run _ _ _ _ _ (control_levels_cached _ _ Ho)).
  destruct (names_truthy (_cf_names s)); destruct result; try reflexivity.
  - unfold bind, lift, ret. destruct (iloc_col0 d); reflexivity.
  - unfold bind, lift, ret. destruct (iloc0 s0); reflexivity.
Qed.

(** What [overall] and [by_group] return once [c] is installed depends on
    [c] and on the kind of metric only, not on the rest of the frame. *)
Lemma overall_installed c s :
  fst (overall (install c s))
  = collapse_value (negb (is_metric_dict (metric s)))
      (option_map (map gf_name) (c_cf_list c)) (c_overall c).
Proof.
  rewrite (overall_with_cache (install c s) (c_overall c) eq_refl).
  unfold overall_cached.
  rewrite (bind_run _ _ _ _ _ (table_run _overall (install c s) (c_overall c) eq_refl)).
  apply (collapse_outcome (install c s) (c_overall c)); reflexivity.
Qed.





(** C1: the equivalence of streaming and direct construction breaks on
    batches of pandas Series, which the docstring of [add_data] lists among
    the accepted inputs.  [add_data] accepts sensitive features given as
    Series, batch after batch, but [_concat_batches] has no case for a
    Series, so every read of the streaming frame raises, while the frame
    constructed on the whole Series answers. *)
Lemma streaming_series_batches_differ :
  let s0 := new_stream (MCallable accuracy_score) PNone PNone in
  let r1 := add_data (PList [PI 0; PI 1]) (PList [PI 0; PI 1])
                     (PSeries None [PS "a"; PS "a"]) PNone PNone s0 in
  let r2 := add_data (PList [PI 0; PI 1]) (PList [PI 1; PI 1])
                     (PSeries None [PS "b"; PS "b"]) PNone PNone (snd r1) in
  let direct := __init__ (MCallable accuracy_score)
                  (PList [PI 0; PI 1; PI 0; PI 1]) (PList [PI 0; PI 1; PI 1; PI 1])
                  (PSeries None [PS "a"; PS "a"; PS "b"; PS "b"]) PNone PNone false in
  fst r1 = inr tt /\ fst r2 = inr tt /\
  fst (overall (snd r2)) = inl (ValueError _CANT_CONCATENATE_ERR) /\
  run overall direct = inr (PdScalar (Some (3 # 4)%Q)) /\
  fst (overall (snd r2)) <> run overall direct.
Proof.
  cbv zeta. repeat split; try (vm_compute; reflexivity).
  vm_compute; discriminate.
Qed.

(** ** Construction *)

(** A construction that returns has run [_compute_metric] on the flattened
    labels and predictions. *)
Lemma init_direct_inv m y_true y_pred sf cf sp mf :
  __init__ m y_true y_pred sf cf sp false = inr mf ->
  any_missing [y_true; y_pred; sf] = inr false /\
  check_consistent_length [y_true; y_pred] = inr tt /\
  exists c,
    compute m (_convert_to_ndarray_and_squeeze y_true)
              (_convert_to_ndarray_and_squeeze y_pred) sf cf sp = inr c /\
    mf = install c (blank m sf cf sp).
Proof.
  unfold __init__.
  destruct (any_missing _) as [e|missing]; cbn [rbind]; [discriminate|].
  destruct missing; cbn [andb negb]; [discriminate|].
  destruct (check_consistent_length _) as [e|[]]; cbn [rbind]; [discriminate|].
  destruct (_compute_metric _ _ _ _ _ _) as [[e|[]] s'] eqn:Ec; cbn [unrun];
    [discriminate|].
  intros [= <-]. apply compute_metric_success in Ec as (c & Hc & ->).
  repeat split. exists c. split; [exact Hc|reflexivity].
Qed.

Lemma any_missing_false args :
  any_missing args = inr false ->
  Forall (fun a => is_none a = false /\ exists n, py_len a = inr (S n)) args.
Proof.
  induction args as [|a args IH]; cbn [any_missing]; [constructor|].
  destruct (is_none a) eqn:Hn; [discriminate|].
  destruct (py_len a) as [e|[|n]] eqn:Hl; cbn [rbind Nat.eqb]; try discriminate.
  intros H. constructor; [|now apply IH]. split; [exact Hn|now exists n].
Qed.

(** X1: a frame constructed without streaming holds data.  If the
    constructor returns, the labels, the predictions and the sensitive
    features all have a length that is not zero, and the labels and the
    predictions have the same length. *)
Theorem init_direct_requires_data m y_true y_pred sf cf sp mf :
  __init__ m y_true y_pred sf cf sp false = inr mf ->
  exists n k,
    py_len y_true = inr (S n) /\ py_len y_pred = inr (S n) /\ py_len sf = inr (S k).
Proof.
  intros H. apply init_direct_inv in H as (Hm & Hl & _).
  apply any_missing_false in Hm.
  inversion Hm as [|? ? [Hn1 [n1 H1]] Hm1]; subst.
  inversion Hm1 as [|? ? [Hn2 [n2 H2]] Hm2]; subst.
  inversion Hm2 as [|? ? [Hn3 [n3 H3]] _]; subst.
  exists n1, n3. split; [exact H1|]. split; [|exact H3].
  unfold check_consistent_length in Hl. cbn [filter] in Hl. rewrite Hn1, Hn2 in Hl.
  cbn [negb mapM] in Hl. unfold _num_samples in Hl. rewrite H1, H2 in Hl.
  cbn [rbind all_equal_nat forallb] in Hl.
  destruct (Nat.eqb_spec (S n1) (S n2)) as [E|]; [|discriminate]. now rewrite E.
Qed.

Lemma stratified_built :
  __init__ (MDict [("acc", accuracy_score)]) six_labels six_predictions six_groups
           six_strata PNone false = inr stratified.
Proof. vm_compute. reflexivity. Qed.

Lemma init_direct_requires_data_witness :
  exists n k,
    py_len six_labels = inr (S n) /\ py_len six_predictions = inr (S n) /\
    py_len six_groups = inr (S k).
Proof.
  exact (init_direct_requires_data _ _ _ _ _ _ _ stratified_built).
Defined.

(** X2: a streaming frame starts empty.  With lists for the data (and
    [None] or a list for the control features) the streaming constructor
    returns exactly when all lists are empty; in every other case it raises
    [_NON_EMPTY_INIT_ERR]. *)
Theorem init_streaming_only_on_empty_lists m a b c cf sp :
  cf = PNone \/ (exists l, cf = PList l) ->
  __init__ m (PList a) (PList b) (PList c) cf sp true
  = match a, b, c, cf with
    | [], [], [], PNone | [], [], [], PList [] => inr (new_stream m cf sp)
    | _, _, _, _ => inl (ValueError _NON_EMPTY_INIT_ERR)
    end.
Proof.
  intros Hcf. unfold __init__.
  assert (Hm : exists missing, any_missing [PList a; PList b; PList c] = inr missing).
  { cbn [any_missing is_none py_len rbind].
    destruct (Nat.eqb (length a) 0); [eauto|].
    destruct (Nat.eqb (length b) 0); [eauto|].
    destruct (Nat.eqb (length c) 0); eauto. }
  destruct Hm as [missing ->]. cbn [rbind negb]. rewrite andb_false_r.
  cbn [existsb is_empty_list].
  destruct Hcf as [->|[l ->]].
  - destruct a; [|reflexivity]. destruct b; [|reflexivity]. destruct c; reflexivity.
  - destruct a as [|? ?]; [|reflexivity]. destruct b as [|? ?]; [|reflexivity].
    destruct c as [|? ?]; [|reflexivity]. destruct l; reflexivity.
Qed.

Lemma init_streaming_only_on_empty_lists_witness :
  __init__ (MCallable accuracy_score) (PList []) (PList [PI 1]) (PList []) PNone PNone true
  = inl (ValueError _NON_EMPTY_INIT_ERR).
Proof.
  apply (init_streaming_only_on_empty_lists (MCallable accuracy_score) [] [PI 1] []
           PNone PNone).
  now left.
Defined.

Lemma init_streaming_inv m y_true y_pred sf cf sp s :
  __init__ m y_true y_pred sf cf sp true = inr s ->
  _y_true s = PList [] /\ _overall s = None /\ _by_group s = None /\ _sf_names s = None.
Proof.
  unfold __init__.
  destruct (any_missing _) as [e|missing]; cbn [rbind]; [discriminate|].
  rewrite andb_false_r. cbn [negb].
  destruct (_ || _); [discriminate|]. intros [= <-]. repeat split.
Qed.

Lemma compute_streaming_no_data s :
  _y_true s = PList [] -> _compute_streaming_metric s = no_data s.
Proof.
  intros H. unfold _compute_streaming_metric, no_data; unfold_frame. rewrite H. reflexivity.
Qed.

(** X3: no read before the first batch.  On a streaming frame as the
    constructor leaves it every property and every aggregation raises
    [_EMPTY_BATCHES_ERR] and leaves the frame as it is. *)
Theorem reads_before_first_batch_raise m y_true y_pred sf cf sp s :
  __init__ m y_true y_pred sf cf sp true = inr s ->
  overall s = no_data s /\ by_group s = no_data s /\
  control_levels s = no_data s /\ sensitive_levels s = no_data s /\
  group_max s = no_data s /\ group_min s = no_data s /\
  (forall method, difference method s = no_data s) /\
  (forall pandas, ratio_between_groups pandas s = no_data s).
Proof.
  intros H. apply init_streaming_inv in H as (Hy & Ho & Hg & Hn).
  pose proof (compute_streaming_no_data s Hy) as Hc.
  assert (Eo : ensure _overall s = no_data s) by now rewrite ensure_stale.
  assert (Eg : ensure _by_group s = no_data s) by now rewrite ensure_stale.
  assert (En : ensure _sf_names s = no_data s) by now rewrite ensure_stale.
  unfold overall, by_group, control_levels, sensitive_levels, group_max, group_min,
    group_agg, difference, ratio_between_groups, bind.
  rewrite Eo, Eg, En. unfold no_data. repeat split.
Qed.

Lemma reads_before_first_batch_raise_witness :
  let s := new_stream (MCallable accuracy_score) PNone PNone in
  overall s = no_data s /\ by_group s = no_data s /\
  control_levels s = no_data s /\ sensitive_levels s = no_data s /\
  group_max s = no_data s /\ group_min s = no_data s /\
  (forall method, difference method s = no_data s) /\
  (forall pandas, ratio_between_groups pandas s = no_data s).
Proof.
  apply (reads_before_first_batch_raise (MCallable accuracy_score)
           (PList []) (PList []) (PList []) PNone PNone).
  reflexivity.
Defined.

(** ** What [add_data] accepts *)







(** ** Concatenation of list, array and DataFrame batches *)

Lemma forallb_type_iff ty rest :
  forallb (fun arr => pytype_eqb (type_of arr) ty) rest = true <->
  forall b, In b rest -> type_of b = ty.
Proof.
  rewrite forallb_forall. split; intros H b Hb; specialize (H b Hb).
  - now destruct (pytype_eqb_spec (type_of b) ty).
  - rewrite H. now destruct (pytype_eqb_spec ty ty).
Qed.

(** What [concat_from] returns has the type of the first batch, which every
    other batch shares and which is one of the four the method handles. *)
Lemma concat_from_result first rest v :
  concat_from first rest = inr v ->
  forallb (fun arr => pytype_eqb (type_of arr) (type_of first)) rest = true /\
  In (type_of first) [TNdarray; TList; TDataFrame; TDict] /\
  type_of v = type_of first.
Proof.
  intros H.
  destruct (forallb (fun arr => pytype_eqb (type_of arr) (type_of first)) rest) eqn:Ht.
  - split; [reflexivity|].
    destruct first; cbn [concat_from] in H; rewrite Ht in H; cbn [negb] in H;
      try discriminate; cbn [type_of In].
    + injection H as <-. split; [tauto|reflexivity].
    + destruct (np_concatenate _) as [e|r]; cbn [rbind] in H; [discriminate|].
      injection H as <-. split; [tauto|reflexivity].
    + destruct (mapM _ _) as [e|cmps]; cbn [rbind] in H; [discriminate|].
      destruct (all_truth cmps) as [e|[]]; cbn [rbind] in H; try discriminate.
      injection H as <-. split; [tauto|reflexivity].
    + match type of H with
      | rbind ?c _ = _ => destruct c as [e|merged]; cbn [rbind] in H; [discriminate|]
      end.
      injection H as <-. split; [tauto|reflexivity].
  - destruct first; cbn [concat_from] in H; rewrite Ht in H; discriminate.
Qed.

(** X6: what [_concat_batches] returns has the type of the first batch.
    When it returns, every batch has the type of the first one, that type is
    an array, a list, a DataFrame or a dict, and the result is of the same
    type. *)
Theorem concat_batches_result_type first rest v :
  _concat_batches (PList (first :: rest)) = inr v ->
  (forall b, In b rest -> type_of b = type_of first) /\
  In (type_of first) [TNdarray; TList; TDataFrame; TDict] /\
  type_of v = type_of first.
Proof.
  cbn [_concat_batches]. intros H.
  apply concat_from_result in H as (Ht & Hin & Hv).
  split; [|split; assumption].
  now apply forallb_type_iff.
Qed.

Lemma concat_batches_result_type_witness :
  (forall b, In b [PList [PI 2]] -> type_of b = type_of (PList [PI 1])) /\
  In (type_of (PList [PI 1])) [TNdarray; TList; TDataFrame; TDict] /\
  type_of (PList [PI 1; PI 2]) = type_of (PList [PI 1]).
Proof.
  apply (concat_batches_result_type (PList [PI 1]) [PList [PI 2]] (PList [PI 1; PI 2])).
  reflexivity.
Defined.
























(** ** Features and their names *)

Lemma GroupFeature_init_name base fv i f :
  GroupFeature_init base fv i None = inr f ->
  gf_name f = match fv with
              | PSeries (Some (SStr n)) _ => n
              | _ => (base ++ string_of_nat i)%string
              end.
Proof.
  unfold GroupFeature_init.
  destruct (mapM as_label _) as [e|vals]; cbn [rbind]; [discriminate|].
  destruct fv as [| | | |[[z|n]|] vals'| |]; cbn [rbind]; try discriminate;
    intros [= <-]; reflexivity.
Qed.

Lemma process_columns_names base sample cols : forall i fs,
  process_columns base sample i cols = inr fs ->
  map fst cols = map (fun f => Some (SStr (gf_name f))) fs.
Proof.
  induction cols as [|[cn vals] cols IH]; intros i fs; cbn [process_columns].
  - intros [= <-]. reflexivity.
  - destruct cn as [[z|n]|]; try discriminate.
    destruct (check_consistent_length _) as [e|[]]; cbn [rbind]; [discriminate|].
    destruct (GroupFeature_init _ _ _ _) as [e|f] eqn:Hf; cbn [rbind]; [discriminate|].
    destruct (process_columns base sample (S i) cols) as [e|fs'] eqn:Hr; cbn [rbind];
      [discriminate|].
    intros [= <-]. cbn [map fst]. rewrite (IH _ _ Hr).
    apply GroupFeature_init_name in Hf. now rewrite Hf.
Qed.

Lemma process_array_columns_names base sample sh d n : forall i fs,
  process_array_columns base sample sh d i n = inr fs ->
  map gf_name fs = map (fun j => (base ++ string_of_nat j)%string) (seq i n).
Proof.
  induction n as [|n IH]; intros i fs; cbn [process_array_columns seq map].
  - intros [= <-]. reflexivity.
  - destruct (check_consistent_length _) as [e|[]]; cbn [rbind]; [discriminate|].
    destruct (GroupFeature_init _ _ _ _) as [e|f] eqn:Hf; cbn [rbind]; [discriminate|].
    destruct (process_array_columns base sample sh d (S i) n) as [e|fs'] eqn:Hr;
      cbn [rbind]; [discriminate|].
    intros [= <-]. cbn [map]. rewrite (IH _ _ Hr).
    apply GroupFeature_init_name in Hf. now rewrite Hf.
Qed.

Lemma dataframe_from_dict_names items cols :
  dataframe_from_dict items = inr cols -> map fst cols = map (fun kv => Some (fst kv)) items.
Proof.
  unfold dataframe_from_dict.
  destruct (mapM _ items) as [e|cs] eqn:Hm; cbn [rbind]; [discriminate|].
  destruct (all_equal_nat _); [|discriminate]. intros [= <-].
  revert cs Hm. induction items as [|kv items IH]; intros cs; cbn [mapM].
  - intros [= <-]. reflexivity.
  - destruct (fst (asarray (snd kv))) as [|? [|? ?]]; cbn [rbind]; try discriminate.
    destruct (mapM _ items) as [e|cs'] eqn:Hr; cbn [rbind]; [discriminate|].
    intros [= <-]. cbn [map fst]. now rewrite (IH _ eq_refl).
Qed.

(** X9: one feature per column, named after it.  When [_process_features]
    returns, a DataFrame or a dict has given one feature per column or key,
    in their order and under their names, which are all strings; a named
    Series has given one feature under its name; an unnamed Series and a
    list have given one feature called [base_name] followed by [0]; any
    other array-like has given one feature per column, called [base_name]
    followed by the number of the column. *)
Theorem feature_names_follow_columns base features sample fs :
  _process_features base features sample = inr fs ->
  match features with
  | PDataFrame cols => map fst cols = map (fun f => Some (SStr (gf_name f))) fs
  | PDict items => map fst items = map (fun f => SStr (gf_name f)) fs
  | PSeries (Some n) _ => exists f, fs = [f] /\ n = SStr (gf_name f)
  | PSeries None _ | PList _ => exists f, fs = [f] /\ gf_name f = (base ++ "0")%string
  | _ => map gf_name fs
         = map (fun j => (base ++ string_of_nat j)%string) (seq 0 (length fs))
  end.
Proof.
  assert (Harr : forall v,
            match fst (squeeze (asarray v)) with
            | [_] =>
                try _ <- check_consistent_length [PArr (squeeze (asarray v)); sample];
                try f <- GroupFeature_init base (PArr (squeeze (asarray v))) 0 None;
                inr [f]
            | [_; ncols] =>
                process_array_columns base sample (fst (squeeze (asarray v)))
                  (snd (squeeze (asarray v))) 0 ncols
            | _ => inl (ValueError _TOO_MANY_FEATURE_DIMS)
            end = inr fs ->
            map gf_name fs
            = map (fun j => (base ++ string_of_nat j)%string) (seq 0 (length fs))).
  { intros v. destruct (fst (squeeze (asarray v))) as [|n0 [|ncols [|? ?]]] eqn:Hsh;
      try discriminate.
    - destruct (check_consistent_length _) as [e|[]]; cbn [rbind]; [discriminate|].
      destruct (GroupFeature_init _ _ _ _) as [e|f] eqn:Hf; cbn [rbind]; [discriminate|].
      intros [= <-]. apply GroupFeature_init_name in Hf.
      cbn [map length seq]. rewrite Hf. unfold PArr. reflexivity.
    - intros H. pose proof (process_array_columns_names _ _ _ _ _ _ _ H) as Hn.
      assert (Hlen : length fs = ncols).
      { apply (f_equal (@length _)) in Hn. now rewrite !length_map, length_seq in Hn. }
      now rewrite Hlen. }
  destruct features as [|x|l|sh d|nm vals|cols|items]; cbn [_process_features].
  - apply (Harr PNone).
  - apply (Harr (PScalar x)).
  - destruct l as [|first rest]; [discriminate|].
    destruct (isscalar first); [|discriminate].
    destruct (negb _); [discriminate|].
    destruct (check_consistent_length _) as [e|[]]; cbn [rbind]; [discriminate|].
    destruct (GroupFeature_init _ _ _ _) as [e|f] eqn:Hf; cbn [rbind]; [discriminate|].
    intros [= <-]. exists f. split; [reflexivity|].
    apply GroupFeature_init_name in Hf. rewrite Hf. unfold PArr. reflexivity.
  - apply (Harr (PArray sh d)).
  - destruct (check_consistent_length _) as [e|[]]; cbn [rbind]; [discriminate|].
    destruct (GroupFeature_init _ _ _ _) as [e|f] eqn:Hf; cbn [rbind]; [discriminate|].
    intros [= <-]. pose proof Hf as Hf'. apply GroupFeature_init_name in Hf.
    destruct nm as [[z|n]|].
    + unfold GroupFeature_init in Hf'.
      destruct (mapM as_label _); cbn [rbind] in Hf'; discriminate.
    + exists f. split; [reflexivity|]. now rewrite Hf.
    + exists f. split; [reflexivity|]. now rewrite Hf.
  - apply process_columns_names.
  - destruct (dataframe_from_dict items) as [e|df] eqn:Hd; cbn [rbind]; [discriminate|].
    intros H. apply process_columns_names in H. apply dataframe_from_dict_names in Hd.
    rewrite Hd in H. clear - H. revert fs H.
    induction items as [|kv items IH]; intros [|f fs]; cbn [map]; try discriminate;
      [reflexivity|].
    intros [= Hk Hr]. now rewrite Hk, (IH _ Hr).
Qed.

Lemma feature_names_follow_columns_witness :
  match _process_features "sensitive_feature_" two_columns (PArray [2] [PI 0; PI 1]) with
  | inr fs => [Some (SStr "sex"); Some (SStr "race")]
              = map (fun f => Some (SStr (gf_name f))) fs
  | inl _ => False
  end.
Proof.
  destruct (_process_features "sensitive_feature_" two_columns (PArray [2] [PI 0; PI 1]))
    as [e|fs] eqn:E.
  - vm_compute in E. discriminate.
  - exact (feature_names_follow_columns _ _ _ _ E).
Defined.

Lemma mapM_as_label l labels :
  mapM as_label l = inr labels -> map PScalar labels = l.
Proof.
  revert labels; induction l as [|v l IH]; intros labels; cbn [mapM].
  - intros [= <-]. reflexivity.
  - destruct v; cbn [as_label rbind]; try discriminate.
    destruct (mapM as_label l) as [e|ls]; cbn [rbind]; [discriminate|].
    intros [= <-]. cbn [map]. now rewrite (IH _ eq_refl).
Qed.

Lemma check_pair_lengths a b :
  check_consistent_length [a; b] = inr tt -> is_none a = false -> is_none b = false ->
  exists n, py_len a = inr n /\ py_len b = inr n.
Proof.
  unfold check_consistent_length. cbn [filter]. intros H Ha Hb.
  rewrite Ha, Hb in H. revert H. cbn [negb mapM]. unfold _num_samples.
  destruct (py_len a) as [e|n]; cbn [rbind]; [discriminate|].
  destruct (py_len b) as [e|k]; cbn [rbind all_equal_nat forallb]; [discriminate|].
  destruct (Nat.eqb_spec n k) as [->|]; [|discriminate]. eauto.
Qed.

Lemma labels_numpy_keeps_scalar l :
  labels_numpy_keeps l -> Forall (fun v => isscalar v = true) l.
Proof.
  intros [H|H]; (eapply Forall_impl; [|exact H]); intros v (x & -> & _); reflexivity.
Qed.

(** X10: a list of labels is one feature over the samples.  When
    [_process_features] returns for a list of integers of the 64-bit range,
    or for a list of strings none of which ends in a NUL character, the
    result is a single feature whose values are the entries of the list,
    whose classes are their distinct values in increasing order, and the
    sample array has as many entries as the list. *)
Theorem list_of_scalars_is_one_feature base l sample fs :
  _process_features base (PList l) sample = inr fs ->
  labels_numpy_keeps l -> is_none sample = false ->
  exists f,
    fs = [f] /\ map PScalar (gf_values f) = l /\ encodes (length l) f /\
    py_len sample = inr (length l).
Proof.
  intros H Hkind Hn. pose proof (labels_numpy_keeps_scalar l Hkind) as Hs.
  cbn [_process_features] in H.
  destruct l as [|first rest] eqn:El; [discriminate|]. rewrite <- El in *.
  assert (Hne : l <> []) by (rewrite El; discriminate).
  assert (Harr : PArr (atleast_1d (squeeze (asarray (PList l)))) = PArray [length l] l).
  { exact (convert_flat l Hne Hs). }
  destruct (isscalar first); [|discriminate].
  destruct (negb _); [discriminate|].
  rewrite Harr in H.
  destruct (check_consistent_length _) as [e|[]] eqn:Hc; cbn [rbind] in H; [discriminate|].
  destruct (GroupFeature_init _ _ _ _) as [e|f] eqn:Hf; cbn [rbind] in H; [discriminate|].
  injection H as <-. exists f. split; [reflexivity|].
  unfold GroupFeature_init in Hf. cbn [asarray snd] in Hf.
  destruct (mapM as_label l) as [e|labels] eqn:Hl; cbn [rbind] in Hf; [discriminate|].
  injection Hf as <-. cbn [gf_values gf_classes].
  pose proof (mapM_as_label _ _ Hl) as Hlab.
  split; [exact Hlab|]. split.
  - split; [reflexivity|]. rewrite <- Hlab. now rewrite length_map.
  - apply check_pair_lengths in Hc as (n & Ha & Hb); [|reflexivity|exact Hn].
    cbn [py_len] in Ha. congruence.
Qed.

Lemma list_of_scalars_is_one_feature_witness :
  match _process_features "sensitive_feature_" six_groups (PArray [6] [PI 0; PI 1; PI 1; PI 1; PI 1; PI 0]) with
  | inr fs =>
      exists f,
        fs = [f] /\
        map PScalar (gf_values f) = [PS "a"; PS "a"; PS "b"; PS "b"; PS "a"; PS "b"] /\
        encodes 6 f /\ py_len (PArray [6] [PI 0; PI 1; PI 1; PI 1; PI 1; PI 0]) = inr 6
  | inl _ => False
  end.
Proof.
  destruct (_process_features "sensitive_feature_" six_groups (PArray [6] [PI 0; PI 1; PI 1; PI 1; PI 1; PI 0]))
    as [e|fs] eqn:E.
  - vm_compute in E. discriminate.
  - apply (list_of_scalars_is_one_feature _ _ _ _ E); [|reflexivity].
    right. repeat constructor; eexists; split; reflexivity.
Defined.

Lemma compute_inv m y_t y_p s_f c_f s_p c :
  compute m y_t y_p s_f c_f s_p = inr c ->
  _process_features "sensitive_feature_" s_f y_t = inr (c_sf_list c) /\
  (if is_none c_f then c_cf_list c = None
   else exists cf, _process_features "control_feature_" c_f y_t = inr cf /\
                   c_cf_list c = Some cf) /\
  first_duplicate [] (namelist_of (c_sf_list c) (c_cf_list c)) = None /\
  build_func_dict m s_p = inr (c_func_dict c) /\
  _compute_overall (c_func_dict c) y_t y_p (c_cf_list c)
    = inr (c_overall c, c_overall_calls c) /\
  _compute_by_group (c_func_dict c) y_t y_p (c_sf_list c) (c_cf_list c)
    = inr (c_by_group c, c_by_group_calls c).
Proof.
  unfold compute.
  destruct (_process_features "sensitive_feature_" s_f y_t) as [e|sf_list];
    cbn [rbind]; [discriminate|].
  destruct (is_none c_f) eqn:Hn.
  - cbn [rbind].
    destruct (first_duplicate _ _) eqn:Hd; [discriminate|].
    destruct (build_func_dict m s_p) as [e|fd]; cbn [rbind]; [discriminate|].
    destruct (_compute_overall _ _ _ _) as [e|[o oc]] eqn:Ho; cbn [rbind]; [discriminate|].
    destruct (_compute_by_group _ _ _ _ _) as [e|[g gc]] eqn:Hg; cbn [rbind];
      [discriminate|].
    intros [= <-].
    cbn [c_sf_list c_cf_list c_func_dict c_overall c_overall_calls c_by_group
         c_by_group_calls fst snd].
    repeat split; auto.
  - destruct (_process_features "control_feature_" c_f y_t) as [e|cf];
      cbn [rbind]; [discriminate|].
    destruct (first_duplicate _ _) eqn:Hd; [discriminate|].
    destruct (build_func_dict m s_p) as [e|fd]; cbn [rbind]; [discriminate|].
    destruct (_compute_overall _ _ _ _) as [e|[o oc]] eqn:Ho; cbn [rbind]; [discriminate|].
    destruct (_compute_by_group _ _ _ _ _) as [e|[g gc]] eqn:Hg; cbn [rbind];
      [discriminate|].
    intros [= <-].
    cbn [c_sf_list c_cf_list c_func_dict c_overall c_overall_calls c_by_group
         c_by_group_calls fst snd].
    repeat split; eauto.
Qed.

(** The rows of the table of a construction: the features extracted from
    the control features, then those extracted from the sensitive features. *)
Lemma by_group_rows_of_features m y_t y_p sf cf sp c sf_list cf_list :
  compute m y_t y_p sf cf sp = inr c ->
  _process_features "sensitive_feature_" sf y_t = inr sf_list ->
  (if is_none cf then inr [] else _process_features "control_feature_" cf y_t)
    = inr cf_list ->
  by_group_rows c = cf_list ++ sf_list /\
  c_cf_list c = (if is_none cf then None else Some cf_list).
Proof.
  intros Hc Hsf Hcf. apply compute_inv in Hc as (Hsf' & Hcf' & _).
  rewrite Hsf in Hsf'. injection Hsf' as ->.
  unfold by_group_rows. destruct (is_none cf).
  - rewrite Hcf'. injection Hcf as <-. now split.
  - destruct Hcf' as (cfl & Hp & ->). rewrite Hp in Hcf. injection Hcf as ->. now split.
Qed.

(** X11: the levels of a computed frame are pairwise distinct: no name
    occurs twice among the sensitive and the control features. *)
Theorem feature_names_are_distinct mf :
  Computed mf -> NoDup (names_list (_sf_names mf) ++ names_list (_cf_names mf)).
Proof.
  intros (s & y_t & y_p & s_f & c_f & s_p & c & Hc & ->).
  apply compute_inv in Hc as (_ & _ & Hd & _).
  apply first_duplicate_NoDup in Hd as [Hnd _].
  cbn [install _sf_names _cf_names names_list]. unfold namelist_of in Hnd.
  destruct (c_cf_list c); exact Hnd.
Qed.

Lemma feature_names_are_distinct_witness :
  NoDup (names_list (_sf_names stratified) ++ names_list (_cf_names stratified)).
Proof. exact (feature_names_are_distinct stratified stratified_computed). Defined.

(** ** Metric functions and their sample parameters *)

Lemma dict_set_fresh {V} k (v : V) d :
  ~ In k (map fst d) -> dict_set k v d = d ++ [(k, v)].
Proof.
  induction d as [|[k' v'] d IH]; cbn [dict_set map fst In app]; [reflexivity|].
  intros Hn. destruct (String.eqb_spec k k') as [->|Hne]; [tauto|].
  rewrite IH; [reflexivity|tauto].
Qed.

Lemma str_get_app {V} name (d d' : list (string * V)) :
  str_get name (d ++ d')
  = match str_get name d with
    | Some v => Some v
    | None => str_get name d'
    end.
Proof.
  induction d as [|[k v] d IH]; cbn [app str_get]; [reflexivity|].
  destruct (String.eqb name k); [reflexivity|exact IH].
Qed.

Lemma str_get_notin {V} name (d : list (string * V)) :
  ~ In name (map fst d) -> str_get name d = None.
Proof.
  induction d as [|[k v] d IH]; cbn [map fst In str_get]; [reflexivity|].
  intros Hn. destruct (String.eqb_spec name k) as [->|Hne]; [tauto|].
  apply IH; tauto.
Qed.

Lemma FunctionContainer_init_name f n sp fc :
  FunctionContainer_init f (Some n) sp = inr fc -> name_ fc = n /\ func_ fc = f.
Proof.
  unfold FunctionContainer_init.
  destruct (match sp with PNone => _ | _ => _ end) as [e|p]; cbn [rbind]; [discriminate|].
  intros [= <-]. split; reflexivity.
Qed.

Section FuncDictLoop.
Variable s_p : list (scalar * pyval).

Let step (acc : res (list (string * FunctionContainer))) (nf : string * callable) :=
  try func_dict <- acc;
  let curr_s_p := match dict_get (SStr (fst nf)) s_p with
                  | Some v => v
                  | None => PNone
                  end in
  try fc <- FunctionContainer_init (snd nf) (Some (fst nf)) curr_s_p;
  inr (dict_set (name_ fc) fc func_dict).

Lemma func_dict_loop_error d e : fold_left step d (inl e) = inl e.
Proof. induction d as [|nf d IH]; cbn [fold_left]; [reflexivity|exact IH]. Qed.

Lemma func_dict_loop d : forall acc fd,
  fold_left step d (inr acc) = inr fd ->
  NoDup (map fst d) -> (forall n, In n (map fst d) -> ~ In n (map fst acc)) ->
  map fst fd = map fst acc ++ map fst d /\
  (forall name fc, str_get name acc = Some fc -> str_get name fd = Some fc) /\
  (forall name f, In (name, f) d ->
     exists fc, str_get name fd = Some fc /\
       FunctionContainer_init f (Some name)
         (match dict_get (SStr name) s_p with Some v => v | None => PNone end) = inr fc).
Proof.
  induction d as [|[n f] d IH]; intros acc fd; cbn [fold_left map fst].
  - intros [= <-] _ _. rewrite app_nil_r. split; [reflexivity|]. split; [auto|].
    intros name f [].
  - intros H Hnd Hdis. inversion Hnd as [|? ? Hn Hnd']; subst.
    unfold step at 2 in H. cbn [rbind fst snd] in H.
    destruct (FunctionContainer_init f (Some n) _) as [e|fc] eqn:Hfc; cbn [rbind] in H.
    { rewrite func_dict_loop_error in H. discriminate. }
    destruct (FunctionContainer_init_name _ _ _ _ Hfc) as [Hname _].
    rewrite Hname in H.
    rewrite (dict_set_fresh n fc acc) in H by (apply Hdis; now left).
    destruct (IH _ _ H Hnd') as (Hkeys & Hkeep & Hall).
    { intros m Hm. rewrite map_app, in_app_iff. cbn [map fst In].
      intros [Hin|[<-|[]]]; [|contradiction].
      apply (Hdis m); [now right|exact Hin]. }
    split; [|split].
    + rewrite Hkeys, map_app, <- app_assoc. reflexivity.
    + intros name fc0 Hget. apply Hkeep. rewrite str_get_app, Hget. reflexivity.
    + intros name f0 [[= <- <-]|Hin]; [|now apply Hall].
      exists fc. split; [|exact Hfc]. apply Hkeep.
      rewrite str_get_app, (str_get_notin n acc) by (apply Hdis; now left).
      cbn [str_get]. now rewrite String.eqb_refl.
Qed.
End FuncDictLoop.

(** X12: every metric function gets its own sample parameters.  For a dict
    of metric functions the containers are built in the order of the dict,
    one per name; the function under a name is bound to the sample parameters
    filed under the same name, or to none; and the keys of the sample
    parameters all name a metric function. *)
Theorem dict_metrics_get_their_own_params d sp fd :
  build_func_dict (MDict d) sp = inr fd -> NoDup (map fst d) ->
  map fst fd = map fst d /\
  (forall items k, sp = PDict items -> In k (map fst items) ->
     exists n, k = SStr n /\ In n (map fst d)) /\
  forall name f, In (name, f) d ->
    exists fc, str_get name fd = Some fc /\
               FunctionContainer_init f (Some name) (params_for name sp) = inr fc.
Proof.
  cbn [build_func_dict]. intros H Hnd.
  destruct (match sp with PNone => _ | _ => _ end) as [e|s_p] eqn:Hsp; cbn [rbind] in H;
    [discriminate|].
  destruct (func_dict_loop s_p d [] fd H Hnd) as (Hkeys & _ & Hall); [intros n _ []|].
  split; [exact Hkeys|]. split.
  - intros items k -> Hk.
    destruct (forallb _ items) eqn:Hf; [|discriminate].
    rewrite forallb_forall in Hf. apply in_map_iff in Hk as (kv & <- & Hkv).
    specialize (Hf kv Hkv). destruct (fst kv) as [z|n]; [discriminate|].
    exists n. split; [reflexivity|].
    apply existsb_exists in Hf as (nf & Hnf & Heq). apply String.eqb_eq in Heq as ->.
    now apply in_map.
  - intros name f Hin. destruct (Hall name f Hin) as (fc & Hget & Hinit).
    exists fc. split; [exact Hget|].
    assert (Hp : match dict_get (SStr name) s_p with Some v => v | None => PNone end
                 = params_for name sp).
    { unfold params_for. destruct sp; try discriminate.
      - injection Hsp as <-. reflexivity.
      - destruct (forallb _ items); [|discriminate]. injection Hsp as <-. reflexivity. }
    now rewrite <- Hp.
Qed.

Lemma dict_metrics_get_their_own_params_witness :
  match build_func_dict (MDict two_metrics) params_of_second with
  | inr fd =>
      map fst fd = ["acc"; "wacc"] /\
      (forall items k, params_of_second = PDict items -> In k (map fst items) ->
         exists n, k = SStr n /\ In n (map fst two_metrics)) /\
      forall name f, In (name, f) two_metrics ->
        exists fc, str_get name fd = Some fc /\
                   FunctionContainer_init f (Some name) (params_for name params_of_second)
                   = inr fc
  | inl _ => False
  end.
Proof.
  destruct (build_func_dict (MDict two_metrics) params_of_second) as [e|fd] eqn:E.
  - vm_compute in E. discriminate.
  - apply (dict_metrics_get_their_own_params two_metrics params_of_second fd E).
    repeat constructor; cbn; intuition discriminate.
Defined.

(** ** Subgroups and their masks *)

Section SortUniqOrder.
Context {A : Type} (leb eqb : A -> A -> bool).
Hypothesis eqb_spec : forall a b, reflect (a = b) (eqb a b).
Hypothesis leb_total : forall a b, leb a b = true \/ leb b a = true.
Hypothesis leb_antisym : forall a b, leb a b = true -> leb b a = true -> a = b.
Hypothesis leb_trans : forall a b c, leb a b = true -> leb b c = true -> leb a c = true.

Let lt (a b : A) : Prop := leb a b = true /\ a <> b.

Lemma lt_trans_leb a b c : lt a b -> lt b c -> lt a c.
Proof.
  intros [Hab Nab] [Hbc Nbc]. split; [eauto|].
  intros ->. apply Nab. now apply leb_antisym.
Qed.

Lemma insert_uniq_sorted x l :
  ForallOrdPairs lt l -> ForallOrdPairs lt (insert_uniq leb eqb x l).
Proof.
  induction 1 as [|y l Hy Hs IH]; cbn [insert_uniq].
  - repeat constructor.
  - destruct (eqb_spec x y) as [->|Hne]; [now constructor|].
    destruct (leb x y) eqn:Hxy.
    + constructor; [|now constructor].
      constructor; [now split|].
      rewrite Forall_forall in *. intros z Hz.
      apply (lt_trans_leb x y z); [now split|auto].
    + constructor; [|exact IH].
      rewrite Forall_forall in *. intros z Hz.
      apply (insert_uniq_In leb eqb eqb_spec) in Hz as [->|Hz]; [|auto].
      split; [|congruence].
      destruct (leb_total x y); congruence.
Qed.

Lemma sort_uniq_sorted l : ForallOrdPairs lt (sort_uniq leb eqb l).
Proof.
  induction l as [|x l IH]; cbn [sort_uniq fold_right]; [constructor|].
  now apply insert_uniq_sorted.
Qed.

Lemma sort_uniq_NoDup l : NoDup (sort_uniq leb eqb l).
Proof.
  pose proof (sort_uniq_sorted l) as H.
  induction H as [|y l' Hy Hs IH]; constructor; [|exact IH].
  intros Hin. rewrite Forall_forall in Hy. now destruct (Hy y Hin).
Qed.
End SortUniqOrder.

Lemma scalar_leb_total a b : scalar_leb a b = true \/ scalar_leb b a = true.
Proof.
  destruct a as [x|x], b as [y|y]; cbn [scalar_leb]; auto.
  - rewrite !Z.leb_le. lia.
  - apply String.leb_total.
Qed.

Lemma scalar_leb_antisym a b : scalar_leb a b = true -> scalar_leb b a = true -> a = b.
Proof.
  destruct a as [x|x], b as [y|y]; cbn [scalar_leb]; try discriminate.
  - rewrite !Z.leb_le. intros; f_equal; lia.
  - intros H1 H2. f_equal. now apply String.leb_antisym.
Qed.

Lemma ascii_compare_lt_trans a b c :
  Ascii.compare a b = Lt -> Ascii.compare b c = Lt -> Ascii.compare a c = Lt.
Proof.
  unfold Ascii.compare. rewrite !N.compare_lt_iff. apply N.lt_trans.
Qed.

Lemma string_compare_lt_trans a : forall b c,
  String.compare a b = Lt -> String.compare b c = Lt -> String.compare a c = Lt.
Proof.
  induction a as [|x a IH]; intros [|y b] [|z c]; cbn [String.compare];
    try discriminate; try reflexivity.
  destruct (Ascii.compare x y) eqn:Hxy; try discriminate.
  - apply Ascii.compare_eq_iff in Hxy as ->.
    destruct (Ascii.compare y z); try discriminate; [apply IH|reflexivity].
  - intros _. destruct (Ascii.compare y z) eqn:Hyz; try discriminate.
    + apply Ascii.compare_eq_iff in Hyz as <-. now rewrite Hxy.
    + now rewrite (ascii_compare_lt_trans x y z Hxy Hyz).
Qed.

Lemma string_leb_trans a b c :
  String.leb a b = true -> String.leb b c = true -> String.leb a c = true.
Proof.
  unfold String.leb.
  destruct (String.compare a b) eqn:Hab; try discriminate;
    destruct (String.compare b c) eqn:Hbc; try discriminate; intros _ _.
  - apply String.compare_eq_iff in Hab as ->. now rewrite Hbc.
  - apply String.compare_eq_iff in Hab as ->. now rewrite Hbc.
  - apply String.compare_eq_iff in Hbc as <-. now rewrite Hab.
  - now rewrite (string_compare_lt_trans a b c Hab Hbc).
Qed.

Lemma scalar_leb_trans a b c :
  scalar_leb a b = true -> scalar_leb b c = true -> scalar_leb a c = true.
Proof.
  destruct a as [x|x], b as [y|y], c as [z|z]; cbn [scalar_leb]; try discriminate; auto.
  - rewrite !Z.leb_le. lia.
  - apply string_leb_trans.
Qed.

Lemma classes_NoDup l : NoDup (sort_uniq scalar_leb scalar_eqb l).
Proof.
  apply sort_uniq_NoDup.
  - exact scalar_eqb_spec.
  - exact scalar_leb_total.
  - exact scalar_leb_antisym.
  - exact scalar_leb_trans.
Qed.

Lemma NoDup_map_cons {A} (x : A) (l : list (list A)) :
  NoDup l -> NoDup (map (cons x) l).
Proof.
  induction 1 as [|k l Hk _ IH]; cbn [map]; constructor; [|exact IH].
  intros Hin. apply in_map_iff in Hin as (k' & [= ->] & Hk'). contradiction.
Qed.

Lemma cross_product_NoDup classes :
  Forall (@NoDup scalar) classes -> NoDup (cross_product classes).
Proof.
  induction 1 as [|c classes Hc _ IH]; cbn [cross_product].
  - constructor; [intros []|constructor].
  - induction Hc as [|x c Hx Hc IHc]; cbn [flat_map]; [constructor|].
    apply NoDup_app; [| exact IHc |].
    + now apply NoDup_map_cons.
    + intros k Hk Hk'. apply in_map_iff in Hk as (k1 & <- & _).
      apply in_flat_map in Hk' as (y & Hy & Hk').
      apply in_map_iff in Hk' as (k2 & [= <- _] & _). contradiction.
Qed.

Lemma cross_product_In classes k :
  In k (cross_product classes) <-> Forall2 (fun x c => In x c) k classes.
Proof.
  revert k; induction classes as [|c classes IH]; intros k; cbn [cross_product].
  - split; [intros [<-|[]]; constructor|]. intros H; inversion H; now left.
  - rewrite in_flat_map. split.
    + intros (x & Hx & Hk). apply in_map_iff in Hk as (k' & <- & Hk').
      constructor; [exact Hx|now apply IH].
    + intros H; inversion H as [|x c' k' cl Hx Hk']; subst.
      exists x; split; [exact Hx|]. apply in_map. now apply IH.
Qed.

Lemma length_get_mask f c : length (get_mask_for_class f c) = length (gf_values f).
Proof. unfold get_mask_for_class. apply length_map. Qed.

Lemma nth_get_mask f c i :
  i < length (gf_values f) ->
  nth i (get_mask_for_class f c) false = scalar_eqb c (nth i (gf_values f) (SStr "")).
Proof.
  intros Hi. unfold get_mask_for_class.
  rewrite (nth_indep _ false (scalar_eqb c (SStr ""))) by now rewrite length_map.
  apply map_nth.
Qed.

Lemma length_logical_and a b :
  length a = length b -> length (logical_and a b) = length a.
Proof.
  intros H. unfold logical_and. rewrite length_map, length_combine, H. apply Nat.min_id.
Qed.

Lemma nth_logical_and a b i :
  length a = length b ->
  nth i (logical_and a b) false = nth i a false && nth i b false.
Proof.
  intros H. unfold logical_and.
  change false with ((fun p : bool * bool => fst p && snd p) (false, false)) at 1.
  rewrite map_nth, combine_nth by exact H. reflexivity.
Qed.

(** The conjunction of the masks selects sample [i] exactly when every class
    of the tuple is the class of the sample. *)
Lemma mask_fold n i cs fs : forall acc,
  i < n -> length acc = n -> Forall (fun f => length (gf_values f) = n) fs ->
  length cs = length fs ->
  let r := fold_left (fun result cf => logical_and result (get_mask_for_class (snd cf) (fst cf)))
                     (combine cs fs) acc in
  length r = n /\
  (nth i r false = true <-> nth i acc false = true /\ cs = sample_key fs i).
Proof.
  revert fs; induction cs as [|c cs IH]; intros [|f fs] acc Hi Hacc Hfs Hlen;
    cbn [length] in Hlen; try discriminate; cbn [combine fold_left sample_key map].
  - split; [exact Hacc|]. intuition.
  - apply Forall_cons_iff in Hfs as [Hf Hfs']. injection Hlen as Hlen.
    assert (Hl : length acc = length (get_mask_for_class f c)).
    { now rewrite length_get_mask, Hf. }
    destruct (IH fs (logical_and acc (get_mask_for_class f c)) Hi
                (eq_trans (length_logical_and _ _ Hl) Hacc) Hfs' Hlen) as [Hr Hiff].
    cbn [fst snd]. split; [exact Hr|].
    assert (Hm : nth i (logical_and acc (get_mask_for_class f c)) false
                 = nth i acc false && scalar_eqb c (nth i (gf_values f) (SStr ""))).
    { rewrite (nth_logical_and _ _ _ Hl), nth_get_mask by now rewrite Hf. reflexivity. }
    split.
    + intros H. apply Hiff in H as [Ha Hcs]. rewrite Hm in Ha.
      apply andb_true_iff in Ha as [Ha Hc].
      destruct (scalar_eqb_spec c (nth i (gf_values f) (SStr ""))) as [->|]; [|discriminate].
      split; [exact Ha|]. now rewrite Hcs.
    + intros [Ha [= -> ->]]. apply Hiff. split; [|reflexivity].
      rewrite Hm, Ha. apply scalar_eqb_refl.
Qed.

Lemma mask_selects rows n i k :
  i < n -> Forall (fun f => length (gf_values f) = n) rows ->
  rows <> [] -> length k = length rows ->
  (nth i (_mask_from_tuple k rows) false = true <-> k = sample_key rows i).
Proof.
  intros Hi Hrows Hne Hlen.
  destruct rows as [|f0 fs]; [congruence|]. destruct k as [|c0 cs]; [discriminate|].
  apply Forall_cons_iff in Hrows as [Hf Hfs]. subst n. injection Hlen as Hlen.
  cbn [_mask_from_tuple sample_key map].
  destruct (mask_fold (length (gf_values f0)) i cs fs (get_mask_for_class f0 c0) Hi
              (length_get_mask f0 c0) Hfs Hlen) as [_ Hiff].
  cbv zeta in Hiff. rewrite nth_get_mask in Hiff by exact Hi.
  split.
  - intros H. apply Hiff in H as [Hc ->].
    destruct (scalar_eqb_spec c0 (nth i (gf_values f0) (SStr ""))) as [->|]; [|discriminate].
    reflexivity.
  - intros [= -> ->]. apply Hiff. split; [apply scalar_eqb_refl|reflexivity].
Qed.

(** X13: every sample lies in exactly one subgroup.  The rows of a table over
    encoded features are pairwise distinct, one of them is the tuple of the
    classes of sample [i], and the mask [_mask_from_tuple] builds for a row
    selects sample [i] for that row and for no other. *)
Theorem every_sample_in_one_subgroup rows index n i :
  row_index rows = inr index -> Forall (encodes n) rows -> i < n ->
  NoDup index /\ In (sample_key rows i) index /\
  forall k, In k index ->
    (nth i (_mask_from_tuple k rows) false = true <-> k = sample_key rows i).
Proof.
  intros Hidx Henc Hi.
  assert (Hne : rows <> []) by (destruct rows; [discriminate|discriminate]).
  assert (Hindex : index = cross_product (map gf_classes rows)).
  { unfold row_index in Hidx. destruct rows; [congruence|]. congruence. }
  subst index.
  assert (Hlen : Forall (fun f => length (gf_values f) = n) rows).
  { eapply Forall_impl; [|exact Henc]. now intros f [_ H]. }
  split; [|split].
  - apply cross_product_NoDup. apply Forall_map.
    eapply Forall_impl; [|exact Henc]. intros f [-> _]. apply classes_NoDup.
  - apply cross_product_In. unfold sample_key.
    clear Hidx Hne Hlen. induction Henc as [|f fs [Hc Hf] _ IH]; cbn [map]; constructor;
      [|exact IH].
    rewrite Hc. apply (sort_uniq_In scalar_leb scalar_eqb scalar_eqb_spec).
    apply nth_In. now rewrite Hf.
  - intros k Hk. apply (mask_selects rows n i k Hi Hlen Hne).
    rewrite (cross_product_length _ _ Hk). apply length_map.
Qed.

Lemma every_sample_in_one_subgroup_witness :
  let index := cross_product (map gf_classes sample_rows) in
  NoDup index /\ In (sample_key sample_rows 2) index /\
  forall k, In k index ->
    (nth 2 (_mask_from_tuple k sample_rows) false = true <-> k = sample_key sample_rows 2).
Proof.
  apply (every_sample_in_one_subgroup sample_rows _ 3 2).
  - reflexivity.
  - repeat constructor.
  - lia.
Defined.

(** ** The cells of [by_group] and [overall] *)

Lemma str_get_fmap {A B} (F : A -> B) name (cols : list (string * A)) :
  str_get name (map (fun c => (fst c, F (snd c))) cols)
  = option_map F (str_get name cols).
Proof.
  induction cols as [|[n vals] cols IH]; cbn [map str_get fst snd]; [reflexivity|].
  destruct (String.eqb name n); [reflexivity|exact IH].
Qed.

Lemma by_group_table c m y_t y_p s_f c_f s_p :
  compute m y_t y_p s_f c_f s_p = inr c ->
  c_by_group c
  = {| df_names := map (fun f => Some (gf_name f)) (by_group_rows c);
       df_index := cross_product (map gf_classes (by_group_rows c));
       df_columns :=
         map (fun nf => (fst nf,
                map (fun k => metric_on (snd nf) y_t y_p
                                (_mask_from_tuple k (by_group_rows c)))
                    (cross_product (map gf_classes (by_group_rows c)))))
             (c_func_dict c) |}.
Proof.
  intros Hc. apply compute_inv in Hc as (_ & _ & _ & _ & _ & Hg).
  unfold _compute_by_group in Hg. fold (by_group_rows c) in Hg.
  apply dataframe_from_rows_inv in Hg as (index & Hidx & -> & _).
  assert (index = cross_product (map gf_classes (by_group_rows c))) as ->.
  { unfold row_index in Hidx. destruct (by_group_rows c); [discriminate|congruence]. }
  f_equal. apply map_ext; intros nf. f_equal. apply map_ext; intros k.
  unfold compute_cell, metric_on.
  destruct (Nat.ltb 0 (mask_sum (_mask_from_tuple k (by_group_rows c)))); reflexivity.
Qed.

(** X14: what a cell of [by_group] holds.  The rows of the table are the
    tuples of classes of the features that [_process_features] extracts from
    the control features, followed by those it extracts from the sensitive
    features, and no other label has a cell; the cell of a row, for a metric
    function of the dict that [_process_functions] returned, is what the
    container of the function evaluates on the samples the mask of the row
    selects, and it is absent if the mask selects no sample. *)
Theorem by_group_cell_is_metric_on_subgroup m y_true y_pred sf cf sp mf sf_list cf_list :
  __init__ m y_true y_pred sf cf sp false = inr mf ->
  let y_t := _convert_to_ndarray_and_squeeze y_true in
  let y_p := _convert_to_ndarray_and_squeeze y_pred in
  _process_features "sensitive_feature_" sf y_t = inr sf_list ->
  (if is_none cf then inr [] else _process_features "control_feature_" cf y_t)
    = inr cf_list ->
  let rows := cf_list ++ sf_list in
  build_func_dict m sp = inr (func_dict mf) /\
  map gf_name rows = names_list (_cf_names mf) ++ names_list (_sf_names mf) /\
  exists v,
    by_group mf = (inr v, mf) /\
    (forall name fc row,
       str_get name (func_dict mf) = Some fc ->
       In row (cross_product (map gf_classes rows)) ->
       pd_get v row name = Some (metric_on fc y_t y_p (_mask_from_tuple row rows))) /\
    (forall name row,
       ~ In row (cross_product (map gf_classes rows)) -> pd_get v row name = None).
Proof.
  intros Hinit y_t y_p Hsf Hcf rows.
  apply init_direct_inv in Hinit as (_ & _ & c & Hc & ->).
  fold y_t y_p in Hc.
  destruct (by_group_rows_of_features _ _ _ _ _ _ _ _ _ Hc Hsf Hcf) as [Hrows Hcfl].
  fold rows in Hrows.
  pose proof (by_group_table _ _ _ _ _ _ _ Hc) as Ht. rewrite Hrows in Ht.
  pose proof (installed_shape c (blank m sf cf sp) _ _ _ _ _ Hc) as Hs.
  cbn [blank metric] in Hs.
  pose proof (compute_inv _ _ _ _ _ _ _ Hc) as (Hsf' & _ & _ & Hfd & _).
  rewrite Hsf in Hsf'. injection Hsf' as Hsfl.
  split; [exact Hfd|]. split.
  - cbn [install _cf_names _sf_names names_list]. unfold rows. rewrite Hcfl, <- Hsfl.
    destruct (is_none cf); cbn [option_map names_list app].
    + injection Hcf as <-. reflexivity.
    + apply map_app.
  - exists (by_group_value (c_by_group c) (negb (is_metric_dict m))).
    split; [exact (by_group_shaped _ _ _ Hs)|].
    cbn [install func_dict].
    assert (Hcell : forall name fc row,
              str_get name (c_func_dict c) = Some fc ->
              In row (cross_product (map gf_classes rows)) ->
              frame_get (c_by_group c) row name
              = Some (metric_on fc y_t y_p (_mask_from_tuple row rows))).
    { intros name fc row Hfc Hrow. rewrite Ht. unfold frame_get; cbn [df_columns df_index].
      rewrite (str_get_fmap (fun fc0 =>
                 map (fun k => metric_on fc0 _ _ (_mask_from_tuple k rows))
                     (cross_product (map gf_classes rows)))), Hfc.
      cbn [option_map]. now rewrite (lookup_key_map _ _ _ Hrow). }
    assert (Hout : forall name row,
              ~ In row (cross_product (map gf_classes rows)) ->
              frame_get (c_by_group c) row name = None).
    { intros name row Hrow. rewrite Ht. unfold frame_get; cbn [df_columns df_index].
      destruct (str_get name _); [|reflexivity]. now apply lookup_key_notin. }
    unfold by_group_value. destruct (negb (is_metric_dict m)) eqn:Hm.
    + destruct (sh_single _ _ _ Hs eq_refl) as (n & col & Hcols).
      assert (Hfirst : forall row name fc,
                str_get name (c_func_dict c) = Some fc ->
                frame_get (c_by_group c) row name
                = lookup_key row (df_index (c_by_group c)) (first_col (c_by_group c))).
      { intros row name fc Hfc. unfold frame_get, first_col. rewrite Hcols.
        rewrite Ht in Hcols. cbn [df_columns] in Hcols.
        destruct (c_func_dict c) as [|[n0 fc0] [|]]; cbn [map] in Hcols; try discriminate.
        injection Hcols as <- <-. cbn [str_get fst] in *.
        destruct (String.eqb name n0); [reflexivity|discriminate]. }
      cbn [pd_get s_index s_values]. split.
      * intros name fc row Hfc Hrow. rewrite <- (Hfirst row name fc Hfc).
        now apply Hcell.
      * intros name row Hrow. apply lookup_key_notin. now rewrite Ht.
    + cbn [pd_get]. split; [exact Hcell|exact Hout].
Qed.

Lemma by_group_cell_is_metric_on_subgroup_witness :
  let y_t := _convert_to_ndarray_and_squeeze six_labels in
  let y_p := _convert_to_ndarray_and_squeeze six_predictions in
  let rows := [six_strata_feature] ++ [six_groups_feature] in
  fst (by_group stratified)
  = inr (PdFrame
           {| df_names := [Some "control_feature_0"; Some "sensitive_feature_0"];
              df_index := [[SStr "x"; SStr "a"]; [SStr "x"; SStr "b"];
                           [SStr "y"; SStr "a"]; [SStr "y"; SStr "b"]];
              df_columns := [("acc", [Some (1 # 2)%Q; Some (1 # 1)%Q;
                                      Some (1 # 1)%Q; Some (1 # 2)%Q])] |}) /\
  build_func_dict (MDict [("acc", accuracy_score)]) PNone = inr (func_dict stratified) /\
  map gf_name rows
    = names_list (_cf_names stratified) ++ names_list (_sf_names stratified) /\
  exists v,
    by_group stratified = (inr v, stratified) /\
    (forall name fc row,
       str_get name (func_dict stratified) = Some fc ->
       In row (cross_product (map gf_classes rows)) ->
       pd_get v row name = Some (metric_on fc y_t y_p (_mask_from_tuple row rows))) /\
    (forall name row,
       ~ In row (cross_product (map gf_classes rows)) -> pd_get v row name = None).
Proof.
  cbv zeta. split; [vm_compute; reflexivity|].
  apply (by_group_cell_is_metric_on_subgroup (MDict [("acc", accuracy_score)])
           six_labels six_predictions six_groups six_strata PNone stratified
           [six_groups_feature] [six_strata_feature]).
  - exact stratified_built.
  - vm_compute; reflexivity.
  - vm_compute; reflexivity.
Defined.

Lemma rows_table fd y_t y_p rows df log :
  _compute_dataframe_from_rows fd y_t y_p rows = inr (df, log) ->
  rows <> [] /\
  df = {| df_names := map (fun f => Some (gf_name f)) rows;
          df_index := cross_product (map gf_classes rows);
          df_columns :=
            map (fun nf => (fst nf,
                   map (fun k => metric_on (snd nf) y_t y_p (_mask_from_tuple k rows))
                       (cross_product (map gf_classes rows))))
                fd |}.
Proof.
  intros Hg. apply dataframe_from_rows_inv in Hg as (index & Hidx & -> & _).
  assert (rows <> [] /\ index = cross_product (map gf_classes rows)) as [Hne ->].
  { unfold row_index in Hidx. destruct rows; [discriminate|]. split; congruence. }
  split; [exact Hne|].
  f_equal. apply map_ext; intros nf. f_equal. apply map_ext; intros k.
  unfold compute_cell, metric_on.
  destruct (Nat.ltb 0 (mask_sum (_mask_from_tuple k rows))); reflexivity.
Qed.

Lemma lookup_name_series {A B} (F : A -> B) name (fd : list (string * A)) :
  lookup_key [SStr name] (map (fun nf => [SStr (fst nf)]) fd) (map (fun nf => F (snd nf)) fd)
  = option_map F (str_get name fd).
Proof.
  induction fd as [|[n a] fd IH]; cbn [map lookup_key str_get fst snd]; [reflexivity|].
  cbn [key_eqb scalar_eqb]. rewrite andb_true_r.
  destruct (String.eqb name n); [reflexivity|exact IH].
Qed.

(** X15: what [overall] holds, for every metric function of the dict that
    [_process_functions] returned.  Without control features it is what
    [evaluate_all] of the container gives on all labels and predictions; with
    control features its rows are the tuples of classes of the features that
    [_process_features] extracts from them, and the cell of a row is what the
    container evaluates on the samples of that control group, absent if there
    is none. *)
Theorem overall_is_metric_on_all_or_control_group m y_true y_pred sf cf sp mf :
  __init__ m y_true y_pred sf cf sp false = inr mf ->
  let y_t := _convert_to_ndarray_and_squeeze y_true in
  let y_p := _convert_to_ndarray_and_squeeze y_pred in
  build_func_dict m sp = inr (func_dict mf) /\
  exists v,
    overall mf = (inr v, mf) /\
    (is_none cf = true ->
       forall name fc,
         str_get name (func_dict mf) = Some fc ->
         pd_get v [SStr name] name = Some (Some (fst (evaluate_all fc y_t y_p)))) /\
    (is_none cf = false ->
       exists cf_list,
         _process_features "control_feature_" cf y_t = inr cf_list /\
         map gf_name cf_list = names_list (_cf_names mf) /\
         (forall name fc row,
            str_get name (func_dict mf) = Some fc ->
            In row (cross_product (map gf_classes cf_list)) ->
            pd_get v row name
            = Some (metric_on fc y_t y_p (_mask_from_tuple row cf_list))) /\
         (forall name row,
            ~ In row (cross_product (map gf_classes cf_list)) ->
            pd_get v row name = None)).
Proof.
  intros Hinit y_t y_p.
  apply init_direct_inv in Hinit as (_ & _ & c & Hc & ->).
  fold y_t y_p in Hc.
  pose proof (compute_inv _ _ _ _ _ _ _ Hc) as (_ & Hcf & _ & Hfd & Ho & _).
  destruct (build_func_dict_shape _ _ _ Hfd) as [Hnd Hone].
  split; [exact Hfd|].
  set (s := install c (blank m sf cf sp)).
  assert (Hov : _overall s = Some (c_overall c)) by reflexivity.
  assert (Hval : exists v, fst (overall s) = inr v /\
            (is_none cf = true ->
               forall name fc,
                 str_get name (c_func_dict c) = Some fc ->
                 pd_get v [SStr name] name = Some (Some (fst (evaluate_all fc y_t y_p)))) /\
            (is_none cf = false ->
               exists cf_list,
                 _process_features "control_feature_" cf y_t = inr cf_list /\
                 map gf_name cf_list = names_list (_cf_names s) /\
                 (forall name fc row,
                    str_get name (c_func_dict c) = Some fc ->
                    In row (cross_product (map gf_classes cf_list)) ->
                    pd_get v row name
                    = Some (metric_on fc y_t y_p (_mask_from_tuple row cf_list))) /\
                 (forall name row,
                    ~ In row (cross_product (map gf_classes cf_list)) ->
                    pd_get v row name = None))).
  { unfold s. rewrite overall_installed. cbn [blank metric].
    destruct (is_none cf) eqn:Hn.
    - rewrite Hcf in *. cbn [_compute_overall] in Ho. injection Ho as Ho _.
      rewrite <- Ho. cbn [option_map names_truthy collapse_value].
      destruct (is_metric_dict m) eqn:Hm; cbn [negb].
      + eexists; split; [reflexivity|]. split; [intros _|discriminate].
        intros name fc Hfc.
        cbn [pd_get s_index s_values]. rewrite map_map.
        rewrite (lookup_name_series (fun fc0 => Some (fst (evaluate_all fc0 y_t y_p)))), Hfc.
        reflexivity.
      + destruct (Hone eq_refl) as (n & fc0 & Hfd'). rewrite Hfd'.
        cbn [map iloc0 s_values rbind fst snd evaluate_all].
        eexists; split; [reflexivity|]. split; [intros _|discriminate].
        intros name fc Hfc.
        cbn [str_get] in Hfc. destruct (String.eqb name n); [|discriminate].
        injection Hfc as <-. reflexivity.
    - destruct Hcf as (cfl & Hp & Hcfl). rewrite Hcfl in *.
      cbn [_compute_overall] in Ho.
      destruct (_compute_dataframe_from_rows _ _ _ cfl) as [e|[df log]] eqn:Hdf;
        cbn [rbind fst snd] in Ho; [discriminate|].
      injection Ho as Ho _.
      apply rows_table in Hdf as [Hne Hdf].
      rewrite <- Ho. cbn [option_map install _cf_names names_list].
      assert (Htruthy : names_truthy (Some (map gf_name cfl)) = true).
      { destruct cfl; [congruence|reflexivity]. }
      rewrite ?Hcfl. unfold collapse_value. rewrite Htruthy.
      assert (Hcell : forall name fc row,
                str_get name (c_func_dict c) = Some fc ->
                In row (cross_product (map gf_classes cfl)) ->
                frame_get df row name
                = Some (metric_on fc y_t y_p (_mask_from_tuple row cfl))).
      { intros name fc row Hfc Hrow. rewrite Hdf. unfold frame_get; cbn [df_columns df_index].
        rewrite (str_get_fmap (fun fc0 =>
                   map (fun k => metric_on fc0 y_t y_p (_mask_from_tuple k cfl))
                       (cross_product (map gf_classes cfl)))), Hfc.
        cbn [option_map]. now rewrite (lookup_key_map _ _ _ Hrow). }
      assert (Hout : forall name row,
                ~ In row (cross_product (map gf_classes cfl)) ->
                frame_get df row name = None).
      { intros name row Hrow. rewrite Hdf. unfold frame_get; cbn [df_columns df_index].
        destruct (str_get name _); [|reflexivity]. now apply lookup_key_notin. }
      destruct (is_metric_dict m) eqn:Hm; cbn [negb].
      + eexists; split; [reflexivity|]. split; [discriminate|intros _].
        exists cfl. split; [exact Hp|]. split; [reflexivity|].
        cbn [pd_get]. split; [exact Hcell|exact Hout].
      + destruct (Hone eq_refl) as (n & fc0 & Hfd').
        assert (Hcols : df_columns df
                        = [(n, map (fun k => metric_on fc0 y_t y_p (_mask_from_tuple k cfl))
                                   (cross_product (map gf_classes cfl)))]).
        { rewrite Hdf, Hfd'. reflexivity. }
        unfold iloc_col0. rewrite Hcols. cbn [rbind].
        eexists; split; [reflexivity|]. split; [discriminate|intros _].
        exists cfl. split; [exact Hp|]. split; [reflexivity|].
        cbn [pd_get s_index s_values]. split.
        * intros name fc row Hfc Hrow.
          rewrite Hfd' in Hfc. cbn [str_get] in Hfc.
          destruct (String.eqb name n); [|discriminate]. injection Hfc as <-.
          rewrite Hdf. cbn [df_index]. now rewrite (lookup_key_map _ _ _ Hrow).
        * intros name row Hrow. apply lookup_key_notin. now rewrite Hdf. }
  destruct Hval as (v & Hv & Hcells). exists v. split; [|exact Hcells].
  pose proof (overall_with_cache s _ Hov) as Hw.
  pose proof (overall_cached_keeps_frame s _ Hov) as Hk. rewrite <- Hw in Hk.
  destruct (overall s) as [r s'] eqn:E. cbn [fst snd] in *. now subst.
Qed.

Lemma overall_is_metric_on_all_or_control_group_witness :
  fst (overall stratified)
  = inr (PdFrame {| df_names := [Some "control_feature_0"];
                    df_index := [[SStr "x"]; [SStr "y"]];
                    df_columns := [("acc", [Some (2 # 3)%Q; Some (2 # 3)%Q])] |}) /\
  let y_t := _convert_to_ndarray_and_squeeze six_labels in
  let y_p := _convert_to_ndarray_and_squeeze six_predictions in
  build_func_dict (MDict [("acc", accuracy_score)]) PNone = inr (func_dict stratified) /\
  exists v,
    overall stratified = (inr v, stratified) /\
    (is_none six_strata = true ->
       forall name fc,
         str_get name (func_dict stratified) = Some fc ->
         pd_get v [SStr name] name = Some (Some (fst (evaluate_all fc y_t y_p)))) /\
    (is_none six_strata = false ->
       exists cf_list,
         _process_features "control_feature_" six_strata y_t = inr cf_list /\
         map gf_name cf_list = names_list (_cf_names stratified) /\
         (forall name fc row,
            str_get name (func_dict stratified) = Some fc ->
            In row (cross_product (map gf_classes cf_list)) ->
            pd_get v row name
            = Some (metric_on fc y_t y_p (_mask_from_tuple row cf_list))) /\
         (forall name row,
            ~ In row (cross_product (map gf_classes cf_list)) ->
            pd_get v row name = None)).
Proof.
  split; [vm_compute; reflexivity|].
  exact (overall_is_metric_on_all_or_control_group _ _ _ _ _ _ _ stratified_built).
Defined.

Lemma rows_log_masks fd y_t y_p rows df log c :
  _compute_dataframe_from_rows fd y_t y_p rows = inr (df, log) -> In c log ->
  exists mask, call_mask c = Some mask /\ 0 < mask_sum mask.
Proof.
  intros H Hc. apply dataframe_from_rows_inv in H as (index & _ & _ & ->).
  apply in_concat in Hc as (l & Hl & Hc). apply in_map_iff in Hl as (nf & <- & _).
  apply in_concat in Hc as (l & Hl & Hc). apply in_map_iff in Hl as (k & <- & _).
  exact (compute_cell_calls _ _ _ _ _ _ Hc).
Qed.

(** X16: no metric call on an empty subgroup.  Every call of a metric
    function that a construction makes is either a call on the whole dataset,
    made only when there are no control features, or a call for a mask that
    selects at least one sample. *)
Theorem metric_never_called_on_empty_subgroup m y_true y_pred sf cf sp mf :
  __init__ m y_true y_pred sf cf sp false = inr mf ->
  forall c, In c (calls mf) ->
    match call_mask c with
    | Some mask => 0 < mask_sum mask
    | None => is_none cf = true
    end.
Proof.
  intros H c Hc. apply init_direct_inv in H as (_ & _ & cm & Hcm & ->).
  apply compute_inv in Hcm as (_ & Hcf & _ & _ & Ho & Hg).
  cbn [install calls blank app] in Hc. apply in_app_iff in Hc as [Hc|Hc].
  - destruct (is_none cf).
    + rewrite Hcf in Ho. cbn [_compute_overall] in Ho. injection Ho as _ Ho.
      rewrite <- Ho in Hc. rewrite map_map in Hc. apply in_map_iff in Hc as (nf & <- & _).
      reflexivity.
    + destruct Hcf as (cfl & _ & Hcfl). rewrite Hcfl in Ho. cbn [_compute_overall] in Ho.
      destruct (_compute_dataframe_from_rows _ _ _ cfl) as [e|[df log]] eqn:Hdf;
        cbn [rbind fst snd] in Ho; [discriminate|].
      injection Ho as _ Ho. rewrite <- Ho in Hc.
      destruct (rows_log_masks _ _ _ _ _ _ _ Hdf Hc) as (mask & -> & Hm). exact Hm.
  - unfold _compute_by_group in Hg.
    destruct (rows_log_masks _ _ _ _ _ _ _ Hg Hc) as (mask & -> & Hm). exact Hm.
Qed.

Lemma metric_never_called_on_empty_subgroup_witness :
  length (calls stratified) = 6 /\
  forall c, In c (calls stratified) ->
    match call_mask c with
    | Some mask => 0 < mask_sum mask
    | None => is_none six_strata = true
    end.
Proof.
  split; [vm_compute; reflexivity|].
  exact (metric_never_called_on_empty_subgroup _ _ _ _ _ _ _ stratified_built).
Defined.

(** ** Subgroups without samples in a constructed frame (C4) *)

Lemma lookup_key_map_inv {C} (f : key -> C) k idx x :
  lookup_key k idx (map f idx) = Some x -> In k idx /\ x = f k.
Proof.
  induction idx as [|k' idx IH]; cbn [map lookup_key In]; [discriminate|].
  destruct (key_eqb_spec k k') as [->|Hne].
  - intros [= <-]. split; [now left|reflexivity].
  - intros H. destruct (IH H) as [Hin ->]. split; [now right|reflexivity].
Qed.

Lemma rows_of_group_notin {C} pk (vals : list C) g :
  ~ In g pk -> rows_of_group pk vals g = [].
Proof.
  unfold rows_of_group. revert vals; induction pk as [|k pk IH]; intros [|v vals] Hn;
    cbn [combine filter map fst]; try reflexivity.
  destruct (key_eqb_spec g k) as [->|Hne]; [exfalso; apply Hn; now left|].
  apply IH. intros Hin; apply Hn; now right.
Qed.

Lemma length_drop_values {C} (p : key -> bool) idx (vals : list C) :
  length vals = length idx ->
  length (map snd (filter (fun kv => p (fst kv)) (combine idx vals)))
  = length (filter p idx).
Proof.
  revert vals; induction idx as [|k idx IH]; intros [|v vals]; cbn [length combine filter map];
    try reflexivity; try discriminate.
  intros [= Hl]. cbn [fst]. destruct (p k); cbn [map length]; now rewrite IH.
Qed.

(** The table without a row keeps the shape the reads rely on. *)
Lemma drop_row_shape mf g usc row :
  Shape mf g usc ->
  Shape (set_by_group (Some (drop_row row g)) mf) (drop_row row g) usc.
Proof.
  intros [Ho Hg Hu Hlv Hnd Hlen Hone Hproj].
  split; cbn [set_by_group _overall _by_group _user_supplied_callable _cf_names].
  - exact Ho.
  - reflexivity.
  - exact Hu.
  - exact Hlv.
  - unfold drop_row; cbn [df_columns]. rewrite map_map; cbn [fst]. exact Hnd.
  - unfold drop_row; cbn [df_columns df_index]. intros c Hc.
    apply in_map_iff in Hc as (c0 & <- & Hc0). cbn [snd].
    apply (length_drop_values (fun k => negb (key_eqb row k))). now apply Hlen.
  - intros Hu'. destruct (Hone Hu') as (n & col & Hcols).
    unfold drop_row; cbn [df_columns]. rewrite Hcols. cbn [map]. eauto.
  - intros levels Hcf Hn k Hk. unfold drop_row in *; cbn [df_names df_index] in *.
    apply filter_In in Hk as [Hk _]. exact (Hproj levels Hcf Hn k Hk).
Qed.

Lemma first_col_drop_row {C} row (g : DataFrame C) :
  first_col (drop_row row g) = without_row row (df_index g) (first_col g).
Proof.
  unfold first_col, drop_row, without_row; cbn [df_columns].
  destruct (df_columns g) as [|[n vals] cols]; cbn [map fst snd]; [|reflexivity].
  now destruct (df_index g).
Qed.

Section WithoutEmptyRow.
Variables (f : Q -> Q -> Q) (row : key) (g : DataFrame cell).
Hypothesis Hlen : forall c, In c (df_columns g) -> length (snd c) = length (df_index g).
Hypothesis Habs : forall c kv,
    In c (df_columns g) -> In kv (combine (df_index g) (snd c)) ->
    key_eqb row (fst kv) = true -> snd kv = None.

Let agg (l : list cell) : cell := fold_left (skipna f) l None.

Lemma first_col_without_row :
  agg (without_row row (df_index g) (first_col g)) = agg (first_col g).
Proof.
  pose proof Hlen as Hl. pose proof Habs as Ha. clear Hlen Habs.
  unfold first_col. destruct (df_columns g) as [|[n vals] cols].
  - unfold without_row. now destruct (df_index g).
  - apply whole_reduction_without_row.
    + apply (Hl (n, vals)). now left.
    + intros kv. apply (Ha (n, vals)). now left.
Qed.

Lemma group_without_row proj c k :
  In c (df_columns g) ->
  agg (rows_of_group (map proj (filter (fun k0 => negb (key_eqb row k0)) (df_index g)))
         (without_row row (df_index g) (snd c)) k)
  = agg (rows_of_group (map proj (df_index g)) (snd c) k).
Proof.
  intros Hc. apply (group_reduction_without_row f row proj).
  - now apply Hlen.
  - intros kv. now apply (Habs c).
Qed.

Lemma group_first_col_without_row proj k :
  df_columns g <> [] ->
  agg (rows_of_group (map proj (filter (fun k0 => negb (key_eqb row k0)) (df_index g)))
         (without_row row (df_index g) (first_col g)) k)
  = agg (rows_of_group (map proj (df_index g)) (first_col g) k).
Proof.
  intros Hne. pose proof (group_without_row proj) as Hg. clear Hlen Habs.
  unfold first_col. destruct (df_columns g) as [|[n vals] cols]; [congruence|].
  apply (Hg (n, vals)). now left.
Qed.

(** A group of the table without the row is a group of the table. *)
Lemma group_keys_without_row proj k :
  In k (group_keys true (map proj (filter (fun k0 => negb (key_eqb row k0)) (df_index g)))) ->
  In k (group_keys true (map proj (df_index g))).
Proof.
  rewrite !group_keys_In, !in_map_iff.
  intros (x & <- & Hx). exists x. split; [reflexivity|]. now apply filter_In in Hx.
Qed.

(** The reduction of one group, looked up in the table and in the table
    without the row. *)
Lemma lookup_group_without_row proj vals vals' k :
  (forall x, agg (rows_of_group
                    (map proj (filter (fun k0 => negb (key_eqb row k0)) (df_index g))) vals' x)
             = agg (rows_of_group (map proj (df_index g)) vals x)) ->
  let pk := map proj (df_index g) in
  let pk' := map proj (filter (fun k0 => negb (key_eqb row k0)) (df_index g)) in
  let look := lookup_key k (group_keys true pk)
                (map (fun x => agg (rows_of_group pk vals x)) (group_keys true pk)) in
  let look' := lookup_key k (group_keys true pk')
                 (map (fun x => agg (rows_of_group pk' vals' x)) (group_keys true pk')) in
  (forall x, look' = Some x -> look = Some x) /\
  (forall q, look = Some (Some q) -> look' = Some (Some q)).
Proof.
  intros Heq. cbv zeta.
  set (pk := map proj (df_index g)).
  set (pk' := map proj (filter (fun k0 => negb (key_eqb row k0)) (df_index g))).
  fold pk pk' in Heq. split.
  - intros x Hx. apply lookup_key_map_inv in Hx as [Hin ->].
    rewrite (lookup_key_map _ k _ (group_keys_without_row proj k Hin)).
    now rewrite Heq.
  - intros q Hq. apply lookup_key_map_inv in Hq as [Hin Hq].
    destruct (in_dec (fun a b => reflect_dec _ _ (key_eqb_spec a b)) k (group_keys true pk'))
      as [Hin'|Hout].
    + rewrite (lookup_key_map _ k _ Hin'). now rewrite Heq, <- Hq.
    + exfalso. rewrite group_keys_In in Hout.
      specialize (Heq k).
      rewrite (rows_of_group_notin pk' vals' k Hout) in Heq.
      rewrite <- Heq in Hq. discriminate.
Qed.
End WithoutEmptyRow.

(** [group_max] and [group_min] skip a row whose cells are all absent: cell
    by cell, the reduction of the table without the row is the reduction of
    the table, and every value of the latter is found in the former. *)
Lemma group_value_without_row f (g : DataFrame cell) cfn usc row k name :
  (forall c, In c (df_columns g) -> length (snd c) = length (df_index g)) ->
  (forall c kv, In c (df_columns g) -> In kv (combine (df_index g) (snd c)) ->
                key_eqb row (fst kv) = true -> snd kv = None) ->
  (usc = true -> df_columns g <> []) ->
  let agg := fun l : list cell => fold_left (skipna f) l None in
  (forall x, pd_get (group_value agg (drop_row row g) cfn usc) k name = Some x ->
             pd_get (group_value agg g cfn usc) k name = Some x) /\
  (forall q, pd_get (group_value agg g cfn usc) k name = Some (Some q) ->
             pd_get (group_value agg (drop_row row g) cfn usc) k name = Some (Some q)).
Proof.
  intros Hlen Habs Hone agg. unfold group_value.
  destruct cfn as [levels|], usc; cbn [pd_get s_index s_values].
  - (* one function, control levels *)
    rewrite first_col_drop_row. unfold groupby_level, groupby_index.
    cbn [drop_row df_names df_index].
    apply (lookup_group_without_row f row g (project (df_names g) levels)).
    intros x. apply (group_first_col_without_row f row g Hlen Habs). now apply Hone.
  - (* several functions, control levels *)
    unfold frame_get, df_groupby; cbn [df_columns df_index df_names drop_row].
    unfold groupby_level, groupby_index.
    set (pk := map (project (df_names g) levels) (df_index g)).
    set (pk' := map (project (df_names g) levels)
                    (filter (fun k0 => negb (key_eqb row k0)) (df_index g))).
    rewrite (str_get_map (fun vals => map (fun x => agg (rows_of_group pk' vals x))
                                          (group_keys true pk'))).
    rewrite (str_get_map (fun vals => map (fun x => agg (rows_of_group pk vals x))
                                          (group_keys true pk))).
    rewrite (str_get_map (fun vals =>
               map snd (filter (fun kv => negb (key_eqb row (fst kv)))
                               (combine (df_index g) vals)))).
    destruct (str_get name (df_columns g)) as [vals|] eqn:Es; cbn [option_map];
      [|split; intros; discriminate].
    apply (lookup_group_without_row f row g (project (df_names g) levels)).
    intros x. apply (group_without_row f row g Hlen Habs _ (name, vals)).
    now apply str_get_In.
  - (* one function, no control levels *)
    rewrite first_col_drop_row.
    change (fold_left (skipna f) (without_row row (df_index g) (first_col g)) None)
      with (agg (without_row row (df_index g) (first_col g))).
    unfold agg. rewrite (first_col_without_row f row g Hlen Habs). now split.
  - (* several functions, no control levels *)
    assert (Hred : df_reduce agg (drop_row row g) = df_reduce agg g).
    { unfold df_reduce, drop_row; cbn [df_columns df_index df_names].
      rewrite !map_map; cbn [fst snd]. f_equal.
      apply map_ext_in; intros c Hc.
      apply whole_reduction_without_row; [now apply Hlen|]. intros kv. now apply (Habs c). }
    rewrite Hred. now split.
Qed.

Lemma str_get_of_name {V} name (d : list (string * V)) :
  In name (map fst d) -> exists v, str_get name d = Some v.
Proof.
  induction d as [|[n v] d IH]; cbn [map fst In str_get]; [tauto|].
  destruct (String.eqb_spec name n) as [->|Hne]; [eauto|].
  intros [->|Hin]; [congruence|now apply IH].
Qed.

Lemma metric_on_empty fc y_t y_p mask :
  mask_sum mask = 0 -> metric_on fc y_t y_p mask = None.
Proof. intros H. unfold metric_on. now rewrite H. Qed.

(** C4: in a constructed frame, a row of the [by_group] table whose
    combined mask selects no sample has an absent cell under every metric
    function, and no call of a metric function was made for its mask.
    [group_max] and [group_min] leave the row out: they return, and so do
    they on the frame whose table lacks the row; every cell of the reduction
    without the row is the cell that [group_max] (or [group_min]) of the
    frame returns, and every value the frame returns is found without the
    row.  The rows are the tuples of classes of the features that
    [_process_features] extracts from the control and the sensitive
    features. *)
Theorem empty_subgroup_absent_and_skipped m y_true y_pred sf cf sp mf sf_list cf_list
    row_curr :
  __init__ m y_true y_pred sf cf sp false = inr mf ->
  let y_t := _convert_to_ndarray_and_squeeze y_true in
  _process_features "sensitive_feature_" sf y_t = inr sf_list ->
  (if is_none cf then inr [] else _process_features "control_feature_" cf y_t)
    = inr cf_list ->
  let rows := cf_list ++ sf_list in
  In row_curr (cross_product (map gf_classes rows)) ->
  mask_sum (_mask_from_tuple row_curr rows) = 0 ->
  exists g v hi lo hi' lo',
    _by_group mf = Some g /\ In row_curr (df_index g) /\
    by_group mf = (inr v, mf) /\
    (forall name, In name (map fst (func_dict mf)) -> pd_get v row_curr name = Some None) /\
    (forall c, In c (calls mf) -> call_mask c <> Some (_mask_from_tuple row_curr rows)) /\
    let mf' := set_by_group (Some (drop_row row_curr g)) mf in
    group_max mf = (inr hi, mf) /\ group_min mf = (inr lo, mf) /\
    group_max mf' = (inr hi', mf') /\ group_min mf' = (inr lo', mf') /\
    forall k name,
      (forall x, pd_get hi' k name = Some x -> pd_get hi k name = Some x) /\
      (forall q, pd_get hi k name = Some (Some q) -> pd_get hi' k name = Some (Some q)) /\
      (forall x, pd_get lo' k name = Some x -> pd_get lo k name = Some x) /\
      (forall q, pd_get lo k name = Some (Some q) -> pd_get lo' k name = Some (Some q)).
Proof.
  intros Hinit y_t Hsf Hcf rows Hin Hempty.
  apply init_direct_inv in Hinit as (_ & _ & c & Hc & ->).
  fold y_t in Hc.
  destruct (by_group_rows_of_features _ _ _ _ _ _ _ _ _ Hc Hsf Hcf) as [Hrows Hcfl].
  fold rows in Hrows.
  pose proof (by_group_table _ _ _ _ _ _ _ Hc) as Ht. rewrite Hrows in Ht.
  pose proof (installed_shape c (blank m sf cf sp) _ _ _ _ _ Hc) as Hs.
  cbn [blank metric] in Hs.
  set (usc := negb (is_metric_dict m)) in *.
  set (mf := install c (blank m sf cf sp)) in *.
  set (index := cross_product (map gf_classes rows)) in *.
  set (h := fun fc k => metric_on fc y_t (_convert_to_ndarray_and_squeeze y_pred)
                          (_mask_from_tuple k rows)).
  assert (Hcols : df_columns (c_by_group c)
                  = map (fun nf => (fst nf, map (h (snd nf)) index)) (c_func_dict c))
    by (now rewrite Ht).
  assert (Hidx : df_index (c_by_group c) = index) by (now rewrite Ht).
  assert (Hnone : forall fc, h fc row_curr = None)
    by (intros fc; now apply metric_on_empty).
  assert (Habs : forall col kv,
             In col (df_columns (c_by_group c)) ->
             In kv (combine (df_index (c_by_group c)) (snd col)) ->
             key_eqb row_curr (fst kv) = true -> snd kv = None).
  { intros col kv Hcol Hkv Hk. rewrite Hcols in Hcol. rewrite Hidx in Hkv.
    apply in_map_iff in Hcol as (nf & <- & _). cbn [snd] in Hkv.
    rewrite combine_self_map in Hkv. apply in_map_iff in Hkv as (x & <- & _).
    cbn [fst snd] in *. destruct (key_eqb_spec row_curr x) as [Hx|]; [|discriminate].
    rewrite <- Hx. apply Hnone. }
  assert (Hone : usc = true -> df_columns (c_by_group c) <> []).
  { intros Hu. destruct (sh_single _ _ _ Hs Hu) as (n & col & ->). discriminate. }
  exists (c_by_group c), (by_group_value (c_by_group c) usc),
         (group_value col_max (c_by_group c) (_cf_names mf) usc),
         (group_value col_min (c_by_group c) (_cf_names mf) usc),
         (group_value col_max (drop_row row_curr (c_by_group c)) (_cf_names mf) usc),
         (group_value col_min (drop_row row_curr (c_by_group c)) (_cf_names mf) usc).
  split; [reflexivity|]. split; [now rewrite Hidx|].
  split; [exact (by_group_shaped _ _ _ Hs)|]. split; [|split].
  - (* the cell is absent *)
    intros name Hname.
    change (func_dict mf) with (c_func_dict c) in Hname.
    destruct (str_get_of_name _ _ Hname) as [fc Hfc].
    unfold by_group_value. destruct usc; cbn [pd_get s_index s_values].
    + unfold first_col. rewrite Hcols, Hidx.
      destruct (c_func_dict c) as [|nf fd] eqn:Efd; [discriminate|]. cbn [map].
      now rewrite (lookup_key_map _ _ _ Hin), Hnone.
    + unfold frame_get. rewrite Hcols, Hidx.
      rewrite (str_get_fmap (fun fc0 => map (h fc0) index)), Hfc. cbn [option_map].
      now rewrite (lookup_key_map _ _ _ Hin), Hnone.
  - (* no call for the mask *)
    intros c0 Hc0 Heq.
    assert (Hmask : forall mask, call_mask c0 = Some mask -> 0 < mask_sum mask).
    { apply compute_inv in Hc as (_ & Hcf' & _ & _ & Ho & Hg).
      cbn [install calls blank app] in Hc0. apply in_app_iff in Hc0 as [Hc0|Hc0].
      - destruct (is_none cf).
        + rewrite Hcf' in Ho. cbn [_compute_overall] in Ho. injection Ho as _ Ho.
          rewrite <- Ho in Hc0. rewrite map_map in Hc0.
          apply in_map_iff in Hc0 as (nf & <- & _). discriminate.
        + destruct Hcf' as (cfl & _ & Hcfl'). rewrite Hcfl' in Ho.
          cbn [_compute_overall] in Ho.
          destruct (_compute_dataframe_from_rows _ _ _ cfl) as [e|[df log]] eqn:Hdf;
            cbn [rbind fst snd] in Ho; [discriminate|].
          injection Ho as _ Ho. rewrite <- Ho in Hc0.
          destruct (rows_log_masks _ _ _ _ _ _ _ Hdf Hc0) as (mask & -> & Hm).
          now intros ? [= <-].
      - unfold _compute_by_group in Hg.
        destruct (rows_log_masks _ _ _ _ _ _ _ Hg Hc0) as (mask & -> & Hm).
        now intros ? [= <-]. }
    specialize (Hmask _ Heq). lia.
  - (* the reductions *)
    cbv zeta.
    pose proof (drop_row_shape _ _ _ row_curr Hs) as Hs'.
    split; [exact (group_agg_shaped col_max _ _ _ Hs)|].
    split; [exact (group_agg_shaped col_min _ _ _ Hs)|].
    split; [exact (group_agg_shaped col_max _ _ _ Hs')|].
    split; [exact (group_agg_shaped col_min _ _ _ Hs')|].
    intros k name.
    destruct (group_value_without_row qmax (c_by_group c) (_cf_names mf) usc row_curr k name
                (sh_lengths _ _ _ Hs) Habs Hone) as [Hmax1 Hmax2].
    destruct (group_value_without_row qmin (c_by_group c) (_cf_names mf) usc row_curr k name
                (sh_lengths _ _ _ Hs) Habs Hone) as [Hmin1 Hmin2].
    repeat split; assumption.
Qed.

Lemma empty_subgroup_absent_and_skipped_witness :
  let rows := [gapped_strata_feature] ++ [gapped_groups_feature] in
  let row_curr := [SStr "y"; SStr "b"] in
  fst (by_group gapped)
  = inr (PdSeries
           {| s_names := [Some "control_feature_0"; Some "sensitive_feature_0"];
              s_index := [[SStr "x"; SStr "a"]; [SStr "x"; SStr "b"];
                          [SStr "y"; SStr "a"]; [SStr "y"; SStr "b"]];
              s_values := [Some (1 # 1)%Q; Some (0 # 1)%Q; Some (1 # 1)%Q; None] |}) /\
  fst (group_min gapped)
  = inr (PdSeries {| s_names := [Some "control_feature_0"];
                     s_index := [[SStr "x"]; [SStr "y"]];
                     s_values := [Some (0 # 1)%Q; Some (1 # 1)%Q] |}) /\
  length (calls gapped) = 5 /\
  exists g v hi lo hi' lo',
    _by_group gapped = Some g /\ In row_curr (df_index g) /\
    by_group gapped = (inr v, gapped) /\
    (forall name, In name (map fst (func_dict gapped)) ->
       pd_get v row_curr name = Some None) /\
    (forall c, In c (calls gapped) ->
       call_mask c <> Some (_mask_from_tuple row_curr rows)) /\
    let mf' := set_by_group (Some (drop_row row_curr g)) gapped in
    group_max gapped = (inr hi, gapped) /\ group_min gapped = (inr lo, gapped) /\
    group_max mf' = (inr hi', mf') /\ group_min mf' = (inr lo', mf') /\
    forall k name,
      (forall x, pd_get hi' k name = Some x -> pd_get hi k name = Some x) /\
      (forall q, pd_get hi k name = Some (Some q) -> pd_get hi' k name = Some (Some q)) /\
      (forall x, pd_get lo' k name = Some x -> pd_get lo k name = Some x) /\
      (forall q, pd_get lo k name = Some (Some q) -> pd_get lo' k name = Some (Some q)).
Proof.
  cbv zeta. split; [vm_compute; reflexivity|]. split; [vm_compute; reflexivity|].
  split; [vm_compute; reflexivity|].
  apply (empty_subgroup_absent_and_skipped (MCallable accuracy_score)
           (PList [PI 0; PI 1; PI 0]) (PList [PI 0; PI 1; PI 1])
           (PList [PS "a"; PS "a"; PS "b"]) (PList [PS "x"; PS "y"; PS "x"]) PNone gapped
           [gapped_groups_feature] [gapped_strata_feature] [SStr "y"; SStr "b"]).
  - vm_compute; reflexivity.
  - vm_compute; reflexivity.
  - vm_compute; reflexivity.
  - vm_compute. tauto.
  - vm_compute; reflexivity.
Defined.

(** ** Ranges and kinds of the aggregations *)

Lemma lookup_key_In {C} k idx (vals : list C) c :
  lookup_key k idx vals = Some c -> In c vals.
Proof.
  revert vals; induction idx as [|k' idx IH]; intros [|v vals]; cbn [lookup_key];
    try discriminate.
  destruct (key_eqb k k'); [intros [= ->]; now left|].
  intros H; right; now apply IH.
Qed.

Lemma rows_of_group_In {C} pk (vals : list C) g c :
  In c (rows_of_group pk vals g) -> In c vals.
Proof.
  unfold rows_of_group. rewrite in_map_iff. intros ([k v] & <- & Hin).
  apply filter_In in Hin as [Hin _]. now apply in_combine_r in Hin.
Qed.

Lemma fold_qmax_In r x : In (fold_left qmax r x) (x :: r).
Proof.
  revert x; induction r as [|y r IH]; intros x; cbn [fold_left]; [now left|].
  destruct (IH (qmax x y)) as [H|H]; [|right; now right].
  rewrite <- H. unfold qmax. destruct (Qle_bool x y); [right; now left|now left].
Qed.

Lemma values_In l q : In q (values l) <-> In (Some q) l.
Proof.
  unfold values. rewrite in_flat_map. split.
  - intros ([x|] & Hin & Hq); cbn in Hq; [|tauto]. destruct Hq as [<-|[]]. exact Hin.
  - intros Hin. exists (Some q). split; [exact Hin|now left].
Qed.

(** A reduction that skips absent cells returns one of the values of the
    column. *)
Lemma col_max_In l q : col_max l = Some q -> In (Some q) l.
Proof.
  unfold col_max. rewrite col_fold. destruct (values l) as [|x r] eqn:Hv; [discriminate|].
  intros [= <-]. apply values_In. rewrite Hv. apply fold_qmax_In.
Qed.

Lemma col_max_nonneg l : Forall nonneg l -> nonneg (col_max l).
Proof.
  intros H. destruct (col_max l) as [q|] eqn:E; [|exact I].
  apply col_max_In in E. rewrite Forall_forall in H. exact (H _ E).
Qed.

Lemma abs_cells_nonneg (l : list cell) : Forall nonneg (map cell_abs l).
Proof.
  apply Forall_forall. intros c Hc. apply in_map_iff in Hc as ([q|] & <- & _); cbn.
  - apply Qabs_nonneg.
  - exact I.
Qed.

Lemma sublist_nonneg (l l' : list cell) :
  (forall c, In c l' -> In c l) -> Forall nonneg l -> Forall nonneg l'.
Proof. rewrite !Forall_forall. auto. Qed.

(** Every cell of the largest absolute value, overall or by level, is
    absent or not negative. *)
Lemma reduce_abs_nonneg levels (x : pdobj cell) k name c :
  pd_get (reduce_level col_max levels (pd_map cell_abs x)) k name = Some c -> nonneg c.
Proof.
  destruct x as [c0|s|d], levels as [lv|];
    cbn [pd_map reduce_level pd_get s_values s_index s_names df_columns df_index df_names].
  - intros [= <-]. destruct c0; cbn; [apply Qabs_nonneg|exact I].
  - intros [= <-]. destruct c0; cbn; [apply Qabs_nonneg|exact I].
  - unfold s_groupby; cbn [s_values s_index s_names]. intros H.
    apply lookup_key_In in H. unfold groupby_level in H.
    apply in_map_iff in H as (g & <- & _).
    apply col_max_nonneg.
    apply (sublist_nonneg (map cell_abs (s_values s))); [|apply abs_cells_nonneg].
    intros c0. apply rows_of_group_In.
  - intros [= <-]. apply col_max_nonneg, abs_cells_nonneg.
  - unfold frame_get, df_groupby; cbn [df_columns df_index df_names].
    rewrite (str_get_map (groupby_level col_max false lv (df_names d) (df_index d))).
    rewrite (str_get_map (map cell_abs)).
    destruct (str_get name (df_columns d)) as [vals|]; cbn [option_map]; [|discriminate].
    intros H. apply lookup_key_In in H. unfold groupby_level in H.
    apply in_map_iff in H as (g & <- & _).
    apply col_max_nonneg.
    apply (sublist_nonneg (map cell_abs vals)); [|apply abs_cells_nonneg].
    intros c0. apply rows_of_group_In.
  - unfold df_reduce; cbn [s_values s_index df_columns]. intros H.
    apply lookup_key_In in H. rewrite map_map in H. cbn [snd] in H.
    apply in_map_iff in H as (col & <- & _).
    apply col_max_nonneg, abs_cells_nonneg.
Qed.

(** X17: [difference] never returns a negative value, whatever the method and
    the shape of the result: every cell is absent or at least zero. *)
Theorem difference_never_negative method mf d mf' k name q :
  difference method mf = (inr d, mf') ->
  pd_get d k name = Some (Some q) -> (0 <= q)%Q.
Proof.
  unfold difference, bind. intros H Hq.
  destruct (ensure _overall mf) as [[e|[]] s1]; [discriminate|].
  destruct ((if String.eqb method "between_groups" then group_min
             else if String.eqb method "to_overall" then overall
             else raise (ValueError "Unrecognised method in difference() call")) s1)
    as [[e|sub] s2]; [discriminate|].
  destruct (by_group s2) as [[e|g] s3]; [discriminate|].
  destruct (control_levels s3) as [[e|cl] s4]; [discriminate|].
  unfold ret in H. injection H as <- _.
  exact (reduce_abs_nonneg _ _ _ _ _ Hq).
Qed.

Lemma difference_never_negative_witness :
  fst (difference "to_overall" stratified)
  = inr (PdFrame {| df_names := [Some "control_feature_0"];
                    df_index := [[SStr "x"]; [SStr "y"]];
                    df_columns := [("acc", [Some (1 # 3)%Q; Some (1 # 3)%Q])] |}) /\
  (0 <= 1 # 3)%Q.
Proof.
  split; [vm_compute; reflexivity|].
  refine (difference_never_negative "to_overall" stratified _ _ [SStr "x"] "acc" _ _ _).
  - vm_compute. reflexivity.
  - vm_compute. reflexivity.
Defined.

Lemma lookup_key_fmap {X A B} (a : A -> B) (F : X -> A) k idx (E : list X) :
  lookup_key k idx (map (fun x => a (F x)) E) = option_map a (lookup_key k idx (map F E)).
Proof.
  revert E; induction idx as [|k' idx IH]; intros [|x E]; cbn [map lookup_key];
    try reflexivity.
  destruct (key_eqb k k'); [reflexivity|apply IH].
Qed.

Lemma group_value_get agg g cfn usc k name :
  pd_get (group_value agg g cfn usc) k name
  = option_map agg (group_cells g cfn usc k name).
Proof.
  unfold group_value, group_cells.
  destruct cfn as [levels|], usc; cbn [pd_get s_index s_values].
  - unfold groupby_level, groupby_index. apply lookup_key_fmap.
  - unfold frame_get, df_groupby; cbn [df_columns df_index].
    rewrite (str_get_map (groupby_level agg true levels (df_names g) (df_index g))).
    destruct (str_get name (df_columns g)) as [vals|]; cbn [option_map]; [|reflexivity].
    unfold groupby_level, groupby_index. apply lookup_key_fmap.
  - reflexivity.
  - unfold df_reduce; cbn [s_index s_values].
    apply (lookup_key_fmap agg (fun c : string * list cell => snd c)).
Qed.

Lemma fold_qmin_In r x : In (fold_left qmin r x) (x :: r).
Proof.
  revert x; induction r as [|y r IH]; intros x; cbn [fold_left]; [now left|].
  destruct (IH (qmin x y)) as [H|H]; [|right; now right].
  rewrite <- H. unfold qmin. destruct (Qle_bool x y); [now left|right; now left].
Qed.

Lemma col_min_In l q : col_min l = Some q -> In (Some q) l.
Proof.
  unfold col_min. rewrite col_fold. destruct (values l) as [|x r] eqn:Hv; [discriminate|].
  intros [= <-]. apply values_In. rewrite Hv. apply fold_qmin_In.
Qed.

Lemma fold_qmax_ge r x q : In q (x :: r) -> (q <= fold_left qmax r x)%Q.
Proof.
  revert x q; induction r as [|y r IH]; intros x q; cbn [fold_left].
  - intros [<-|[]]; apply Qle_refl.
  - assert (Hup : (x <= qmax x y)%Q /\ (y <= qmax x y)%Q).
    { unfold qmax. destruct (Qle_bool x y) eqn:Hb.
      - split; [exact (proj1 (Qle_bool_iff x y) Hb)|apply Qle_refl].
      - split; [apply Qle_refl|].
        apply Qlt_le_weak, Qnot_le_lt. intros Hle.
        apply (proj2 (Qle_bool_iff x y)) in Hle. congruence. }
    intros [<-|[<-|Hin]].
    + eapply Qle_trans; [apply Hup|apply (IH (qmax x y) (qmax x y)); now left].
    + eapply Qle_trans; [apply Hup|apply (IH (qmax x y) (qmax x y)); now left].
    + apply (IH (qmax x y)). now right.
Qed.

(** The smallest and the largest value of one column. *)
Lemma col_min_max l :
  match col_min l, col_max l with
  | Some a, Some b => (a <= b)%Q /\ In (Some a) l /\ In (Some b) l
  | None, None => forall q, ~ In (Some q) l
  | _, _ => False
  end.
Proof.
  pose proof (col_min_In l) as Hmin. pose proof (col_max_In l) as Hmax.
  unfold col_min, col_max in *. rewrite !col_fold in *.
  destruct (values l) as [|x r] eqn:Hv.
  - intros q Hq. apply values_In in Hq. now rewrite Hv in Hq.
  - split; [|split; auto].
    eapply Qle_trans; [apply (fold_qmin_le r x x); now left|].
    apply fold_qmax_ge. now left.
Qed.

(** X18: [group_min] never exceeds [group_max].  On a computed frame both
    return with the frame unchanged; under every label and function name the
    two results have a cell together, the two cells hold a value together,
    and the value of [group_min] is at most that of [group_max]. *)
Theorem group_min_at_most_group_max mf :
  Computed mf ->
  exists lo hi,
    group_min mf = (inr lo, mf) /\ group_max mf = (inr hi, mf) /\
    forall k name,
      match pd_get lo k name, pd_get hi k name with
      | Some (Some a), Some (Some b) => (a <= b)%Q
      | Some None, Some None => True
      | None, None => True
      | _, _ => False
      end.
Proof.
  intros Hc. destruct (computed_shape mf Hc) as (g & usc & Hs).
  exists (group_value col_min g (_cf_names mf) usc), (group_value col_max g (_cf_names mf) usc).
  split; [exact (group_agg_shaped col_min _ _ _ Hs)|].
  split; [exact (group_agg_shaped col_max _ _ _ Hs)|].
  intros k name. rewrite !group_value_get.
  destruct (group_cells g (_cf_names mf) usc k name) as [l|]; cbn [option_map]; [|exact I].
  pose proof (col_min_max l) as H.
  destruct (col_min l), (col_max l); try exact I; try contradiction. apply H.
Qed.

Lemma group_min_at_most_group_max_witness :
  exists lo hi,
    group_min stratified = (inr lo, stratified) /\
    group_max stratified = (inr hi, stratified) /\
    forall k name,
      match pd_get lo k name, pd_get hi k name with
      | Some (Some a), Some (Some b) => (a <= b)%Q
      | Some None, Some None => True
      | None, None => True
      | _, _ => False
      end.
Proof. exact (group_min_at_most_group_max stratified stratified_computed). Defined.

Lemma group_cells_sub g cfn usc k name l c :
  group_cells g cfn usc k name = Some l -> In c l ->
  exists n vals, In (n, vals) (df_columns g) /\ In c vals.
Proof.
  unfold group_cells, first_col.
  destruct cfn as [levels|], usc.
  - intros H Hc. apply lookup_key_In in H. apply in_map_iff in H as (x & <- & _).
    apply rows_of_group_In in Hc.
    destruct (df_columns g) as [|[n vals] cols]; [destruct Hc|].
    exists n, vals. split; [now left|exact Hc].
  - destruct (str_get name (df_columns g)) as [vals|] eqn:Hs; [|discriminate].
    intros H Hc. apply lookup_key_In in H. apply in_map_iff in H as (x & <- & _).
    apply rows_of_group_In in Hc. apply str_get_In in Hs. eauto.
  - intros [= <-] Hc.
    destruct (df_columns g) as [|[n vals] cols]; [destruct Hc|].
    exists n, vals. split; [now left|exact Hc].
  - intros H Hc. apply lookup_key_In in H. apply in_map_iff in H as ([n vals] & <- & Hin).
    eauto.
Qed.

Lemma unit_quotient a b :
  (0 <= a)%Q -> (a <= b)%Q ->
  match cell_div (Some a) (Some b) with
  | FNaN => True
  | FNum q => (0 <= q)%Q /\ (q <= 1)%Q
  | FInf _ => False
  end.
Proof.
  intros Ha Hab. cbn [cell_div].
  destruct (Qeq_bool b 0) eqn:Hb.
  - apply Qeq_bool_iff in Hb.
    assert (Ha0 : (a == 0)%Q).
    { apply Qle_antisym; [|exact Ha]. now rewrite <- Hb. }
    apply Qeq_bool_iff in Ha0. now rewrite Ha0.
  - assert (Hpos : (0 < b)%Q).
    { apply Qle_lt_or_eq in Ha as Ha'.
      assert (H0b : (0 <= b)%Q) by (eapply Qle_trans; eauto).
      apply Qle_lt_or_eq in H0b as [H|H]; [exact H|].
      symmetry in H. apply Qeq_bool_iff in H. congruence. }
    split.
    + apply Qle_shift_div_l; [exact Hpos|]. now rewrite Qmult_0_l.
    + apply Qle_shift_div_r; [exact Hpos|]. now rewrite Qmult_1_l.
Qed.

(** X19: for metric values that are not negative, the ratio between groups
    lies between zero and one.  Whatever a release of pandas leaves in
    grouped cells, [ratio('between_groups')] leaves the frame as it is and
    either returns a result in which no cell is negative, above one or
    infinite (a cell without a quotient is [NaN]), or raises the
    [ZeroDivisionError] of Python. *)
Theorem ratio_between_groups_in_unit_interval pandas mf :
  Computed mf ->
  (forall g n vals x,
     _by_group mf = Some g -> In (n, vals) (df_columns g) -> In (Some x) vals ->
     (0 <= x)%Q) ->
  snd (ratio_between_groups pandas mf) = mf /\
  match fst (ratio_between_groups pandas mf) with
  | inr r =>
      forall k name c,
        pd_get r k name = Some c ->
        match c with
        | FNaN => True
        | FNum q => (0 <= q)%Q /\ (q <= 1)%Q
        | FInf _ => False
        end
  | inl e => e = ZeroDivisionError _ZERO_DIVISION
  end.
Proof.
  intros Hc Hpos. destruct (computed_shape mf Hc) as (g & usc & Hs).
  rewrite (ratio_shaped pandas _ _ _ Hs). cbn [fst snd]. split; [reflexivity|].
  unfold pd_truediv.
  destruct (divides_by_zero _ _ _ _ _) eqn:Hz; [reflexivity|].
  intros k name c. rewrite (group_binop_get _ _ _ _ _ _ _ _ (sh_columns _ _ _ Hs)).
  rewrite !group_value_get.
  destruct (group_cells g (_cf_names mf) usc k name) as [l|] eqn:Hl;
    cbn [option_map cells2]; [|discriminate].
  intros [= <-]. pose proof (col_min_max l) as H.
  destruct (col_min l) as [a|], (col_max l) as [b|]; try contradiction; [|exact I].
  destruct H as (Hab & Ha & _).
  apply unit_quotient; [|exact Hab].
  destruct (group_cells_sub _ _ _ _ _ _ _ Hl Ha) as (n & vals & Hin & Hx).
  exact (Hpos g n vals a (sh_by_group _ _ _ Hs) Hin Hx).
Qed.

Lemma stratified_values_not_negative g n vals x :
  _by_group stratified = Some g -> In (n, vals) (df_columns g) -> In (Some x) vals ->
  (0 <= x)%Q.
Proof.
  intros Hg Hin Hx. vm_compute in Hg. injection Hg as <-.
  cbn [df_columns In] in Hin. destruct Hin as [[= <- <-]|[]].
  cbn [In] in Hx.
  repeat (destruct Hx as [[= <-]|Hx]; [vm_compute; discriminate|]). destruct Hx.
Qed.

Lemma ratio_between_groups_in_unit_interval_witness :
  fst (ratio_between_groups GroupedPython stratified)
  = inr (PdFrame
           {| df_names := [Some "control_feature_0"];
              df_index := [[SStr "x"]; [SStr "y"]];
              df_columns := [("acc", [FNum (1 # 2); FNum (1 # 2)])] |}) /\
  snd (ratio_between_groups GroupedPython stratified) = stratified /\
  match fst (ratio_between_groups GroupedPython stratified) with
  | inr r =>
      forall k name c,
        pd_get r k name = Some c ->
        match c with
        | FNaN => True
        | FNum q => (0 <= q)%Q /\ (q <= 1)%Q
        | FInf _ => False
        end
  | inl e => e = ZeroDivisionError _ZERO_DIVISION
  end.
Proof.
  split; [vm_compute; reflexivity|].
  exact (ratio_between_groups_in_unit_interval GroupedPython stratified stratified_computed
           stratified_values_not_negative).
Defined.

Lemma computed_overall_kind mf :
  Computed mf ->
  exists o, overall mf = (inr o, mf) /\
            kind_of o = documented_kind (is_metric_dict (metric mf))
                                        (names_truthy (_cf_names mf)).
Proof.
  intros (s & y_t & y_p & s_f & c_f & s_p & c & Hc & ->).
  pose proof (compute_inv _ _ _ _ _ _ _ Hc) as (_ & Hcf & _ & Hfd & Ho & _).
  destruct (build_func_dict_shape _ _ _ Hfd) as [_ Hone].
  assert (Hov : _overall (install c s) = Some (c_overall c)) by reflexivity.
  assert (Hval : exists o, fst (overall (install c s)) = inr o /\
                   kind_of o = documented_kind (is_metric_dict (metric s))
                                 (names_truthy (option_map (map gf_name) (c_cf_list c)))).
  { rewrite overall_installed. unfold collapse_value.
    destruct (c_cf_list c) as [cfl|] eqn:Hcfl; cbn [option_map].
    - cbn [_compute_overall] in Ho.
      destruct (_compute_dataframe_from_rows _ _ _ cfl) as [e|[df log]] eqn:Hdf;
        cbn [rbind fst snd] in Ho; [discriminate|].
      injection Ho as Ho _. rewrite <- Ho.
      apply rows_table in Hdf as [Hne Hdf].
      assert (Ht : names_truthy (Some (map gf_name cfl)) = true).
      { destruct cfl; [congruence|reflexivity]. }
      rewrite Ht. destruct (is_metric_dict (metric s)) eqn:Hm; cbn [negb].
      + eexists; split; reflexivity.
      + destruct (Hone eq_refl) as (n & fc & Hfd'). unfold iloc_col0.
        rewrite Hdf, Hfd'. cbn [df_columns map rbind]. eexists; split; reflexivity.
    - cbn [_compute_overall] in Ho. injection Ho as Ho _. rewrite <- Ho.
      cbn [names_truthy]. destruct (is_metric_dict (metric s)) eqn:Hm; cbn [negb].
      + eexists; split; reflexivity.
      + destruct (Hone eq_refl) as (n & fc & Hfd'). unfold iloc0. rewrite Hfd'.
        cbn [s_values map rbind]. eexists; split; reflexivity. }
  destruct Hval as (o & Hv & Hk). exists o. split; [|exact Hk].
  pose proof (overall_with_cache _ _ Hov) as Hw.
  pose proof (overall_cached_keeps_frame _ _ Hov) as Hkeep. rewrite <- Hw in Hkeep.
  destruct (overall (install c s)) as [r s'] eqn:E. cbn [fst snd] in *. now subst.
Qed.

(** X20: the types of the results follow the table in the docstring of
    [overall].  On a computed frame [overall], [group_min], [group_max] and
    [difference] between groups all return a bare value for a callable
    without control features, a Series for a callable with control features
    or a dict without, and a DataFrame for a dict with control features;
    [by_group] returns a Series for a callable and a DataFrame for a dict;
    [ratio] between groups returns a result of the documented kind too,
    unless its division raises [ZeroDivisionError], whatever a release of
    pandas leaves in grouped cells. *)
Theorem result_kinds_follow_documented_table pandas mf :
  Computed mf ->
  let is_dict := is_metric_dict (metric mf) in
  let t := documented_kind is_dict (names_truthy (_cf_names mf)) in
  (exists o lo hi d g,
     overall mf = (inr o, mf) /\ group_min mf = (inr lo, mf) /\
     group_max mf = (inr hi, mf) /\ difference "between_groups" mf = (inr d, mf) /\
     by_group mf = (inr g, mf) /\
     kind_of o = t /\ kind_of lo = t /\ kind_of hi = t /\ kind_of d = t /\
     kind_of g = (if is_dict then KFrame else KSeries)) /\
  snd (ratio_between_groups pandas mf) = mf /\
  match fst (ratio_between_groups pandas mf) with
  | inr r => kind_of r = t
  | inl e => e = ZeroDivisionError _ZERO_DIVISION
  end.
Proof.
  intros Hc is_dict t.
  destruct (computed_overall_kind mf Hc) as (o & Ho & Hko).
  destruct (computed_shape mf Hc) as (g & usc & Hs).
  assert (Husc : usc = negb is_dict).
  { pose proof (sh_usc _ _ _ Hs) as Hu.
    destruct Hc as (s & y_t & y_p & s_f & c_f & s_p & c & _ & ->).
    cbn [install _user_supplied_callable] in Hu. injection Hu as <-. reflexivity. }
  pose proof (sh_levels _ _ _ Hs) as Hlv.
  split.
  - exists o, (group_value col_min g (_cf_names mf) usc),
           (group_value col_max g (_cf_names mf) usc),
           (difference_value g (_cf_names mf) usc),
           (by_group_value g usc).
    split; [exact Ho|].
    split; [exact (group_agg_shaped col_min _ _ _ Hs)|].
    split; [exact (group_agg_shaped col_max _ _ _ Hs)|].
    split; [exact (difference_shaped _ _ _ Hs)|].
    split; [exact (by_group_shaped _ _ _ Hs)|].
    split; [exact Hko|].
    unfold t, difference_value, group_value, by_group_value. rewrite Husc.
    destruct (_cf_names mf) as [[|n levels]|]; [specialize (Hlv eq_refl); discriminate| |];
      destruct is_dict; cbn; repeat split; reflexivity.
  - rewrite (ratio_shaped pandas _ _ _ Hs). cbn [fst snd]. split; [reflexivity|].
    unfold pd_truediv. destruct (divides_by_zero _ _ _ _ _); [reflexivity|].
    unfold t, group_value. rewrite Husc.
    destruct (_cf_names mf) as [[|n levels]|]; [specialize (Hlv eq_refl); discriminate| |];
      destruct is_dict; reflexivity.
Qed.

Lemma result_kinds_follow_documented_table_witness :
  documented_kind (is_metric_dict (metric stratified))
                  (names_truthy (_cf_names stratified)) = KFrame /\
  let is_dict := is_metric_dict (metric stratified) in
  let t := documented_kind is_dict (names_truthy (_cf_names stratified)) in
  (exists o lo hi d g,
     overall stratified = (inr o, stratified) /\ group_min stratified = (inr lo, stratified) /\
     group_max stratified = (inr hi, stratified) /\
     difference "between_groups" stratified = (inr d, stratified) /\
     by_group stratified = (inr g, stratified) /\
     kind_of o = t /\ kind_of lo = t /\ kind_of hi = t /\ kind_of d = t /\
     kind_of g = (if is_dict then KFrame else KSeries)) /\
  snd (ratio_between_groups GroupedFloat64 stratified) = stratified /\
  match fst (ratio_between_groups GroupedFloat64 stratified) with
  | inr r => kind_of r = t
  | inl e => e = ZeroDivisionError _ZERO_DIVISION
  end.
Proof.
  split; [reflexivity|].
  exact (result_kinds_follow_documented_table GroupedFloat64 stratified stratified_computed).
Defined.

(** ** Aggregations of a streaming frame *)




